(** * Agent orchestration core: parsers, toolbox, execution, transcript

    A shallow embedding of [agent.py] and [tools.py].

    Conventions of the embedding.
    - A Python [str] is a [string]; one [ascii] stands for one code point,
      so the model covers strings whose code points are below 256.
    - An exception is a value of [exn]: its class and the text [str(e)].
      [exn] stands for instances of Python's [Exception], the ones a
      clause [except Exception] catches; an exception outside that class
      ([SystemExit], [KeyboardInterrupt], [GeneratorExit]) is a
      [base_exn]. A function that can raise returns a [result].
    - A Python [dict] is an association list without duplicate keys, in
      insertion order (the order is visible in listings and messages).
    - Logging calls have no effect on results and are left out.
    - Code that lives outside the repository (the JSON decoder, the tool
      loader, the description renderer, [str()] on arbitrary objects, the
      module [.default_tools] that [agent.py] imports) is gathered in the
      class [Env]; statements hold for every [Env]. *)

From Stdlib Require Import String Ascii List ZArith Lia Bool Arith.
From Stdlib Require Import Numbers.DecimalString.
Import ListNotations.
Local Open Scope list_scope.
Local Open Scope string_scope.

(* ================================================================== *)
(** ** Results and exceptions *)

Inductive exn_class : Type :=
| ValueError
| KeyError
| TypeError
| IndexError
| AttributeError
| ImportError
| AgentError
| AgentParsingError
| AgentExecutionError
| AgentMaxIterationsError
| AgentGenerationError
| OtherException (class_name : string).

(** [exn_str] is what [str(e)] and an f-string [{e}] render. *)
Record exn : Type := Exn { exn_kind : exn_class; exn_str : string }.

(** The classes of [BaseException] that are no subclasses of
    [Exception]. *)
Inductive base_class : Type :=
| SystemExit
| KeyboardInterrupt
| GeneratorExit
| OtherBaseException (class_name : string).

Record base_exn : Type := BaseExn { base_kind : base_class; base_str : string }.

(** What a call comes to: a value, an instance of [Exception], or an
    exception that no clause [except Exception] catches. *)
Inductive result (A : Type) : Type :=
| Ok (a : A)
| Raise (e : exn)
| RaiseBase (b : base_exn).
Arguments Ok {A} a.
Arguments Raise {A} e.
Arguments RaiseBase {A} b.

Definition bind {A B : Type} (r : result A) (k : A -> result B) : result B :=
  match r with
  | Ok a => k a
  | Raise e => Raise e
  | RaiseBase b => RaiseBase b
  end.

(** [try: r except Exception as e: h e] *)
Definition try_except {A : Type} (r : result A) (h : exn -> result A) : result A :=
  match r with
  | Ok a => Ok a
  | Raise e => h e
  | RaiseBase b => RaiseBase b
  end.

Declare Scope py_scope.
Delimit Scope py_scope with py.
Notation "x <- r ;; k" := (bind r (fun x => k))
  (at level 61, r at next level, right associativity) : py_scope.
Notation "' p <- r ;; k" := (bind r (fun x => let p := x in k))
  (at level 61, p pattern, r at next level, right associativity) : py_scope.

Definition is_ok {A : Type} (r : result A) : bool :=
  match r with Ok _ => true | Raise _ | RaiseBase _ => false end.

(* ================================================================== *)
(** ** Python strings *)

Module PyStr.

Definition dq : string := String "034" EmptyString.
Definition nl : string := String "010" EmptyString.

(** Writing aid for literals: in [lit s] an apostrophe stands for a
    double quote and a circumflex for a line feed. *)
Fixpoint lit (s : string) : string :=
  match s with
  | EmptyString => EmptyString
  | String c s' =>
      String (if Ascii.eqb c "'" then "034"
              else if Ascii.eqb c "^" then "010" else c)%char (lit s')
  end.

Fixpoint drop (n : nat) (s : string) : string :=
  match n, s with
  | O, _ => s
  | S _, EmptyString => EmptyString
  | S n', String _ s' => drop n' s'
  end.

Fixpoint take (n : nat) (s : string) : string :=
  match n, s with
  | O, _ => EmptyString
  | S _, EmptyString => EmptyString
  | S n', String c s' => String c (take n' s')
  end.

(** [s.find(sub)], [None] standing for -1. *)
Fixpoint find (sub s : string) : option nat :=
  if prefix sub s then Some 0
  else match s with
       | EmptyString => None
       | String _ s' => option_map S (find sub s')
       end.

(** [sub in s] *)
Definition contains (sub s : string) : bool :=
  match find sub s with Some _ => true | None => false end.

(** [s.split(sep)] for a non-empty [sep]: the pieces between the
    leftmost non-overlapping occurrences of [sep]. [skip] counts the
    characters of a matched separator still to pass over. *)
Fixpoint split_go (sep : string) (skip : nat) (s : string) : list string :=
  match s with
  | EmptyString => [EmptyString]
  | String c s' =>
      match skip with
      | S k => split_go sep k s'
      | O =>
          if prefix sep s
          then EmptyString :: split_go sep (String.length sep - 1) s'
          else match split_go sep 0 s' with
               | p :: ps => String c p :: ps
               | [] => [String c EmptyString]
               end
      end
  end.

Definition split (sep s : string) : list string := split_go sep 0 s.

(** [s.replace(old, new)] for a non-empty [old]. *)
Fixpoint replace_go (old new : string) (skip : nat) (s : string) : string :=
  match s with
  | EmptyString => EmptyString
  | String c s' =>
      match skip with
      | S k => replace_go old new k s'
      | O =>
          if prefix old s
          then new ++ replace_go old new (String.length old - 1) s'
          else String c (replace_go old new 0 s')
      end
  end.

Definition replace (old new s : string) : string := replace_go old new 0 s.

(** [str.isspace] on one code point below 256. *)
Definition is_space (c : ascii) : bool :=
  let n := nat_of_ascii c in
  (((9 <=? n) && (n <=? 13)) || ((28 <=? n) && (n <=? 32))
   || (n =? 133) || (n =? 160))%nat.

Fixpoint lstrip (s : string) : string :=
  match s with
  | EmptyString => EmptyString
  | String c s' => if is_space c then lstrip s' else s
  end.

Fixpoint rstrip (s : string) : string :=
  match s with
  | EmptyString => EmptyString
  | String c s' =>
      match rstrip s' with
      | EmptyString => if is_space c then EmptyString else String c EmptyString
      | r => String c r
      end
  end.

(** [s.strip()] *)
Definition strip (s : string) : string := rstrip (lstrip s).

(** Start positions of the matches of [re.finditer] for a pattern that
    is one literal character. *)
Fixpoint finditer_char (c : ascii) (i : nat) (s : string) : list nat :=
  match s with
  | EmptyString => []
  | String d s' =>
      if Ascii.eqb d c then i :: finditer_char c (S i) s'
      else finditer_char c (S i) s'
  end.

(** A slice bound as Python resolves it against a length. *)
Definition bound (len : Z) (i : Z) : Z :=
  if (i <? 0)%Z then Z.max 0 (i + len) else Z.min i len.

(** [s[a:b]] *)
Definition slice (s : string) (a b : Z) : string :=
  let len := Z.of_nat (String.length s) in
  let a' := bound len a in
  let b' := bound len b in
  take (Z.to_nat (b' - a')) (drop (Z.to_nat a') s).

(** [str(n)] for a non-negative integer. *)
Definition str_nat (n : nat) : string := NilZero.string_of_uint (Nat.to_uint n).

(** [str.isprintable] on one code point below 256. *)
Definition is_printable (c : ascii) : bool :=
  let n := nat_of_ascii c in
  (((32 <=? n) && (n <? 127)) || ((161 <=? n) && negb (n =? 173)))%nat.

Definition hex_digit (n : nat) : ascii :=
  match String.get n "0123456789abcdef" with
  | Some c => c
  | None => "0"%char
  end.

(** One character of [repr(s)], between quotes [quote]. *)
Definition repr_char (quote c : ascii) : string :=
  if (Ascii.eqb c quote || Ascii.eqb c "\")%bool then String "\" (String c EmptyString)
  else if Ascii.eqb c "009" then "\t"
  else if Ascii.eqb c "010" then "\n"
  else if Ascii.eqb c "013" then "\r"
  else if is_printable c then String c EmptyString
  else
    let n := nat_of_ascii c in
    String "\" (String "x" (String (hex_digit (n / 16))
                                   (String (hex_digit (n mod 16)) EmptyString))).

Fixpoint repr_chars (quote : ascii) (s : string) : string :=
  match s with
  | EmptyString => EmptyString
  | String c s' => repr_char quote c ++ repr_chars quote s'
  end.

(** [repr(s)]: between double quotes when [s] holds an apostrophe and
    no double quote, between apostrophes otherwise. *)
Definition repr_str (s : string) : string :=
  let quote : ascii :=
    if (contains "'" s && negb (contains dq s))%bool then "034"%char else "'"%char in
  String quote (repr_chars quote s ++ String quote EmptyString).

(** [s.count(c)] for one character. *)
Fixpoint count_char (c : ascii) (s : string) : nat :=
  match s with
  | EmptyString => 0
  | String d s' => (if Ascii.eqb d c then 1 else 0) + count_char c s'
  end.

(** [s.rfind(c)] for one character, [None] standing for -1. *)
Fixpoint rfind_char (c : ascii) (s : string) : option nat :=
  match s with
  | EmptyString => None
  | String d s' =>
      match rfind_char c s' with
      | Some i => Some (S i)
      | None => if Ascii.eqb d c then Some 0 else None
      end
  end.

End PyStr.

Import PyStr.

(* ================================================================== *)
(** ** Python values and dictionaries *)

Module Dict.
Section Ops.
Context {V : Type}.

Definition dict : Type := list (string * V).

(** [d.get(k)] *)
Fixpoint get (k : string) (d : dict) : option V :=
  match d with
  | [] => None
  | (k', v) :: d' => if String.eqb k k' then Some v else get k d'
  end.

(** [k in d] *)
Definition mem (k : string) (d : dict) : bool :=
  match get k d with Some _ => true | None => false end.

(** [d[k] = v]: an existing key keeps its place, a new key goes last. *)
Fixpoint set (k : string) (v : V) (d : dict) : dict :=
  match d with
  | [] => [(k, v)]
  | (k', v') :: d' =>
      if String.eqb k k' then (k', v) :: d' else (k', v') :: set k v d'
  end.

(** [del d[k]] *)
Fixpoint del (k : string) (d : dict) : dict :=
  match d with
  | [] => []
  | (k', v') :: d' => if String.eqb k k' then d' else (k', v') :: del k d'
  end.

Definition keys (d : dict) : list string := map fst d.
Definition values (d : dict) : list V := map snd d.

(** [dict(pairs)], and the dict comprehension over a list of pairs. *)
Definition of_pairs (l : list (string * V)) : dict :=
  fold_left (fun acc kv => set (fst kv) (snd kv) acc) l [].

(** [{**d1, **d2}] *)
Definition merge (d1 d2 : dict) : dict :=
  fold_left (fun acc kv => set (fst kv) (snd kv) acc) d2 d1.
End Ops.
Arguments dict V : clear implicits.
End Dict.

(** Values that travel between the model output, the shared state and the
    tools. [PFloat] keeps the literal of a float; [PObj] is an object the
    core never looks into (an image, an audio clip), known by the name
    of its class and by identity; its class defines no container method
    ([__contains__], [__getitem__], [__iter__]). *)
#[warnings="-register-all"]
Inductive pyval : Type :=
| PNone
| PBool (b : bool)
| PInt (z : Z)
| PFloat (literal : string)
| PStr (s : string)
| PList (l : list pyval)
| PDict (d : list (string * pyval))
| PObj (class_name : string) (id : nat).

(** What [json.loads] gives: a value, a [JSONDecodeError] with its
    message and position, or another exception (the recursion limit). *)
Inductive decode_result : Type :=
| Decoded (v : pyval)
| DecodeError (msg : string) (pos : nat)
| DecodeRaised (e : exn).

(* ================================================================== *)
(** ** A reference JSON decoder

    [json.loads(s, strict=False)] belongs to the Python library. The
    parsers below take the decoder from [Env]; this module gives one
    instance, written after the library's [json.decoder] and
    [json.scanner] (objects, arrays, strings with their escapes, numbers,
    the literals), with the messages and positions of CPython 3.11. A unicode
    escape above code point 255 has no image in [string]; the reference
    decoder reports it as an error of its own. *)

Module RefJson.

Inductive scan (A : Type) : Type :=
| Scanned (a : A) (rest : string) (pos : nat)
| Stop (pos : nat)                      (* StopIteration(pos) *)
| Failed (msg : string) (pos : nat).      (* JSONDecodeError(msg, doc, pos) *)
Arguments Scanned {A}.
Arguments Stop {A}.
Arguments Failed {A}.

Definition is_ws (c : ascii) : bool :=
  let n := nat_of_ascii c in
  ((n =? 32) || (n =? 9) || (n =? 10) || (n =? 13))%nat.

(** [WHITESPACE.match(s, pos).end()] *)
Fixpoint skip_ws (rest : string) (pos : nat) : string * nat :=
  match rest with
  | String c r => if is_ws c then skip_ws r (S pos) else (rest, pos)
  | EmptyString => (rest, pos)
  end.

Definition is_digit (c : ascii) : bool :=
  let n := nat_of_ascii c in ((48 <=? n) && (n <=? 57))%nat.

Fixpoint span_digits (rest : string) : string * string :=
  match rest with
  | String c r =>
      if is_digit c then let (d, r') := span_digits r in (String c d, r')
      else (EmptyString, rest)
  | EmptyString => (EmptyString, rest)
  end.

Fixpoint Z_of_digits (acc : Z) (ds : string) : Z :=
  match ds with
  | String c r => Z_of_digits (10 * acc + Z.of_nat (nat_of_ascii c - 48)) r
  | EmptyString => acc
  end.

(** [NUMBER_RE.match]: an optional minus sign and an integer part (a
    zero, or a non-zero digit and more digits), then an optional
    fraction (a dot and digits) and an optional exponent (e or E, an
    optional sign, digits). Gives the value, the rest and the length. *)
Definition match_number (rest : string) : option (pyval * string * nat) :=
  let (sign, r0) :=
    match rest with
    | String "-" r => ("-", r)
    | _ => (EmptyString, rest)
    end in
  let int_part :=
    match r0 with
    | String "0" r => Some ("0", r)
    | String c r =>
        if is_digit c then let (d, r') := span_digits r in Some (String c d, r')
        else None
    | EmptyString => None
    end in
  match int_part with
  | None => None
  | Some (ds, r1) =>
      let (frac, r2) :=
        match r1 with
        | String "." r =>
            match span_digits r with
            | (EmptyString, _) => (EmptyString, r1)
            | (d, r') => (String "." d, r')
            end
        | _ => (EmptyString, r1)
        end in
      let (exp, r3) :=
        match r2 with
        | String e r =>
            if (Ascii.eqb e "e" || Ascii.eqb e "E")%bool then
              let (sg, r') :=
                match r with
                | String "-" r' => ("-", r')
                | String "+" r' => ("+", r')
                | _ => (EmptyString, r)
                end in
              match span_digits r' with
              | (EmptyString, _) => (EmptyString, r2)
              | (d, r'') => (String e (sg ++ d), r'')
              end
            else (EmptyString, r2)
        | EmptyString => (EmptyString, r2)
        end in
      let text := sign ++ ds ++ frac ++ exp in
      let v :=
        match frac, exp with
        | EmptyString, EmptyString =>
            PInt (if String.eqb sign "-" then - Z_of_digits 0 ds else Z_of_digits 0 ds)
        | _, _ => PFloat text
        end in
      Some (v, r3, String.length text)
  end.

Definition hex_val (c : ascii) : option nat :=
  let n := nat_of_ascii c in
  if ((48 <=? n) && (n <=? 57))%nat then Some (n - 48)
  else if ((65 <=? n) && (n <=? 70))%nat then Some (n - 55)
  else if ((97 <=? n) && (n <=? 102))%nat then Some (n - 87)
  else None.

(** The value of the four characters after a [u], when all four are
    hexadecimal digits. *)
Definition decode_uXXXX (a b c d : ascii) : option nat :=
  match hex_val a, hex_val b, hex_val c, hex_val d with
  | Some x, Some y, Some z, Some w => Some (((x * 16 + y) * 16 + z) * 16 + w)
  | _, _, _, _ => None
  end.

(** [BACKSLASH] *)
Definition backslash (c : ascii) : option ascii :=
  if Ascii.eqb c "034" then Some "034"%char
  else if Ascii.eqb c "\" then Some "\"%char
  else if Ascii.eqb c "/" then Some "/"%char
  else if Ascii.eqb c "b" then Some "008"%char
  else if Ascii.eqb c "f" then Some "012"%char
  else if Ascii.eqb c "n" then Some "010"%char
  else if Ascii.eqb c "r" then Some "013"%char
  else if Ascii.eqb c "t" then Some "009"%char
  else None.

(** [py_scanstring(s, end, strict=False)]; [rest] starts after the
    opening quote, at [pos]; [begin] is the position of the quote. *)
Fixpoint scanstring (begin : nat) (rest : string) (pos : nat) : scan string :=
  match rest with
  | EmptyString => Failed "Unterminated string starting at" begin
  | String c r =>
      if Ascii.eqb c "034" then Scanned EmptyString r (S pos)
      else if Ascii.eqb c "\" then
        match r with
        | EmptyString => Failed "Unterminated string starting at" begin
        | String esc r' =>
            if Ascii.eqb esc "u" then
              match r' with
              | String a (String b (String c' (String d r4))) =>
                  match decode_uXXXX a b c' d with
                  | None => Failed "Invalid \uXXXX escape" (S pos)
                  | Some uni =>
                      if (uni <? 256)%nat then
                        match scanstring begin r4 (pos + 6) with
                        | Scanned t r'' p => Scanned (String (ascii_of_nat uni) t) r'' p
                        | other => other
                        end
                      else Failed "unicode escape above U+00FF (outside the reference decoder)" (S pos)
                  end
              | _ => Failed "Invalid \uXXXX escape" (S pos)
              end
            else
              match backslash esc with
              | None => Failed "Invalid \escape" pos
              | Some ch =>
                  match scanstring begin r' (pos + 2) with
                  | Scanned t r'' p => Scanned (String ch t) r'' p
                  | other => other
                  end
              end
        end
      else
        match scanstring begin r (S pos) with
        | Scanned t r' p => Scanned (String c t) r' p
        | other => other
        end
  end.

Definition out_of_fuel : string := "out of fuel".

Section Containers.
(** The scanner for nested values, [scan_once]. *)
Variable scan_once : string -> nat -> scan pyval.

(** The loop of [JSONObject]; [rest] starts after the opening quote of
    a key, at [pos]. [n] bounds the number of members. *)
Fixpoint object_loop (n : nat) (pairs : list (string * pyval))
         (rest : string) (pos : nat) : scan pyval :=
  match n with
  | O => Failed out_of_fuel pos
  | S n' =>
      match scanstring (pos - 1) rest pos with
      | Stop q => Stop q
      | Failed m q => Failed m q
      | Scanned key r p =>
          let (r1, p1) :=
            match r with
            | String ":" _ => (r, p)
            | _ => skip_ws r p
            end in
          match r1 with
          | String ":" r2 =>
              let (r3, p3) := skip_ws r2 (S p1) in
              match scan_once r3 p3 with
              | Stop q => Failed "Expecting value" q
              | Failed m q => Failed m q
              | Scanned v r4 p4 =>
                  let pairs' := (pairs ++ [(key, v)])%list in
                  let (r5, p5) := skip_ws r4 p4 in
                  match r5 with
                  | String "}" r6 => Scanned (PDict (Dict.of_pairs pairs')) r6 (S p5)
                  | String "," r6 =>
                      let (r7, p7) := skip_ws r6 (S p5) in
                      match r7 with
                      | String "034" r8 => object_loop n' pairs' r8 (S p7)
                      | _ => Failed "Expecting property name enclosed in double quotes" p7
                      end
                  | _ => Failed "Expecting ',' delimiter" p5
                  end
              end
          | _ => Failed "Expecting ':' delimiter" p1
          end
      end
  end.

(** [JSONObject]; [rest] starts after the brace, at [pos]. *)
Definition JSONObject (rest : string) (pos : nat) : scan pyval :=
  match rest with
  | String "034" r => object_loop (String.length rest) [] r (S pos)
  | _ =>
      let (r1, p1) := skip_ws rest pos in
      match r1 with
      | String "}" r2 => Scanned (PDict []) r2 (S p1)
      | String "034" r2 => object_loop (String.length rest) [] r2 (S p1)
      | _ => Failed "Expecting property name enclosed in double quotes" p1
      end
  end.

(** The loop of [JSONArray]. *)
Fixpoint array_loop (n : nat) (vals : list pyval)
         (rest : string) (pos : nat) : scan pyval :=
  match n with
  | O => Failed out_of_fuel pos
  | S n' =>
      match scan_once rest pos with
      | Stop q => Failed "Expecting value" q
      | Failed m q => Failed m q
      | Scanned v r p =>
          let vals' := (vals ++ [v])%list in
          let (r1, p1) := skip_ws r p in
          match r1 with
          | String "]" r2 => Scanned (PList vals') r2 (S p1)
          | String "," r2 =>
              let (r3, p3) := skip_ws r2 (S p1) in
              array_loop n' vals' r3 p3
          | _ => Failed "Expecting ',' delimiter" p1
          end
      end
  end.

(** [JSONArray]; [rest] starts after the bracket, at [pos]. *)
Definition JSONArray (rest : string) (pos : nat) : scan pyval :=
  let (r1, p1) := skip_ws rest pos in
  match r1 with
  | String "]" r2 => Scanned (PList []) r2 (S p1)
  | _ => array_loop (S (String.length rest)) [] r1 p1
  end.
End Containers.

(** [scan_once(s, idx)]; [rest] is [s[idx:]]. [fuel] bounds the nesting. *)
Fixpoint scan_once (fuel : nat) (rest : string) (pos : nat) : scan pyval :=
  match fuel with
  | O => Failed out_of_fuel pos
  | S fuel' =>
      match rest with
      | EmptyString => Stop pos
      | String c r =>
          if Ascii.eqb c "034" then
            match scanstring pos r (S pos) with
            | Scanned t r' p => Scanned (PStr t) r' p
            | Stop q => Stop q
            | Failed m q => Failed m q
            end
          else if Ascii.eqb c "{" then JSONObject (scan_once fuel') r (S pos)
          else if Ascii.eqb c "[" then JSONArray (scan_once fuel') r (S pos)
          else if prefix "null" rest then Scanned PNone (drop 4 rest) (pos + 4)
          else if prefix "true" rest then Scanned (PBool true) (drop 4 rest) (pos + 4)
          else if prefix "false" rest then Scanned (PBool false) (drop 5 rest) (pos + 5)
          else
            match match_number rest with
            | Some (v, r', len) => Scanned v r' (pos + len)
            | None =>
                if prefix "NaN" rest then Scanned (PFloat "NaN") (drop 3 rest) (pos + 3)
                else if prefix "Infinity" rest
                then Scanned (PFloat "Infinity") (drop 8 rest) (pos + 8)
                else if prefix "-Infinity" rest
                then Scanned (PFloat "-Infinity") (drop 9 rest) (pos + 9)
                else Stop pos
            end
      end
  end.

(** [json.loads(s, strict=False)]: leading blanks, one value, trailing
    blanks, and nothing more. *)
Definition loads (s : string) : decode_result :=
  let (r0, p0) := skip_ws s 0 in
  match scan_once (S (String.length s)) r0 p0 with
  | Stop q => DecodeError "Expecting value" q
  | Failed m q => DecodeError m q
  | Scanned v r p =>
      let (r1, p1) := skip_ws r p in
      match r1 with
      | EmptyString => Decoded v
      | _ => DecodeError "Extra data" p1
      end
  end.

End RefJson.

(* ================================================================== *)
(** ** Tools and the surroundings of the core *)

(** How a capability is called: with one positional value, or with named
    arguments. *)
Inductive call_args : Type :=
| Positional (v : pyval)
| Keywords (kwargs : Dict.dict pyval).

(** A concrete capability, an instance of the library's [Tool]. *)
Record Tool : Type := {
  tool_name : string;
  tool_description : string;
  tool_inputs : Dict.dict string;
  tool_output_type : string;
  tool_call : call_args -> result pyval
}.

(** [tools.py], the dataclass [PreTool]: a deferred reference. *)
Module PreTool.
Record t : Type := {
  name : string;
  inputs : Dict.dict string;
  output_type : string;
  task : string;
  description : string;
  repo_id : option string
}.
End PreTool.

(** What a registry holds; [isinstance(tool, Tool)] is [Concrete]. *)
Inductive entry : Type :=
| Concrete (t : Tool)
| Deferred (p : PreTool.t).

Definition isinstance_Tool (e : entry) : bool :=
  match e with Concrete _ => true | Deferred _ => false end.

(** [tool.name] *)
Definition entry_name (e : entry) : string :=
  match e with Concrete t => tool_name t | Deferred p => PreTool.name p end.

(** [tool.description] *)
Definition entry_description (e : entry) : string :=
  match e with Concrete t => tool_description t | Deferred p => PreTool.description p end.

(** Code the core calls but does not contain. *)
Class Env : Type := {
  (** [json.loads(s, strict=False)] *)
  json_loads : string -> decode_result;
  (** [str(v)] *)
  py_str : pyval -> string;
  (** [load_tool(task_or_repo_id)] *)
  load_tool : string -> result Tool;
  (** [getattr(transformers.agents, tool_class_name)()] *)
  tool_class : string -> Tool;
  (** [setup_default_tools(logger)], the function that [agent.py]
      imports from the module [.default_tools]; the repository does not
      hold that module *)
  imported_setup_default_tools : result (Dict.dict entry);
  (** [get_tool_description_with_args(tool, template)] *)
  get_tool_description_with_args : entry -> string -> string;
  DEFAULT_TOOL_DESCRIPTION_TEMPLATE : string;
  BASE_PYTHON_TOOLS : Dict.dict entry;
  (** [str(list(set(LIST_SAFE_MODULES) | set(imports)))] *)
  str_authorized_imports : list string -> string
}.

(* ================================================================== *)
(** ** ActionParsers *)

Section Parsers.
Context {E : Env}.

(** [str(e)] for a [JSONDecodeError] raised on [doc]. *)
Definition str_JSONDecodeError (doc msg : string) (pos : nat) : string :=
  let before := take pos doc in
  let lineno := count_char "010" before + 1 in
  let colno :=
    match rfind_char "010" before with
    | Some i => pos - i
    | None => pos + 1
    end in
  msg ++ ": line " ++ str_nat lineno ++ " column " ++ str_nat colno
      ++ " (char " ++ str_nat pos ++ ")".

Definition multiple_tool_calls_msg : string :=
  "JSON is invalid: you probably tried to provide multiple tool calls in one action. PROVIDE ONLY ONE TOOL CALL.".

Definition invalid_json_msg (blob : string) (e_str : string) (place : Z) : string :=
  "The JSON blob you used is invalid due to the following error: " ++ e_str ++ "." ++ nl
  ++ "JSON blob was: " ++ blob ++ ", decoding failed on that specific part of the blob:" ++ nl
  ++ "'" ++ slice blob (place - 4) (place + 5) ++ "'.".

(** [KeyError(arg)] for a string [arg]: [str(e)] is [repr(arg)]. *)
Definition KeyError_of (arg : string) : exn := Exn KeyError (repr_str arg).

(** [list[-1]] *)
Definition last_index (l : list nat) : result nat :=
  match rev l with
  | i :: _ => Ok i
  | [] => Raise (Exn IndexError "list index out of range")
  end.

Definition parse_json_blob (json_blob : string) : result pyval :=
  let first_accolade_index : Z :=
    match find "{" json_blob with
    | Some i => Z.of_nat i
    | None => (-1)%Z
    end in
  match last_index (finditer_char "}" 0 json_blob) with
  | Raise e =>
      (* except Exception *)
      Raise (Exn ValueError ("Error in parsing the JSON blob: " ++ exn_str e))
  | RaiseBase b => RaiseBase b
  | Ok last_accolade_index =>
      let json_blob :=
        replace ("\" ++ dq) "'"
                (slice json_blob first_accolade_index (Z.of_nat last_accolade_index + 1)) in
      match json_loads json_blob with
      | Decoded json_data => Ok json_data
      | DecodeError msg pos =>
          (* except json.JSONDecodeError *)
          let place := Z.of_nat pos in
          if String.eqb (slice json_blob (place - 1) (place + 2)) ("}," ++ nl)
          then Raise (Exn ValueError multiple_tool_calls_msg)
          else Raise (Exn ValueError
                        (invalid_json_msg json_blob (str_JSONDecodeError json_blob msg pos) place))
      | DecodeRaised e =>
          (* except Exception *)
          Raise (Exn ValueError ("Error in parsing the JSON blob: " ++ exn_str e))
      end
  end.

Definition code_pattern : string := "```(?:py|python)?\n(.*?)\n```".

(** The lazy group followed by [stop]: the shortest text before an
    occurrence of [stop]. *)
Fixpoint lazy_until (stop s : string) : option string :=
  if prefix stop s then Some EmptyString
  else match s with
       | EmptyString => None
       | String c s' => option_map (String c) (lazy_until stop s')
       end.

(** One alternative of the optional tag, then the line feed, the lazy
    body and the closing fence. *)
Definition fence_after (tag : string) (s : string) : option string :=
  if prefix (tag ++ nl) s
  then lazy_until (nl ++ "```") (drop (String.length tag + 1) s)
  else None.

(** The pattern matched at the start of [s]; the alternatives of the
    tag are tried in the order of the pattern, the empty tag last. *)
Definition match_code_here (s : string) : option string :=
  if prefix "```" s then
    let s' := drop 3 s in
    match fence_after "py" s' with
    | Some g => Some g
    | None =>
        match fence_after "python" s' with
        | Some g => Some g
        | None => fence_after EmptyString s'
        end
    end
  else None.

(** [re.search(pattern, s, re.DOTALL)], giving [group(1)]. *)
Fixpoint search_code (s : string) : option string :=
  match match_code_here s with
  | Some g => Some g
  | None =>
      match s with
      | EmptyString => None
      | String _ s' => search_code s'
      end
  end.

Definition invalid_code_msg (e_str : string) : string :=
  nl ++ "The code blob you used is invalid: due to the following error: " ++ e_str ++ nl
  ++ "This means that the regex pattern " ++ code_pattern
  ++ " was not respected: make sure to include code with the correct pattern, for instance:" ++ nl
  ++ "Thoughts: Your thoughts" ++ nl
  ++ "Code:" ++ nl
  ++ "```py" ++ nl
  ++ "# Your python code here" ++ nl
  ++ "```<end_action>".

Definition parse_code_blob (code_blob : string) : result string :=
  match search_code code_blob with
  | Some g => Ok (strip g)
  | None =>
      (* [match] is None: AttributeError, caught by [except Exception] *)
      Raise (Exn ValueError
               (invalid_code_msg "'NoneType' object has no attribute 'group'"))
  end.

(** [type(v).__name__] *)
Definition py_type_name (v : pyval) : string :=
  match v with
  | PNone => "NoneType"
  | PBool _ => "bool"
  | PInt _ => "int"
  | PFloat _ => "float"
  | PStr _ => "str"
  | PList _ => "list"
  | PDict _ => "dict"
  | PObj class_name _ => class_name
  end.

(** [key in v] for a string [key]; a decoded value that is no object is
    a string (substring test), a list (membership) or not iterable. *)
Definition py_in (key : string) (v : pyval) : result bool :=
  match v with
  | PDict d => Ok (Dict.mem key d)
  | PStr s => Ok (contains key s)
  | PList l =>
      Ok (existsb (fun x => match x with PStr s => String.eqb s key | _ => false end) l)
  | _ => Raise (Exn TypeError
                    ("argument of type '" ++ py_type_name v ++ "' is not iterable"))
  end.

(** [v[key]] for a string [key] *)
Definition py_getitem (v : pyval) (key : string) : result pyval :=
  match v with
  | PDict d =>
      match Dict.get key d with
      | Some x => Ok x
      | None => Raise (KeyError_of key)
      end
  | PStr _ => Raise (Exn TypeError "string indices must be integers, not 'str'")
  | PList _ => Raise (Exn TypeError "list indices must be integers or slices, not str")
  | _ => Raise (Exn TypeError
                    ("'" ++ py_type_name v ++ "' object is not subscriptable"))
  end.

(** [repr(l)], and [str(l)], for a list of strings. *)
Definition repr_str_list (l : list string) : string :=
  "[" ++ String.concat ", " (map repr_str l) ++ "]".

Definition parse_json_tool_call (json_blob : string) : result (pyval * pyval) :=
  (let json_blob := replace "```" EmptyString (replace "```json" EmptyString json_blob) in
   tool_call <- parse_json_blob json_blob ;;
   has_action <- py_in "action" tool_call ;;
   has_input <- (if has_action then py_in "action_input" tool_call else Ok false) ;;
   if has_action && has_input then
     a <- py_getitem tool_call "action" ;;
     i <- py_getitem tool_call "action_input" ;;
     Ok (a, i)
   else if has_action then
     a <- py_getitem tool_call "action" ;;
     Ok (a, PNone)
   else
     missing <- (in_input <- py_in "action_input" tool_call ;;
                 Ok ("action" :: (if in_input then [] else ["action_input"]))) ;;
     Raise (Exn ValueError
              ("Missing keys: " ++ repr_str_list missing ++ " in blob " ++ py_str tool_call)))%py.

Definition text_tool_call_error_msg (e_str : string) : string :=
  "Error in parsing the text tool call: " ++ e_str
  ++ ". Be sure to provide the correct format. DO NOT repeat your previous incorrect tool call.".

(** [tool_name, tool_input = pieces] *)
Definition unpack2 (pieces : list string) : result (string * string) :=
  match pieces with
  | [a; b] => Ok (a, b)
  | _ :: _ :: _ :: _ => Raise (Exn ValueError "too many values to unpack (expected 2)")
  | l => Raise (Exn ValueError
                  ("not enough values to unpack (expected 2, got "
                     ++ str_nat (List.length l) ++ ")"))
  end.

Definition parse_text_tool_call (text : string) : result (string * pyval) :=
  try_except
    (let text :=
       if contains "Observation:" text
       then hd EmptyString (split "Observation:" text)
       else text in
     let text :=
       if contains "Action:" text
       then nth 1 (split "Action:" text) EmptyString
       else text in
     ' (tool_name, tool_input) <- unpack2 (split "Action input:" text) ;;
     tool_input <-
       (if contains "{" tool_input
        then parse_json_blob tool_input
        else Ok (PStr (replace dq EmptyString (strip tool_input)))) ;;
     Ok (replace "\" EmptyString (replace dq EmptyString (strip tool_name)), tool_input))%py
    (fun e => Raise (Exn ValueError (text_tool_call_error_msg (exn_str e)))).

End Parsers.

(* ================================================================== *)
(** ** ToolRegistry *)

(** [tools.py]: the table of base tasks and their tool classes. *)
Definition TASK_MAPPING : list (string * string) :=
  [ ("document-question-answering", "DocumentQuestionAnsweringTool");
    ("image-question-answering", "ImageQuestionAnsweringTool");
    ("speech-to-text", "SpeechToTextTool");
    ("text-to-speech", "TextToSpeechTool");
    ("translation", "TranslationTool");
    ("python_interpreter", "PythonInterpreterTool") ].

(** The two module-level variables of [agent.py]. *)
Record Globals : Type := {
  HUGGINGFACE_DEFAULT_TOOLS : Dict.dict entry;
  _tools_are_initialized : bool
}.

Definition initial_globals : Globals :=
  {| HUGGINGFACE_DEFAULT_TOOLS := []; _tools_are_initialized := false |}.

Record Toolbox : Type := { _tools : Dict.dict entry }.

Section Registry.
Context {E : Env}.

(** [tools.py], [setup_default_tools]: one deferred reference per task
    of the table, under the name of its tool class ([tool_class.name]
    and [tool_instance.name] are one attribute). Nothing in [agent.py]
    calls this function: the one it calls takes the logger and comes
    from another module. *)
Definition setup_default_tools : Dict.dict entry :=
  fold_left
    (fun default_tools (kv : string * string) =>
       let (task_name, tool_class_name) := kv in
       let tool_instance := tool_class tool_class_name in
       Dict.set (tool_name tool_instance)
                (Deferred {| PreTool.name := tool_name tool_instance;
                             PreTool.inputs := tool_inputs tool_instance;
                             PreTool.output_type := tool_output_type tool_instance;
                             PreTool.task := task_name;
                             PreTool.description := tool_description tool_instance;
                             PreTool.repo_id := None |})
                default_tools)
    TASK_MAPPING [].

(** [Toolbox.add_tool] *)
Definition add_tool (self : Toolbox) (tool : entry) : Toolbox * result unit :=
  if Dict.mem (entry_name tool) (_tools self)
  then (self, Raise (KeyError_of
                       ("Error: tool '" ++ entry_name tool ++ "' already exists in the toolbox.")))
  else ({| _tools := Dict.set (entry_name tool) tool (_tools self) |}, Ok tt).

(** [Toolbox.remove_tool] *)
Definition remove_tool (self : Toolbox) (tool_name : string) : Toolbox * result unit :=
  if negb (Dict.mem tool_name (_tools self))
  then (self, Raise (KeyError_of
                       ("Error: tool " ++ tool_name
                          ++ " not found in toolbox for removal, should be instead one of "
                          ++ repr_str_list (Dict.keys (_tools self)) ++ ".")))
  else ({| _tools := Dict.del tool_name (_tools self) |}, Ok tt).

(** [Toolbox.update_tool] *)
Definition update_tool (self : Toolbox) (tool : entry) : Toolbox * result unit :=
  if negb (Dict.mem (entry_name tool) (_tools self))
  then (self, Raise (KeyError_of
                       ("Error: tool " ++ entry_name tool
                          ++ " not found in toolbox for update, should be instead one of "
                          ++ repr_str_list (Dict.keys (_tools self)) ++ ".")))
  else ({| _tools := Dict.set (entry_name tool) tool (_tools self) |}, Ok tt).

(** [Toolbox.clear_toolbox] *)
Definition clear_toolbox (self : Toolbox) : Toolbox := {| _tools := [] |}.

(** The loop of [_load_tools_if_needed] over the items still to visit;
    [tools] is the dictionary as written so far. *)
Fixpoint load_loop (items : list (string * entry)) (tools : Dict.dict entry)
  : Dict.dict entry * result unit :=
  match items with
  | [] => (tools, Ok tt)
  | (name, tool) :: rest =>
      match tool with
      | Concrete _ => load_loop rest tools
      | Deferred p =>
          let task_or_repo_id :=
            match PreTool.repo_id p with
            | None => PreTool.task p
            | Some r => r
            end in
          match load_tool task_or_repo_id with
          | Ok t => load_loop rest (Dict.set name (Concrete t) tools)
          | Raise e => (tools, Raise e)
          | RaiseBase b => (tools, RaiseBase b)
          end
      end
  end.

(** [Toolbox._load_tools_if_needed] *)
Definition _load_tools_if_needed (self : Toolbox) : Toolbox * result unit :=
  let (tools, r) := load_loop (_tools self) (_tools self) in
  ({| _tools := tools |}, r).

(** The loop of [add_base_tools] over the base tools still to add. *)
Fixpoint add_loop (add_python_interpreter : bool) (base : list entry) (self : Toolbox)
  : Toolbox * result unit :=
  match base with
  | [] => (self, Ok tt)
  | tool :: rest =>
      if negb (String.eqb (entry_name tool) "python_interpreter") || add_python_interpreter
      then match add_tool self tool with
           | (self', Ok _) => add_loop add_python_interpreter rest self'
           | (self', Raise e) => (self', Raise e)
           | (self', RaiseBase b) => (self', RaiseBase b)
           end
      else add_loop add_python_interpreter rest self
  end.

(** [Toolbox.add_base_tools], from its loop on: the globals are set. *)
Definition add_defaults (g : Globals) (self : Toolbox) (add_python_interpreter : bool)
  : Globals * Toolbox * result unit :=
  match add_loop add_python_interpreter (Dict.values (HUGGINGFACE_DEFAULT_TOOLS g)) self with
  | (self', Raise e) => (g, self', Raise e)
  | (self', RaiseBase b) => (g, self', RaiseBase b)
  | (self', Ok _) =>
      let (self'', r) := _load_tools_if_needed self' in
      (g, self'', r)
  end.

(** [Toolbox.add_base_tools]; the call [setup_default_tools(logger)] is
    the one of the imported function. *)
Definition add_base_tools (g : Globals) (self : Toolbox) (add_python_interpreter : bool)
  : Globals * Toolbox * result unit :=
  if negb (_tools_are_initialized g)
  then
    match imported_setup_default_tools with
    | Ok default_tools =>
        add_defaults {| HUGGINGFACE_DEFAULT_TOOLS := default_tools;
                        _tools_are_initialized := true |}
                     self add_python_interpreter
    | Raise e => (g, self, Raise e)
    | RaiseBase b => (g, self, RaiseBase b)
    end
  else add_defaults g self add_python_interpreter.

(** [Toolbox.__init__]; a constructor that raises gives no toolbox. *)
Definition Toolbox_init (g : Globals) (tools : list entry) (add_base : bool)
  : Globals * result Toolbox :=
  let self := {| _tools := Dict.of_pairs (map (fun tool => (entry_name tool, tool)) tools) |} in
  let '(g, self, r) :=
    if add_base then add_base_tools g self false else (g, self, Ok tt) in
  match r with
  | Raise e => (g, Raise e)
  | RaiseBase b => (g, RaiseBase b)
  | Ok _ =>
      match _load_tools_if_needed self with
      | (self', Ok _) => (g, Ok self')
      | (_, Raise e) => (g, Raise e)
      | (_, RaiseBase b) => (g, RaiseBase b)
      end
  end.

(** [Toolbox.show_tool_descriptions] *)
Definition show_tool_descriptions (self : Toolbox) (tool_description_template : string)
  : string :=
  String.concat nl
    (map (fun tool => get_tool_description_with_args tool tool_description_template)
         (Dict.values (_tools self))).

Definition format_prompt_with_tools (toolbox : Toolbox)
           (prompt_template tool_description_template : string) : string :=
  let tool_descriptions := show_tool_descriptions toolbox tool_description_template in
  let prompt := replace "<<tool_descriptions>>" tool_descriptions prompt_template in
  if contains "<<tool_names>>" prompt
  then
    let tool_names := map (fun n => "'" ++ n ++ "'") (Dict.keys (_tools toolbox)) in
    replace "<<tool_names>>" (String.concat ", " tool_names) prompt
  else prompt.

Definition format_prompt_with_imports (prompt_template : string)
           (authorized_imports : list string) : result string :=
  if negb (contains "<<authorized_imports>>" prompt_template)
  then Raise (Exn AgentError "Tag '<<authorized_imports>>' should be provided in the prompt.")
  else Ok (replace "<<authorized_imports>>" (str_authorized_imports authorized_imports)
                   prompt_template).

End Registry.

(* ================================================================== *)
(** ** Mutable dictionaries

    The shared state of a run and the arguments mapping of a tool call
    are objects that caller and callee both hold. They live in a heap
    and are passed by location. *)

Definition loc : Type := nat.
Definition heap : Type := list (Dict.dict pyval).

Definition heap_get (h : heap) (l : loc) : option (Dict.dict pyval) := nth_error h l.

Fixpoint heap_set (h : heap) (l : loc) (d : Dict.dict pyval) : heap :=
  match h, l with
  | [], _ => []
  | _ :: h', O => d :: h'
  | x :: h', S l' => x :: heap_set h' l' d
  end.

(** A new object holding [d]. *)
Definition heap_alloc (h : heap) (d : Dict.dict pyval) : heap * loc :=
  ((h ++ [d])%list, List.length h).

(** The values that are no string and have no [items] method: [None],
    a truth value, a number, a list. *)
Definition has_no_items (v : pyval) : bool :=
  match v with
  | PNone | PBool _ | PInt _ | PFloat _ | PList _ => true
  | PStr _ | PDict _ | PObj _ _ => false
  end.

(** The [arguments] of a tool call: a string, a mapping held by the
    caller, or a value that is no string and has no [items] method. *)
Inductive arguments_t : Type :=
| ArgStr (s : string)
| ArgDict (l : loc)
| ArgOther (v : pyval) (no_items : has_no_items v = true).

(* ================================================================== *)
(** ** Messages and the step log *)

Inductive MessageRole : Type := SYSTEM | USER | ASSISTANT | TOOL_RESPONSE.

Record message : Type := { role : MessageRole; content : string }.

(** One record of the step log: a dictionary, seen through the keys the
    transcript reads, each present or absent. *)
Record step_log : Type := {
  log_system_prompt : option string;
  log_task : option string;
  log_llm_output : option string;
  log_facts : option string;
  log_plan : option string;
  log_tool_call : option pyval;
  log_error : option exn;
  log_observation : option pyval
}.

Definition empty_log : step_log :=
  {| log_system_prompt := None; log_task := None; log_llm_output := None;
     log_facts := None; log_plan := None; log_tool_call := None;
     log_error := None; log_observation := None |}.

(* ================================================================== *)
(** ** AgentCore *)

Record Agent : Type := {
  agent_name : string;
  llm_engine : list message -> list string -> result string;
  system_prompt_template : string;
  tool_description_template : string;
  max_iterations : nat;
  toolbox : Toolbox;
  system_prompt : string;
  prompt : option (list message);
  logs : list step_log;
  task : option string;
  (** [self.state]; the attribute exists once a run has started *)
  state : option loc;
  token_count : Z;
  (** [CodeAgent]: the evaluator, called with the code, the static and
      the custom tools, the state and the authorized imports *)
  python_evaluator :
    string -> Dict.dict entry -> Dict.dict entry -> loc -> list string
    -> heap -> heap * result pyval;
  (** [CodeAgent]: [self.authorized_imports]; a plain [Agent] has no
      such attribute *)
  authorized_imports : option (list string)
}.

(** Assignments to the attributes of an agent. *)
Definition set_system_prompt (self : Agent) (v : string) : Agent :=
  {| agent_name := agent_name self; llm_engine := llm_engine self;
     system_prompt_template := system_prompt_template self;
     tool_description_template := tool_description_template self;
     max_iterations := max_iterations self; toolbox := toolbox self;
     system_prompt := v;
     prompt := prompt self; logs := logs self; task := task self;
     state := state self; token_count := token_count self;
     python_evaluator := python_evaluator self;
     authorized_imports := authorized_imports self |}.

Definition set_prompt (self : Agent) (v : option (list message)) : Agent :=
  {| agent_name := agent_name self; llm_engine := llm_engine self;
     system_prompt_template := system_prompt_template self;
     tool_description_template := tool_description_template self;
     max_iterations := max_iterations self; toolbox := toolbox self;
     system_prompt := system_prompt self;
     prompt := v;
     logs := logs self; task := task self;
     state := state self; token_count := token_count self;
     python_evaluator := python_evaluator self;
     authorized_imports := authorized_imports self |}.

Definition set_logs (self : Agent) (v : list step_log) : Agent :=
  {| agent_name := agent_name self; llm_engine := llm_engine self;
     system_prompt_template := system_prompt_template self;
     tool_description_template := tool_description_template self;
     max_iterations := max_iterations self; toolbox := toolbox self;
     system_prompt := system_prompt self; prompt := prompt self;
     logs := v;
     task := task self;
     state := state self; token_count := token_count self;
     python_evaluator := python_evaluator self;
     authorized_imports := authorized_imports self |}.

Definition set_task (self : Agent) (v : option string) : Agent :=
  {| agent_name := agent_name self; llm_engine := llm_engine self;
     system_prompt_template := system_prompt_template self;
     tool_description_template := tool_description_template self;
     max_iterations := max_iterations self; toolbox := toolbox self;
     system_prompt := system_prompt self; prompt := prompt self;
     logs := logs self;
     task := v;
     state := state self; token_count := token_count self;
     python_evaluator := python_evaluator self;
     authorized_imports := authorized_imports self |}.

Definition set_state (self : Agent) (v : option loc) : Agent :=
  {| agent_name := agent_name self; llm_engine := llm_engine self;
     system_prompt_template := system_prompt_template self;
     tool_description_template := tool_description_template self;
     max_iterations := max_iterations self; toolbox := toolbox self;
     system_prompt := system_prompt self; prompt := prompt self;
     logs := logs self; task := task self;
     state := v;
     token_count := token_count self;
     python_evaluator := python_evaluator self;
     authorized_imports := authorized_imports self |}.

Definition set_token_count (self : Agent) (v : Z) : Agent :=
  {| agent_name := agent_name self; llm_engine := llm_engine self;
     system_prompt_template := system_prompt_template self;
     tool_description_template := tool_description_template self;
     max_iterations := max_iterations self; toolbox := toolbox self;
     system_prompt := system_prompt self; prompt := prompt self;
     logs := logs self; task := task self; state := state self;
     token_count := v;
     python_evaluator := python_evaluator self;
     authorized_imports := authorized_imports self |}.

Section Core.
Context {E : Env}.

Definition retry_admonition : string :=
  nl ++ "Now let's retry: take care not to repeat previous errors! If you have retried several times, try a completely different approach." ++ nl.

(** The body of the loop of [write_inner_memory_from_logs] for the step
    of index [i]: each test appends to [memory] or leaves it. *)
Definition memory_step (summary_mode : bool) (i : nat) (step : step_log)
           (memory : list message) : list message :=
  let memory :=
    match log_llm_output step with
    | Some o =>
        if negb summary_mode
        then (memory ++ [{| role := ASSISTANT; content := strip o |}])%list
        else memory
    | None => memory
    end in
  let memory :=
    match log_facts step with
    | Some f =>
        (memory ++ [{| role := ASSISTANT;
                       content := "[FACTS LIST]:" ++ nl ++ strip f |}])%list
    | None => memory
    end in
  let memory :=
    match log_plan step with
    | Some p =>
        if negb summary_mode
        then (memory ++ [{| role := ASSISTANT; content := "[PLAN]:" ++ nl ++ strip p |}])%list
        else memory
    | None => memory
    end in
  let memory :=
    match log_tool_call step with
    | Some c =>
        if summary_mode
        then (memory ++ [{| role := ASSISTANT;
                            content := "[STEP " ++ str_nat i ++ " TOOL CALL]: "
                                         ++ strip (py_str c) |}])%list
        else memory
    | None => memory
    end in
  let memory :=
    match log_task step with
    | Some t =>
        (memory ++ [{| role := USER; content := "New task:" ++ nl ++ t |}])%list
    | None => memory
    end in
  match log_error step, log_observation step with
  | Some e, _ =>
      (memory ++ [{| role := TOOL_RESPONSE;
                     content := "[OUTPUT OF STEP " ++ str_nat i ++ "] Error: "
                                  ++ exn_str e ++ retry_admonition |}])%list
  | None, Some o =>
      (memory ++ [{| role := TOOL_RESPONSE;
                     content := "[OUTPUT OF STEP " ++ str_nat i ++ "] Observation:"
                                  ++ nl ++ py_str o |}])%list
  | None, None => memory
  end.

(** [for i, step_log in enumerate(steps)] *)
Fixpoint memory_loop (summary_mode : bool) (i : nat) (steps : list step_log)
         (memory : list message) : list message :=
  match steps with
  | [] => memory
  | step :: rest =>
      memory_loop summary_mode (S i) rest (memory_step summary_mode i step memory)
  end.

(** [d[key]] on a record of the log *)
Definition log_item {A : Type} (key : string) (field : option A) : result A :=
  match field with
  | Some a => Ok a
  | None => Raise (KeyError_of key)
  end.

(** [Agent.write_inner_memory_from_logs] *)
Definition write_inner_memory_from_logs (self : Agent) (summary_mode : bool)
  : result (list message) :=
  match logs self with
  | [] => Raise (Exn IndexError "list index out of range")
  | log0 :: steps =>
      (sp <- log_item "system_prompt" (log_system_prompt log0) ;;
       t <- log_item "task" (log_task log0) ;;
       let prompt_message := {| role := SYSTEM; content := sp |} in
       let task_message := {| role := USER; content := "Task: " ++ t |} in
       let memory :=
         if summary_mode then [task_message] else [prompt_message; task_message] in
       Ok (memory_loop summary_mode 0 steps memory))%py
  end.

(** [Agent.extract_action] *)
Definition extract_action (llm_output split_token : string) : result (string * string) :=
  match rev (split split_token llm_output) with
  | action :: rationale :: _ => Ok (rationale, action)
  | _ =>
      Raise (Exn AgentParsingError
               ("Error: No '" ++ split_token ++ "' token provided in your output." ++ nl
                  ++ "Your output:" ++ nl ++ llm_output ++ nl
                  ++ ". Be sure to include an action, prefaced with '" ++ split_token ++ "'!"))
  end.

(** The loop of [execute_tool_call] over the keys of the arguments
    mapping at [args]: the value under [key] is read from the mapping
    as it stands, looked up in the state as it stands, and written
    back under [key]. Locations handed to the core are live, so the
    branches for a missing object are never taken. *)
Fixpoint deref_loop (self : Agent) (keys : list string) (args : loc) (h : heap)
  : heap * result unit :=
  match keys with
  | [] => (h, Ok tt)
  | key :: rest =>
      match heap_get h args with
      | None => (h, Ok tt)
      | Some arguments =>
          match Dict.get key arguments with
          | Some (PStr value) =>
              match state self with
              | None =>
                  (h, Raise (Exn AttributeError
                               ("'" ++ agent_name self
                                    ++ "' object has no attribute 'state'")))
              | Some sl =>
                  match heap_get h sl with
                  | None => (h, Ok tt)
                  | Some state_dict =>
                      match Dict.get value state_dict with
                      | Some stored =>
                          deref_loop self rest args
                                     (heap_set h args (Dict.set key stored arguments))
                      | None => deref_loop self rest args h
                      end
                  end
              end
          | _ => deref_loop self rest args h
          end
      end
  end.

(** [tool(...)] on an entry of the registry; a deferred reference is
    not callable. *)
Definition call_entry (e : entry) (a : call_args) : result pyval :=
  match e with
  | Concrete t => tool_call t a
  | Deferred _ => Raise (Exn TypeError "'PreTool' object is not callable")
  end.

Definition execution_error_msg (e_str : string) (tool_description : string) : string :=
  "Error in tool call execution: " ++ e_str ++ nl
  ++ "You should only use this tool with a correct input." ++ nl
  ++ "As a reminder, this tool's description is the following:" ++ nl
  ++ tool_description.

(** The [try] block of [execute_tool_call]. *)
Definition execute_tool_call_body (self : Agent) (tool : entry)
           (arguments : arguments_t) (h : heap) : heap * result pyval :=
  match arguments with
  | ArgStr s => (h, call_entry tool (Positional (PStr s)))
  | ArgOther v _ =>
      (h, Raise (Exn AttributeError
                   ("'" ++ py_type_name v ++ "' object has no attribute 'items'")))
  | ArgDict l =>
      match heap_get h l with
      | None => (h, Raise (Exn AttributeError "object has no attribute 'items'"))
      | Some d =>
          match deref_loop self (Dict.keys d) l h with
          | (h', Raise e) => (h', Raise e)
          | (h', RaiseBase b) => (h', RaiseBase b)
          | (h', Ok _) =>
              match heap_get h' l with
              | Some d' => (h', call_entry tool (Keywords d'))
              | None => (h', Raise (Exn AttributeError "object has no attribute 'items'"))
              end
          end
      end
  end.

(** [Agent.execute_tool_call] *)
Definition execute_tool_call (self : Agent) (tool_name : string)
           (arguments : arguments_t) (h : heap) : heap * result pyval :=
  match Dict.get tool_name (_tools (toolbox self)) with
  | None =>
      (h, Raise (Exn AgentExecutionError
                   ("Error: unknown tool " ++ tool_name ++ ", should be instead one of "
                      ++ repr_str_list (Dict.keys (_tools (toolbox self))) ++ ".")))
  | Some tool =>
      match execute_tool_call_body self tool arguments h with
      | (h', Ok observation) => (h', Ok observation)
      | (h', Raise e) =>
          (* except Exception *)
          (h', Raise (Exn AgentExecutionError
                        (execution_error_msg
                           (exn_str e)
                           (get_tool_description_with_args
                              tool DEFAULT_TOOL_DESCRIPTION_TEMPLATE))))
      | (h', RaiseBase b) => (h', RaiseBase b)
      end
  end.

(** [Agent.initialize_for_run] *)
Definition initialize_for_run (self : Agent) : Agent * result unit :=
  let self := set_token_count self 0 in
  let self :=
    set_system_prompt self
      (format_prompt_with_tools (toolbox self) (system_prompt_template self)
                                (tool_description_template self)) in
  let initial_log (self : Agent) : step_log :=
    {| log_system_prompt := Some (system_prompt self); log_task := task self;
       log_llm_output := None; log_facts := None; log_plan := None;
       log_tool_call := None; log_error := None; log_observation := None |} in
  match authorized_imports self with
  | None => (set_logs self [initial_log self], Ok tt)
  | Some imports =>
      match format_prompt_with_imports (system_prompt self) imports with
      | Raise e => (self, Raise e)
      | RaiseBase b => (self, RaiseBase b)
      | Ok sp =>
          let self := set_system_prompt self sp in
          (set_logs self [initial_log self], Ok tt)
      end
  end.

(** [CodeAgent.run], from its start to the answer of the model engine:
    the task, the fresh state, the step log, the prompt, the call. *)
Definition run_llm (self : Agent) (task_text : string) (kwargs : Dict.dict pyval)
           (h : heap) : Agent * heap * result string :=
  let task_text :=
    match kwargs with
    | [] => task_text
    | _ => task_text ++ nl ++ "You have been provided with these initial arguments: "
                     ++ py_str (PDict kwargs) ++ "."
    end in
  let self := set_task self (Some task_text) in
  let (h, l) := heap_alloc h kwargs in
  let self := set_state self (Some l) in
  match initialize_for_run self with
  | (self, Raise e) => (self, h, Raise e)
  | (self, RaiseBase b) => (self, h, RaiseBase b)
  | (self, Ok _) =>
      let prompt_message := {| role := SYSTEM; content := system_prompt self |} in
      let task_message := {| role := USER; content := "Task: " ++ task_text |} in
      let self := set_prompt self (Some [prompt_message; task_message]) in
      (self, h, llm_engine self [prompt_message; task_message] ["<end_action>"])
  end.

(** The action payload, after the first [try] block of [run]: the text
    after the last [Code:] marker, or the whole output when
    [extract_action] raises. [extract_action] calls no code of the
    caller: what it raises is its [AgentParsingError], which the clause
    [except Exception] catches, and it has no third outcome. *)
Definition code_action_of (llm_output : string) : string :=
  match extract_action llm_output "Code:" with
  | Ok (_, code_action) => code_action
  | Raise _ => llm_output
  | RaiseBase _ => llm_output
  end.

(** The second [try] block of [run], around the evaluator. *)
Definition run_execute (self : Agent) (code_action : string) (h : heap)
  : heap * result pyval :=
  let available_tools := Dict.merge BASE_PYTHON_TOOLS (_tools (toolbox self)) in
  match state self, authorized_imports self with
  | Some l, Some imports =>
      match python_evaluator self code_action available_tools [] l imports h with
      | (h', Raise e) => (h', Raise e)
      | (h', RaiseBase b) => (h', RaiseBase b)
      | (h', Ok output) =>
          match heap_get h' l with
          | Some st =>
              match Dict.get "print_outputs" st with
              | Some _ => (h', Ok output)
              | None => (h', Raise (KeyError_of "print_outputs"))
              end
          | None => (h', Raise (KeyError_of "print_outputs"))
          end
      end
  | None, _ =>
      (h, Raise (Exn AttributeError
                   ("'" ++ agent_name self ++ "' object has no attribute 'state'")))
  | _, None =>
      (h, Raise (Exn AttributeError
                   ("'" ++ agent_name self
                        ++ "' object has no attribute 'authorized_imports'")))
  end.

(** [CodeAgent.run], from the answer of the model engine to the value
    returned: extraction, parsing, execution. *)
Definition run_parse_execute (self : Agent) (llm_output : string) (h : heap)
  : heap * result pyval :=
  let code_action := code_action_of llm_output in
  match parse_code_blob code_action with
  | Raise e =>
      (* except Exception *)
      (h, Ok (PStr ("Error in code parsing: " ++ exn_str e
                      ++ ". Be sure to provide correct code")))
  | RaiseBase b => (h, RaiseBase b)
  | Ok code_action =>
      match run_execute self code_action h with
      | (h', Ok output) => (h', Ok output)
      | (h', Raise e) =>
          (* except Exception *)
          (h', Ok (PStr ("Error in execution: " ++ exn_str e
                           ++ ". Be sure to provide correct code.")))
      | (h', RaiseBase b) => (h', RaiseBase b)
      end
  end.

(** [CodeAgent.run] *)
Definition run (self : Agent) (task_text : string) (return_generated_code : bool)
           (kwargs : Dict.dict pyval) (h : heap) : Agent * heap * result pyval :=
  match run_llm self task_text kwargs h with
  | (self, h, Raise e) => (self, h, Raise e)
  | (self, h, RaiseBase b) => (self, h, RaiseBase b)
  | (self, h, Ok llm_output) =>
      if return_generated_code then (self, h, Ok (PStr llm_output))
      else
        let (h', r) := run_parse_execute self llm_output h in
        (self, h', r)
  end.

End Core.

(* ================================================================== *)
(** ** More of [agent.py]: text of messages, listings, the constructor *)

(** [[m["content"] for m in input]] *)
Fixpoint contents_of (input : list pyval) : result (list pyval) :=
  match input with
  | [] => Ok []
  | m :: rest =>
      (c <- py_getitem m "content" ;;
       cs <- contents_of rest ;;
       Ok (c :: cs))%py
  end.

(** The items of [sep.join(items)], each of which must be a string;
    [i] is the index of the first item. *)
Fixpoint join_items (i : nat) (items : list pyval) : result (list string) :=
  match items with
  | [] => Ok []
  | PStr s :: rest => (ss <- join_items (S i) rest ;; Ok (s :: ss))%py
  | v :: _ =>
      Raise (Exn TypeError
               ("sequence item " ++ str_nat i ++ ": expected str instance, "
                  ++ py_type_name v ++ " found"))
  end.

(** [sep.join(items)] *)
Definition str_join (sep : string) (items : list pyval) : result string :=
  (ss <- join_items 0 items ;; Ok (String.concat sep ss))%py.

(** [to_text] *)
Definition to_text (input : pyval) : result pyval :=
  match input with
  | PList ms =>
      (cs <- contents_of ms ;;
       s <- str_join nl cs ;;
       Ok (PStr s))%py
  | PDict _ => py_getitem input "content"
  | _ => Ok input
  end.

(** [Agent.get_succinct_logs], on the records of [self.logs] as the
    dictionaries they are. *)
Definition get_succinct_logs (logs : list (Dict.dict pyval)) : list (Dict.dict pyval) :=
  map (fun log =>
         Dict.of_pairs
           (filter (fun kv => negb (String.eqb (fst kv) "agent_memory")) log))
      logs.

Definition tab : string := String "009" EmptyString.

(** [Toolbox.__repr__] *)
Definition Toolbox_repr (self : Toolbox) : string :=
  fold_left
    (fun toolbox_description tool =>
       toolbox_description ++ tab ++ entry_name tool ++ ": "
                           ++ entry_description tool ++ nl)
    (Dict.values (_tools self))
    ("Toolbox contents:" ++ nl).

(** The [tools] argument of the constructor of an agent: a list of
    tools, or a [Toolbox] object that the caller holds too. *)
Inductive tools_arg : Type :=
| ToolList (tools : list entry)
| ToolboxObject (tb : Toolbox).

Section Constructor.
Context {E : Env}.

(** [is_torch_available()] and [FinalAnswerTool()], from the library. *)
Variable is_torch_available : bool.
Variable FinalAnswerTool : Tool.

(** What the module binds the name [ReactJsonAgent] to: a class, known
    by its name, or nothing. [agent.py] as it stands neither defines nor
    imports the name. *)
Variable ReactJsonAgent : option string.

(** A plain [Agent] has no attribute [python_evaluator]. *)
Definition no_python_evaluator (cls : string)
           (code : string) (static_tools custom_tools : Dict.dict entry)
           (st : loc) (imports : list string) (h : heap) : heap * result pyval :=
  (h, Raise (Exn AttributeError
               ("'" ++ cls ++ "' object has no attribute 'python_evaluator'"))).

(** [Agent.__init__], from [self._toolbox.add_tool(FinalAnswerTool())]
    on. [shared] tells whether the toolbox is the caller's object. *)
Definition Agent_init_finish (cls : string) (g : Globals) (shared : bool) (tb : Toolbox)
           (llm_engine : list message -> list string -> result string)
           (system_prompt tool_description_template : string) (max_iterations : nat)
  : Globals * option Toolbox * result Agent :=
  match add_tool tb (Concrete FinalAnswerTool) with
  | (tb', Raise e) => (g, if shared then Some tb' else None, Raise e)
  | (tb', RaiseBase b) => (g, if shared then Some tb' else None, RaiseBase b)
  | (tb', Ok _) =>
      (g, if shared then Some tb' else None,
       Ok {| agent_name := cls;
             llm_engine := llm_engine;
             system_prompt_template := system_prompt;
             tool_description_template := tool_description_template;
             max_iterations := max_iterations;
             toolbox := tb';
             system_prompt :=
               format_prompt_with_tools tb' system_prompt tool_description_template;
             prompt := None;
             logs := [];
             task := None;
             state := None;
             token_count := 0;
             python_evaluator := no_python_evaluator cls;
             authorized_imports := None |})
  end.

(** [Agent.__init__] for an agent of class [cls]. Beside the globals it
    gives the caller's [Toolbox] object as the constructor leaves it,
    when [tools] is one, and the agent, unless the constructor raises.
    The attributes that nothing in the module reads ([additional_args],
    [tool_parser], [memory_verbose]) and the level of the logger are
    left out. *)
Definition Agent_init (cls : string) (g : Globals) (tools : tools_arg)
           (llm_engine : list message -> list string -> result string)
           (system_prompt : string) (tool_description_template : option string)
           (max_iterations : nat) (add_base_tools_flag : bool)
  : Globals * option Toolbox * result Agent :=
  let tool_description_template :=
    match tool_description_template with
    | Some t => if String.eqb t EmptyString then DEFAULT_TOOL_DESCRIPTION_TEMPLATE else t
    | None => DEFAULT_TOOL_DESCRIPTION_TEMPLATE
    end in
  match tools with
  | ToolboxObject tb =>
      if add_base_tools_flag then
        if negb is_torch_available
        then (g, Some tb,
              Raise (Exn ImportError "Using the base tools requires torch to be installed."))
        else
          match ReactJsonAgent with
          | None =>
              (g, Some tb,
               Raise (Exn (OtherException "NameError")
                          "name 'ReactJsonAgent' is not defined"))
          | Some react_json =>
              match add_base_tools g tb (String.eqb cls react_json) with
              | (g', tb', Raise e) => (g', Some tb', Raise e)
              | (g', tb', RaiseBase b) => (g', Some tb', RaiseBase b)
              | (g', tb', Ok _) =>
                  Agent_init_finish cls g' true tb' llm_engine system_prompt
                                    tool_description_template max_iterations
              end
          end
      else Agent_init_finish cls g true tb llm_engine system_prompt
                             tool_description_template max_iterations
  | ToolList l =>
      match Toolbox_init g l add_base_tools_flag with
      | (g', Raise e) => (g', None, Raise e)
      | (g', RaiseBase b) => (g', None, RaiseBase b)
      | (g', Ok tb) =>
          Agent_init_finish cls g' false tb llm_engine system_prompt
                            tool_description_template max_iterations
      end
  end.

End Constructor.


(* ================================================================== *)
(** ** Vocabulary of the statements *)

(** The character [c] does not occur in [s]. *)
Fixpoint no_char (c : ascii) (s : string) : bool :=
  match s with
  | EmptyString => true
  | String d s' => negb (Ascii.eqb d c) && no_char c s'
  end.

(** No non-empty proper suffix of [t] is a prefix of [sep]. *)
Fixpoint suffixes_clear (sep t : string) : bool :=
  match t with
  | EmptyString => true
  | String _ t' =>
      match t' with
      | EmptyString => true
      | String _ _ => negb (prefix t' sep) && suffixes_clear sep t'
      end
  end.

(** A marker that cannot overlap a copy of itself. *)
Definition unbordered (sep : string) : bool :=
  match sep with
  | EmptyString => false
  | String _ _ => suffixes_clear sep sep
  end.

(** The value an argument stands for, given the content of the state. *)
Definition deref_value (st : Dict.dict pyval) (v : pyval) : pyval :=
  match v with
  | PStr s =>
      match Dict.get s st with
      | Some stored => stored
      | None => v
      end
  | _ => v
  end.

(** The arguments mapping with every value dereferenced. *)
Definition deref_args (st d : Dict.dict pyval) : Dict.dict pyval :=
  map (fun kv => (fst kv, deref_value st (snd kv))) d.

(** Every entry of the registry is a concrete [Tool]. *)
Definition all_concrete (tb : Toolbox) : bool :=
  forallb isinstance_Tool (Dict.values (_tools tb)).

(** The last tool of [ts] that bears the name [n]. *)
Definition last_named (n : string) (ts : list Tool) : option Tool :=
  List.find (fun t => String.eqb (tool_name t) n) (rev ts).

(** The names of [l], each at the place where it occurs first. *)
Fixpoint first_occurrences (l : list string) : list string :=
  match l with
  | [] => []
  | x :: l' => x :: filter (fun y => negb (String.eqb y x)) (first_occurrences l')
  end.

(** The pairs the constructor of a [Toolbox] makes of a list of tools. *)
Definition named_entries (ts : list Tool) : list (string * entry) :=
  map (fun tool => (entry_name tool, tool)) (map Concrete ts).

(** A step record without its raw model output and plan. *)
Definition without_llm_output_and_plan (s : step_log) : step_log :=
  {| log_system_prompt := log_system_prompt s; log_task := log_task s;
     log_llm_output := None; log_facts := log_facts s; log_plan := None;
     log_tool_call := log_tool_call s; log_error := log_error s;
     log_observation := log_observation s |}.

(** A step record without its tool call. *)
Definition without_tool_call (s : step_log) : step_log :=
  {| log_system_prompt := log_system_prompt s; log_task := log_task s;
     log_llm_output := log_llm_output s; log_facts := log_facts s;
     log_plan := log_plan s;
     log_tool_call := None; log_error := log_error s;
     log_observation := log_observation s |}.

(** The identifier the loader is asked for: the repository when the
    reference names one, the task otherwise. *)
Definition task_or_repo_id (p : PreTool.t) : string :=
  match PreTool.repo_id p with
  | None => PreTool.task p
  | Some r => r
  end.

(** A step record that holds an error or an observation. *)
Definition has_response (s : step_log) : bool :=
  match log_error s, log_observation s with
  | None, None => false
  | _, _ => true
  end.

Definition is_tool_response (m : message) : bool :=
  match role m with TOOL_RESPONSE => true | _ => false end.

(** The test of the loop of [add_base_tools]. *)
Definition selected_default (add_python_interpreter : bool) (tool : entry) : bool :=
  negb (String.eqb (entry_name tool) "python_interpreter") || add_python_interpreter.

(** The pair [setup_default_tools] stores for one line of the table. *)
Definition default_pair {E : Env} (kv : string * string) : string * entry :=
  let tool_instance := tool_class (snd kv) in
  (tool_name tool_instance,
   Deferred {| PreTool.name := tool_name tool_instance;
               PreTool.inputs := tool_inputs tool_instance;
               PreTool.output_type := tool_output_type tool_instance;
               PreTool.task := fst kv;
               PreTool.description := tool_description tool_instance;
               PreTool.repo_id := None |}).

(* ================================================================== *)
(** ** Sample surroundings for the worked inputs *)

Definition sample_tool (n : string) : Tool :=
  {| tool_name := n;
     tool_description := "A sample tool.";
     tool_inputs := [];
     tool_output_type := "text";
     tool_call := fun _ => Ok PNone |}.

(** The tool a class of the base table instantiates, by its name. *)
Definition sample_tool_class (tool_class_name : string) : Tool :=
  sample_tool
    (if String.eqb tool_class_name "DocumentQuestionAnsweringTool" then "document_qa"
     else if String.eqb tool_class_name "ImageQuestionAnsweringTool" then "image_qa"
     else if String.eqb tool_class_name "SpeechToTextTool" then "transcriber"
     else if String.eqb tool_class_name "TextToSpeechTool" then "text_reader"
     else if String.eqb tool_class_name "TranslationTool" then "translator"
     else if String.eqb tool_class_name "PythonInterpreterTool" then "python_interpreter"
     else tool_class_name).

(** The reference decoder, and simple stand-ins for the other
    collaborators; [defaults] is what the imported
    [setup_default_tools] gives. *)
Definition sample_env_with (defaults : result (Dict.dict entry)) : Env :=
  {| json_loads := RefJson.loads;
     py_str := fun v => match v with PStr s => s | _ => "<value>" end;
     load_tool := fun id => Ok (sample_tool id);
     tool_class := sample_tool_class;
     imported_setup_default_tools := defaults;
     get_tool_description_with_args :=
       fun e _ => "- " ++ entry_name e ++ ": " ++ entry_description e;
     DEFAULT_TOOL_DESCRIPTION_TEMPLATE := "- <<tool_name>>: <<tool_description>>";
     BASE_PYTHON_TOOLS := [];
     str_authorized_imports := repr_str_list |}.

(** Surroundings in which the imported [setup_default_tools] gives the
    references that the function of [tools.py] makes. *)
Definition sample_env : Env :=
  sample_env_with (Ok (@setup_default_tools (sample_env_with (Ok [])))).

(** An evaluator that answers with the code it was given and records
    an empty printout in the state. *)
Definition echo_evaluator
           (code : string) (static_tools custom_tools : Dict.dict entry)
           (st : loc) (imports : list string) (h : heap) : heap * result pyval :=
  match heap_get h st with
  | Some d => (heap_set h st (Dict.set "print_outputs" (PStr EmptyString) d), Ok (PStr code))
  | None => (h, Ok (PStr code))
  end.

(** An evaluator on which every run of code fails. *)
Definition failing_evaluator
           (code : string) (static_tools custom_tools : Dict.dict entry)
           (st : loc) (imports : list string) (h : heap) : heap * result pyval :=
  (h, Raise (Exn (OtherException "InterpreterError") "Name 'x' is not defined")).

(** An engine that cannot reach its model. *)
Definition failing_engine (prompt : list message) (stop_sequences : list string)
  : result string :=
  Raise (Exn (OtherException "ConnectionError") "the model endpoint is unreachable").

(** A code agent as its constructor leaves it, around a given engine
    and evaluator. *)
Definition sample_agent
           (engine : list message -> list string -> result string)
           (evaluator : string -> Dict.dict entry -> Dict.dict entry -> loc
                        -> list string -> heap -> heap * result pyval)
           (tools : Dict.dict entry) : Agent :=
  {| agent_name := "CodeAgent";
     llm_engine := engine;
     system_prompt_template :=
       "Tools: <<tool_descriptions>>. Imports: <<authorized_imports>>.";
     tool_description_template := "- <<tool_name>>: <<tool_description>>";
     max_iterations := 6;
     toolbox := {| _tools := tools |};
     system_prompt := EmptyString;
     prompt := None;
     logs := [];
     task := None;
     state := None;
     token_count := 0;
     python_evaluator := evaluator;
     authorized_imports := Some ["math"] |}.

(** A step log: the initial record, a step with raw output, plan and
    tool call, and a step with an observation. *)
Definition sample_logs : list step_log :=
  [ {| log_system_prompt := Some "You are an agent."; log_task := Some "Count the files.";
       log_llm_output := None; log_facts := None; log_plan := None;
       log_tool_call := None; log_error := None; log_observation := None |};
    {| log_system_prompt := None; log_task := None;
       log_llm_output := Some " I will list the directory. ";
       log_facts := None; log_plan := Some "1. list 2. count";
       log_tool_call := Some (PStr "ls"); log_error := None; log_observation := None |};
    {| log_system_prompt := None; log_task := None;
       log_llm_output := None; log_facts := None; log_plan := None;
       log_tool_call := Some (PStr "wc"); log_error := None;
       log_observation := Some (PStr "3") |} ].

(** A deferred reference to the translation tool, and two concrete
    tools that bear one name. *)
Definition sample_pretool : PreTool.t :=
  {| PreTool.name := "translator";
     PreTool.inputs := [("text", "text")];
     PreTool.output_type := "text";
     PreTool.task := "translation";
     PreTool.description := "Translates a text.";
     PreTool.repo_id := None |}.

Definition first_search : Tool :=
  {| tool_name := "search"; tool_description := "Searches the web.";
     tool_inputs := [("query", "text")]; tool_output_type := "text";
     tool_call := fun _ => Ok (PStr "web") |}.

Definition second_search : Tool :=
  {| tool_name := "search"; tool_description := "Searches the files.";
     tool_inputs := [("query", "text")]; tool_output_type := "text";
     tool_call := fun _ => Ok (PStr "files") |}.

(** A tool that answers with the value it receives under [path]. *)
Definition path_tool : Tool :=
  {| tool_name := "image_loader"; tool_description := "Loads an image.";
     tool_inputs := [("path", "image")]; tool_output_type := "image";
     tool_call :=
       fun a =>
         match a with
         | Keywords kwargs =>
             match Dict.get "path" kwargs with
             | Some v => Ok v
             | None => Raise (Exn TypeError "missing 1 required argument: 'path'")
             end
         | Positional v => Ok v
         end |}.

(** A tool whose call always fails. *)
Definition broken_tool : Tool :=
  {| tool_name := "broken"; tool_description := "Always fails.";
     tool_inputs := []; tool_output_type := "text";
     tool_call := fun _ => Raise (Exn (OtherException "ZeroDivisionError") "division by zero") |}.

(** A tool whose call ends the interpreter, as [sys.exit] does. *)
Definition exiting_tool : Tool :=
  {| tool_name := "quit"; tool_description := "Ends the session.";
     tool_inputs := []; tool_output_type := "text";
     tool_call := fun _ => RaiseBase (BaseExn SystemExit "0") |}.

(** An agent in a run, with two tools; its state is the object at
    location 0. *)
Definition running_agent : Agent :=
  set_state
    (sample_agent failing_engine echo_evaluator
                  [("image_loader", Concrete path_tool); ("broken", Concrete broken_tool)])
    (Some 0).

(** An agent in a run whose one tool ends the interpreter. *)
Definition quitting_agent : Agent :=
  set_state
    (sample_agent failing_engine echo_evaluator [("quit", Concrete exiting_tool)])
    (Some 0).

(** An evaluator that is interrupted from the keyboard. *)
Definition interrupted_evaluator
           (code : string) (static_tools custom_tools : Dict.dict entry)
           (st : loc) (imports : list string) (h : heap) : heap * result pyval :=
  (h, RaiseBase (BaseExn KeyboardInterrupt EmptyString)).

(** A heap with the state of the run at location 0 and an arguments
    mapping at location 1. *)
Definition sample_heap : heap :=
  [ [("img", PObj "AgentImage" 7)]; [("path", PStr "img")] ].

(** A code agent whose prompt template lacks the placeholder of the
    imports. *)
Definition untagged_agent : Agent :=
  {| agent_name := "CodeAgent";
     llm_engine := fun _ _ => Ok "Code: none";
     system_prompt_template := "Tools: <<tool_descriptions>>.";
     tool_description_template := EmptyString;
     max_iterations := 6;
     toolbox := {| _tools := [] |};
     system_prompt := EmptyString;
     prompt := None;
     logs := [];
     task := None;
     state := None;
     token_count := 0;
     python_evaluator := echo_evaluator;
     authorized_imports := Some ["math"] |}.

(** An evaluator that answers 4 and records no printout. *)
Definition silent_evaluator
           (code : string) (static_tools custom_tools : Dict.dict entry)
           (st : loc) (imports : list string) (h : heap) : heap * result pyval :=
  (h, Ok (PInt 4)).

(** A step record with raw output, an error and an observation. *)
Definition failed_step : step_log :=
  {| log_system_prompt := None; log_task := None;
     log_llm_output := Some "done"; log_facts := None;
     log_plan := None; log_tool_call := None;
     log_error := Some (Exn ValueError "bad");
     log_observation := Some (PStr "3") |}.

(** Case analysis on the keys a step record holds. *)
Ltac split_fields s :=
  destruct s as [f_sp f_task f_out f_facts f_plan f_call f_err f_obs];
  destruct f_out, f_facts, f_plan, f_call, f_task, f_err, f_obs.

(* ================================================================== *)
(** ** Facts about strings *)

Section StringFacts.

Lemma append_nil_r (s : string) : s ++ EmptyString = s.
Proof. induction s; simpl; congruence. Qed.

Lemma append_assoc (a b c : string) : (a ++ b) ++ c = a ++ b ++ c.
Proof. induction a; simpl; congruence. Qed.

Lemma length_append (a b : string) :
  String.length (a ++ b) = String.length a + String.length b.
Proof. induction a; simpl; congruence. Qed.

Lemma prefix_nil (s : string) : prefix EmptyString s = true.
Proof. destruct s; reflexivity. Qed.

Lemma prefix_cons (c d : ascii) (p s : string) :
  prefix (String c p) (String d s) = (Ascii.eqb c d && prefix p s)%bool.
Proof.
  simpl. destruct (ascii_dec c d) as [->|Hne].
  - rewrite Ascii.eqb_refl. reflexivity.
  - apply Ascii.eqb_neq in Hne. rewrite Hne. reflexivity.
Qed.

Lemma prefix_app (p s : string) : prefix p (p ++ s) = true.
Proof.
  induction p as [|c p IH]; simpl.
  - apply prefix_nil.
  - destruct (ascii_dec c c); [assumption | congruence].
Qed.

Lemma prefix_refl (s : string) : prefix s s = true.
Proof. rewrite <- (append_nil_r s) at 2. apply prefix_app. Qed.

Lemma prefix_length (p s : string) :
  prefix p s = true -> String.length p <= String.length s.
Proof.
  revert s. induction p as [|c p IH]; intros s H; simpl; [lia|].
  destruct s as [|d s]; [discriminate|].
  rewrite prefix_cons in H. apply andb_true_iff in H as [_ H].
  apply IH in H. simpl. lia.
Qed.

Lemma prefix_inv (p s : string) :
  prefix p s = true -> exists r, s = p ++ r.
Proof.
  revert s. induction p as [|c p IH]; intros s H.
  - exists s. reflexivity.
  - destruct s as [|d s]; [discriminate|].
    rewrite prefix_cons in H. apply andb_true_iff in H as [Hc H].
    apply Ascii.eqb_eq in Hc. subst d.
    destruct (IH _ H) as [r ->]. exists r. reflexivity.
Qed.

Lemma prefix_app_l (p a b : string) :
  prefix p a = true -> prefix p (a ++ b) = true.
Proof.
  intros H. destruct (prefix_inv _ _ H) as [r ->].
  rewrite append_assoc. apply prefix_app.
Qed.

Lemma prefix_trans (p q s : string) :
  prefix p q = true -> prefix q s = true -> prefix p s = true.
Proof.
  intros H1 H2. destruct (prefix_inv _ _ H2) as [r ->].
  apply prefix_app_l. assumption.
Qed.

(** A prefix of [x ++ y] lies within [x] or runs over all of [x]. *)
Lemma prefix_split (p x y : string) :
  prefix p (x ++ y) = true ->
  prefix p x = true \/ exists p2, p = x ++ p2 /\ prefix p2 y = true.
Proof.
  revert p. induction x as [|c x IH]; intros p H.
  - right. exists p. split; [reflexivity | assumption].
  - destruct p as [|d p]; [left; reflexivity|].
    simpl append in H. rewrite prefix_cons in H.
    apply andb_true_iff in H as [Hc H].
    apply Ascii.eqb_eq in Hc. subst d.
    destruct (IH _ H) as [Hp | [p2 [-> Hp2]]].
    + left. rewrite prefix_cons, Ascii.eqb_refl. assumption.
    + right. exists p2. split; [reflexivity | assumption].
Qed.

Lemma prefix_app_short (p s b : string) :
  prefix p (s ++ b) = true -> String.length p <= String.length s ->
  prefix p s = true.
Proof.
  intros H Hlen. destruct (prefix_split _ _ _ H) as [Hp | [p2 [-> Hp2]]].
  - assumption.
  - rewrite length_append in Hlen.
    destruct p2; [|simpl in Hlen; lia].
    rewrite append_nil_r. rewrite <- (append_nil_r s) at 2. apply prefix_app.
Qed.

Lemma take_app (a b : string) : take (String.length a) (a ++ b) = a.
Proof. induction a; simpl; [destruct b; reflexivity | congruence]. Qed.

Lemma drop_app (a b : string) : drop (String.length a) (a ++ b) = b.
Proof. induction a; simpl; auto. Qed.

Lemma drop_add (n m : nat) (s : string) : drop (n + m) s = drop m (drop n s).
Proof.
  revert s. induction n as [|n IH]; intros s; simpl; [reflexivity|].
  destruct s; [destruct m; reflexivity | apply IH].
Qed.

Lemma drop_nil (n : nat) : drop n EmptyString = EmptyString.
Proof. destruct n; reflexivity. Qed.

Lemma take_all (s : string) : take (String.length s) s = s.
Proof. induction s; simpl; congruence. Qed.

Lemma find_none_iff_contains (sub s : string) :
  contains sub s = false <-> find sub s = None.
Proof. unfold contains. destruct (find sub s); split; congruence. Qed.

Lemma find_some_contains (sub s : string) (i : nat) :
  find sub s = Some i -> contains sub s = true.
Proof. unfold contains. intros ->. reflexivity. Qed.

Lemma find_cons_none (sub : string) (c : ascii) (s : string) :
  find sub (String c s) = None ->
  prefix sub (String c s) = false /\ find sub s = None.
Proof.
  cbn [find]. destruct (prefix sub (String c s)); [discriminate|].
  destruct (find sub s); [discriminate|]. auto.
Qed.

Lemma find_none_app_l (sub a b : string) :
  find sub (a ++ b) = None -> find sub a = None.
Proof.
  induction a as [|c a IH]; intros H.
  - cbn [find]. destruct (prefix sub EmptyString) eqn:Hp; [|reflexivity].
    cbn [append] in H. destruct sub; [|discriminate].
    destruct b; discriminate.
  - cbn [append] in H. apply find_cons_none in H as [Hp Hf].
    cbn [find]. destruct (prefix sub (String c a)) eqn:Hq.
    + apply (prefix_app_l _ _ b) in Hq. cbn [append] in Hq. congruence.
    + rewrite (IH Hf). reflexivity.
Qed.

Lemma find_none_app_r (sub a b : string) :
  find sub (a ++ b) = None -> find sub b = None.
Proof.
  induction a as [|c a IH]; intros H; [assumption|].
  cbn [append] in H. apply find_cons_none in H as [_ Hf]. auto.
Qed.

(** A longer pattern occurs nowhere a prefix of it does not. *)
Lemma find_none_longer (p q s : string) :
  prefix p q = true -> find p s = None -> find q s = None.
Proof.
  intros Hpq. induction s as [|c s IH]; intros H.
  - cbn [find] in *. destruct (prefix q EmptyString) eqn:Hq; [|reflexivity].
    rewrite (prefix_trans _ _ _ Hpq Hq) in H. discriminate.
  - apply find_cons_none in H as [Hp Hf]. cbn [find].
    destruct (prefix q (String c s)) eqn:Hq.
    + rewrite (prefix_trans _ _ _ Hpq Hq) in Hp. discriminate.
    + rewrite (IH Hf). reflexivity.
Qed.

Lemma suffixes_clear_cons (sep t : string) (c e : ascii) :
  suffixes_clear sep (String c (String e t))
  = (negb (prefix (String e t) sep) && suffixes_clear sep (String e t))%bool.
Proof. reflexivity. Qed.

(** The suffixes of an unbordered marker do not start it again. *)
Lemma suffixes_clear_spec (sep x p2 t : string) (c d : ascii) :
  suffixes_clear sep t = true -> t = String c x ++ String d p2 ->
  prefix (String d p2) sep = false.
Proof.
  revert t c. induction x as [|e x IH]; intros t c Hc ->.
  - cbn [append] in Hc. rewrite suffixes_clear_cons in Hc.
    apply andb_true_iff in Hc as [Hc _].
    apply negb_true_iff in Hc. exact Hc.
  - cbn [append] in Hc. rewrite suffixes_clear_cons in Hc.
    apply andb_true_iff in Hc as [_ Hc].
    eapply IH; [exact Hc | reflexivity].
Qed.

Lemma unbordered_spec (sep x p2 : string) :
  unbordered sep = true -> sep = x ++ p2 ->
  x <> EmptyString -> p2 <> EmptyString -> prefix p2 sep = false.
Proof.
  intros Hu Heq Hx Hp. destruct x as [|c x]; [congruence|].
  destruct p2 as [|d p2]; [congruence|].
  unfold unbordered in Hu. destruct sep as [|s0 sep']; [discriminate|].
  eapply suffixes_clear_spec; [exact Hu | exact Heq].
Qed.

(** The first occurrence of an unbordered marker placed after a text
    that does not contain it is the one placed. *)
Lemma find_app_sep (sep a b : string) :
  unbordered sep = true -> find sep a = None ->
  find sep (a ++ sep ++ b) = Some (String.length a).
Proof.
  intros Hu. induction a as [|c a IH]; intros Hf.
  - cbn [append String.length]. destruct (sep ++ b) eqn:Hs.
    + cbn [find]. rewrite <- Hs, prefix_app. reflexivity.
    + cbn [find]. rewrite <- Hs, prefix_app. reflexivity.
  - apply find_cons_none in Hf as [Hp Hf].
    cbn [append find String.length].
    destruct (prefix sep (String c (a ++ sep ++ b))) eqn:Hq.
    + exfalso.
      change (String c (a ++ sep ++ b)) with (String c a ++ sep ++ b) in Hq.
      destruct (prefix_split _ _ _ Hq) as [Hl | [p2 [Heq Hp2]]]; [congruence|].
      destruct p2 as [|d p2].
      * rewrite append_nil_r in Heq. subst sep.
        rewrite prefix_refl in Hp. discriminate.
      * assert (Hlen : String.length (String d p2) <= String.length sep).
        { rewrite Heq, length_append. lia. }
        pose proof (prefix_app_short _ _ _ Hp2 Hlen) as Hb.
        rewrite (unbordered_spec sep (String c a) (String d p2) Hu Heq) in Hb;
          discriminate.
    + rewrite (IH Hf). reflexivity.
Qed.

Lemma split_go_skip (sep : string) (k : nat) (s : string) :
  split_go sep k s = split_go sep 0 (drop k s).
Proof.
  revert k. induction s as [|c s IH]; intros k.
  - rewrite drop_nil. destruct k; reflexivity.
  - destruct k as [|k]; [reflexivity|]. cbn [split_go drop]. apply IH.
Qed.

Lemma split_none (sep s : string) :
  find sep s = None -> split sep s = [s].
Proof.
  unfold split. induction s as [|c s IH]; intros H; [reflexivity|].
  apply find_cons_none in H as [Hp Hf].
  cbn [split_go]. rewrite Hp, (IH Hf). reflexivity.
Qed.

(** [split] cuts at the first occurrence and goes on after it. *)
Lemma split_at (sep s : string) (i : nat) :
  sep <> EmptyString -> find sep s = Some i ->
  split sep s = take i s :: split sep (drop (i + String.length sep) s).
Proof.
  intros Hne. unfold split. revert i.
  induction s as [|c s IH]; intros i H.
  - cbn [find] in H. destruct sep; [congruence | discriminate].
  - cbn [find] in H. cbn [split_go].
    destruct (prefix sep (String c s)) eqn:Hp.
    + injection H as <-. cbn [take plus].
      rewrite split_go_skip. f_equal.
      destruct sep as [|d sep]; [congruence|].
      cbn [String.length drop Nat.sub]. rewrite ?Nat.sub_0_r. reflexivity.
    + destruct (find sep s) as [j|] eqn:Hf; [|discriminate].
      cbn [option_map] in H. injection H as <-.
      rewrite (IH j eq_refl). cbn [take plus drop]. reflexivity.
Qed.

Lemma split_app_sep (sep a b : string) :
  unbordered sep = true -> contains sep a = false ->
  split sep (a ++ sep ++ b) = a :: split sep b.
Proof.
  intros Hu Hc. apply find_none_iff_contains in Hc.
  assert (Hne : sep <> EmptyString) by (destruct sep; [discriminate | congruence]).
  rewrite (split_at sep _ _ Hne (find_app_sep sep a b Hu Hc)).
  rewrite take_app, drop_add, drop_app, drop_app. reflexivity.
Qed.

Lemma contains_app_sep (sep a b : string) :
  unbordered sep = true -> contains sep a = false ->
  contains sep (a ++ sep ++ b) = true.
Proof.
  intros Hu Hc. apply find_none_iff_contains in Hc.
  eapply find_some_contains. apply find_app_sep; assumption.
Qed.

End StringFacts.

(* ================================================================== *)
(** ** The text tool-call parser *)

Section TextToolCall.
Context {E : Env}.

Lemma unbordered_markers :
  unbordered "Observation:" = true /\ unbordered "Action:" = true
  /\ unbordered "Action input:" = true.
Proof. repeat split. Qed.

(** The text kept by the first test: what stands before the first
    [Observation:] marker. *)
Lemma before_observation (body tail : string) (with_obs : bool) :
  contains "Observation:" body = false ->
  let text := body ++ (if with_obs then "Observation:" ++ tail else EmptyString) in
  (if contains "Observation:" text
   then hd EmptyString (split "Observation:" text)
   else text) = body.
Proof.
  intros Hc text. subst text. destruct with_obs.
  - rewrite contains_app_sep, split_app_sep by (reflexivity || assumption).
    reflexivity.
  - rewrite append_nil_r, Hc. reflexivity.
Qed.

(** The text kept by the second test: the piece between the first
    [Action:] marker and the next one, if there is a next one. *)
Lemma after_action (head piece after : string) :
  contains "Action:" head = false ->
  contains "Action:" piece = false ->
  after = EmptyString \/ (exists r, after = "Action:" ++ r) ->
  let text := head ++ "Action:" ++ piece ++ after in
  (if contains "Action:" text
   then nth 1 (split "Action:" text) EmptyString
   else text) = piece.
Proof.
  intros Hh Hp Ha text. subst text.
  rewrite contains_app_sep, split_app_sep by (reflexivity || assumption).
  cbn [nth]. destruct Ha as [-> | [r ->]].
  - rewrite append_nil_r, split_none; [reflexivity|].
    apply find_none_iff_contains. assumption.
  - rewrite split_app_sep by (reflexivity || assumption). reflexivity.
Qed.

Lemma split_action_input (name input : string) :
  contains "Action input:" name = false ->
  contains "Action input:" input = false ->
  split "Action input:" (name ++ "Action input:" ++ input) = [name; input].
Proof.
  intros Hn Hi. rewrite split_app_sep by (reflexivity || assumption).
  rewrite split_none; [reflexivity|].
  apply find_none_iff_contains. assumption.
Qed.

Lemma parse_text_tool_call_pieces
      (head name input after tail : string) (with_obs : bool) :
  let piece := name ++ "Action input:" ++ input in
  let body := head ++ "Action:" ++ piece ++ after in
  contains "Observation:" body = false ->
  contains "Action:" head = false ->
  contains "Action:" piece = false ->
  after = EmptyString \/ (exists r, after = "Action:" ++ r) ->
  contains "Action input:" name = false ->
  contains "Action input:" input = false ->
  parse_text_tool_call
    (body ++ (if with_obs then "Observation:" ++ tail else EmptyString))
  = let tool_name := replace "\" EmptyString (replace dq EmptyString (strip name)) in
    if contains "{" input
    then match parse_json_blob input with
         | Ok v => Ok (tool_name, v)
         | Raise e => Raise (Exn ValueError (text_tool_call_error_msg (exn_str e)))
         | RaiseBase b => RaiseBase b
         end
    else Ok (tool_name, PStr (replace dq EmptyString (strip input))).
Proof.
  intros piece body Hobs Hh Hp Ha Hn Hi. unfold parse_text_tool_call.
  rewrite (before_observation body tail with_obs Hobs).
  subst body. rewrite (after_action head piece after Hh Hp Ha).
  subst piece. rewrite (split_action_input name input Hn Hi).
  cbn [unpack2 bind]. destruct (contains "{" input).
  - destruct (parse_json_blob input); reflexivity.
  - reflexivity.
Qed.

End TextToolCall.

(** C4 (amended). [parse_text_tool_call] keeps what stands before the
    first [Observation:] marker, then the piece between the first
    [Action:] marker and the next one (everything after the marker when
    it occurs once), and splits that piece around its one
    [Action input:] marker into the tool name, trimmed and cleared of
    quotes and backslashes, and the tool input, decoded as JSON when it
    holds a brace and trimmed and cleared of quotes otherwise. The
    worked input of the specification gives the name [foo] and the
    mapping of [x] to 1, its [Observation:] suffix dropped. *)
Theorem parse_text_tool_call_spec :
  (forall (E : Env) (head name input after tail : string) (with_obs : bool),
      contains "Observation:"
               (head ++ "Action:" ++ (name ++ "Action input:" ++ input) ++ after) = false ->
      contains "Action:" head = false ->
      contains "Action:" (name ++ "Action input:" ++ input) = false ->
      after = EmptyString \/ (exists r, after = "Action:" ++ r) ->
      contains "Action input:" name = false ->
      contains "Action input:" input = false ->
      parse_text_tool_call
        ((head ++ "Action:" ++ (name ++ "Action input:" ++ input) ++ after)
           ++ (if with_obs then "Observation:" ++ tail else EmptyString))
      = if contains "{" input
        then match parse_json_blob input with
             | Ok v =>
                 Ok (replace "\" EmptyString (replace dq EmptyString (strip name)), v)
             | Raise e => Raise (Exn ValueError (text_tool_call_error_msg (exn_str e)))
             | RaiseBase b => RaiseBase b
             end
        else Ok (replace "\" EmptyString (replace dq EmptyString (strip name)),
                 PStr (replace dq EmptyString (strip input))))
  /\ @parse_text_tool_call sample_env
       (lit "Action:^'foo'^Action input: {'x': 1}^Observation: ...")
     = Ok ("foo", PDict [("x", PInt 1)]).
Proof.
  split.
  - intros E head name input after tail with_obs H1 H2 H3 H4 H5 H6.
    apply (parse_text_tool_call_pieces head name input after tail with_obs);
      assumption.
  - vm_compute. reflexivity.
Qed.

Lemma parse_text_tool_call_spec_witness :
  contains "Observation:"
           (EmptyString ++ "Action:"
              ++ (lit "^'foo'^" ++ "Action input:" ++ lit " {'x': 1}^") ++ EmptyString) = false
  /\ @parse_text_tool_call sample_env
       ((EmptyString ++ "Action:"
           ++ (lit "^'foo'^" ++ "Action input:" ++ lit " {'x': 1}^") ++ EmptyString)
          ++ "Observation:" ++ " ...")
     = Ok ("foo", PDict [("x", PInt 1)]).
Proof.
  split; [reflexivity|].
  rewrite (proj1 parse_text_tool_call_spec sample_env
                 EmptyString (lit "^'foo'^") (lit " {'x': 1}^") EmptyString " ..." true);
    [ reflexivity | reflexivity | reflexivity | reflexivity
    | left; reflexivity | reflexivity | reflexivity ].
Defined.

(** C4, as stated, fails: with two [Action:] markers the parser reads the
    piece after the first one, where the text after the last one names
    another tool. *)
Lemma parse_text_tool_call_reads_first_action :
  @parse_text_tool_call sample_env
    (lit "Action: a^Action input: x^Action: b^Action input: y")
  = Ok ("a", PStr "x")
  /\ @parse_text_tool_call sample_env (lit "Action: b^Action input: y")
     = Ok ("b", PStr "y").
Proof. split; reflexivity. Qed.

Lemma parse_text_tool_call_two_actions_no_input :
  @parse_text_tool_call sample_env (lit "Action: a^Action: b^Action input: c")
  = Raise (Exn ValueError
             (text_tool_call_error_msg "not enough values to unpack (expected 2, got 1)")).
Proof. reflexivity. Qed.

(* ================================================================== *)
(** ** The JSON tool-call parser *)

Section JsonToolCall.
Context {E : Env}.

Lemma no_char_app (c : ascii) (a b : string) :
  no_char c (a ++ b) = (no_char c a && no_char c b)%bool.
Proof.
  induction a as [|d a IH]; [reflexivity|].
  cbn [append no_char]. rewrite IH, andb_assoc. reflexivity.
Qed.

Lemma no_char_drop (c : ascii) (k : nat) (s : string) :
  no_char c s = true -> no_char c (drop k s) = true.
Proof.
  revert s. induction k as [|k IH]; intros s H; [assumption|].
  destruct s as [|d s]; [reflexivity|].
  cbn [no_char] in H. apply andb_true_iff in H as [_ H]. cbn [drop]. auto.
Qed.

(** A pattern does not start at a character it does not hold. *)
Lemma prefix_no_char (old : string) (c : ascii) (s : string) :
  old <> EmptyString -> no_char c old = true -> prefix old (String c s) = false.
Proof.
  intros Hne Hc. destruct old as [|o old]; [congruence|].
  cbn [no_char] in Hc. apply andb_true_iff in Hc as [Hc _].
  apply negb_true_iff in Hc. rewrite prefix_cons, Hc. reflexivity.
Qed.

Lemma replace_go_skip (old new : string) (k : nat) (s : string) :
  replace_go old new k s = replace_go old new 0 (drop k s).
Proof.
  revert k. induction s as [|c s IH]; intros k.
  - rewrite drop_nil. destruct k; reflexivity.
  - destruct k as [|k]; [reflexivity|]. cbn [replace_go drop]. apply IH.
Qed.

Lemma replace_cons (old new : string) (d : ascii) (s : string) :
  old <> EmptyString ->
  replace old new (String d s)
  = if prefix old (String d s)
    then new ++ replace old new (drop (String.length old) (String d s))
    else String d (replace old new s).
Proof.
  intros Hne. unfold replace. cbn [replace_go].
  destruct (prefix old (String d s)); [|reflexivity].
  rewrite replace_go_skip. destruct old as [|o old]; [congruence|].
  cbn [String.length drop Nat.sub]. rewrite ?Nat.sub_0_r. reflexivity.
Qed.

Lemma replace_none (old new s : string) :
  find old s = None -> replace old new s = s.
Proof.
  unfold replace. induction s as [|c s IH]; intros H; [reflexivity|].
  apply find_cons_none in H as [Hp Hf].
  cbn [replace_go]. rewrite Hp, (IH Hf). reflexivity.
Qed.

(** A replacement does not reach across a character the pattern does
    not hold. *)
Lemma replace_through_char (old new : string) (c : ascii) (a b : string) :
  old <> EmptyString -> no_char c old = true ->
  replace old new (a ++ String c b)
  = replace old new a ++ String c (replace old new b).
Proof.
  intros Hne Hc.
  remember (String.length a) as n eqn:Hn.
  revert a Hn. induction n as [n IH] using lt_wf_ind. intros a Hn.
  destruct a as [|d a].
  - cbn [append]. rewrite replace_cons by assumption.
    rewrite prefix_no_char by assumption. reflexivity.
  - cbn [append]. rewrite !replace_cons by assumption.
    destruct (prefix old (String d (a ++ String c b))) eqn:Hp.
    + change (String d (a ++ String c b)) with (String d a ++ String c b) in Hp.
      assert (Hpa : prefix old (String d a) = true).
      { destruct (prefix_split _ _ _ Hp) as [Hl | [p2 [Heq Hp2]]]; [assumption|].
        destruct p2 as [|e p2].
        - rewrite append_nil_r in Heq. subst old. apply prefix_refl.
        - exfalso. destruct (ascii_dec e c) as [->|Hne'].
          + rewrite Heq, no_char_app in Hc. apply andb_true_iff in Hc as [_ Hc].
            cbn [no_char] in Hc. rewrite Ascii.eqb_refl in Hc. discriminate.
          + rewrite prefix_cons in Hp2. apply Ascii.eqb_neq in Hne'.
            rewrite Hne' in Hp2. discriminate. }
      rewrite Hpa. destruct (prefix_inv _ _ Hpa) as [a2 Ha2].
      change (String d (a ++ String c b)) with (String d a ++ String c b).
      rewrite Ha2, append_assoc, !drop_app.
      rewrite (IH (String.length a2)); [apply eq_sym, append_assoc| |reflexivity].
      subst n. rewrite Ha2, length_append.
      destruct old; [congruence | cbn [String.length]; lia].
    + destruct (prefix old (String d a)) eqn:Hpa.
      * apply (prefix_app_l _ _ (String c b)) in Hpa.
        cbn [append] in Hpa. congruence.
      * cbn [append]. f_equal.
        apply (IH (String.length a)); [subst n; cbn; lia | reflexivity].
Qed.

(** Deleting occurrences of a pattern brings in no new character. *)
Lemma no_char_replace_delete (old : string) (c : ascii) (s : string) :
  old <> EmptyString -> no_char c s = true ->
  no_char c (replace old EmptyString s) = true.
Proof.
  intros Hne.
  remember (String.length s) as n eqn:Hn.
  revert s Hn. induction n as [n IH] using lt_wf_ind. intros s Hn Hs.
  destruct s as [|d s]; [reflexivity|].
  rewrite replace_cons by assumption.
  destruct (prefix old (String d s)) eqn:Hp.
  - cbn [append]. destruct (prefix_inv _ _ Hp) as [r Hr].
    rewrite Hr, drop_app.
    apply (IH (String.length r)); [| reflexivity |].
    + subst n. rewrite Hr, length_append.
      destruct old; [congruence | cbn [String.length]; lia].
    + rewrite Hr, no_char_app in Hs. apply andb_true_iff in Hs as [_ Hs]. exact Hs.
  - cbn [no_char] in Hs |- *. apply andb_true_iff in Hs as [Hd Hs].
    rewrite Hd. cbn [andb].
    apply (IH (String.length s)); [subst n; cbn; lia | reflexivity | exact Hs].
Qed.

Lemma find_char_app (c : ascii) (a b : string) :
  no_char c a = true ->
  find (String c EmptyString) (a ++ String c b) = Some (String.length a).
Proof.
  induction a as [|d a IH]; intros H.
  - cbn [append find]. rewrite prefix_cons, Ascii.eqb_refl, prefix_nil. reflexivity.
  - cbn [no_char] in H. apply andb_true_iff in H as [Hd H].
    apply negb_true_iff in Hd.
    cbn [append find]. rewrite prefix_cons.
    rewrite Ascii.eqb_sym, Hd. cbn [andb]. rewrite (IH H). reflexivity.
Qed.

Lemma finditer_char_app (c : ascii) (i : nat) (a b : string) :
  finditer_char c i (a ++ b)
  = (finditer_char c i a ++ finditer_char c (i + String.length a) b)%list.
Proof.
  revert i. induction a as [|d a IH]; intros i.
  - cbn [append finditer_char String.length app]. rewrite Nat.add_0_r. reflexivity.
  - cbn [append finditer_char String.length]. rewrite IH.
    replace (S i + String.length a) with (i + S (String.length a)) by lia.
    destruct (Ascii.eqb d c); reflexivity.
Qed.

Lemma finditer_char_none (c : ascii) (i : nat) (s : string) :
  no_char c s = true -> finditer_char c i s = [].
Proof.
  revert i. induction s as [|d s IH]; intros i H; [reflexivity|].
  cbn [no_char] in H. apply andb_true_iff in H as [Hd H].
  apply negb_true_iff in Hd. cbn [finditer_char]. rewrite Hd. auto.
Qed.

(** The last match of the closing brace. *)
Lemma last_index_finditer (c : ascii) (a b : string) :
  no_char c b = true ->
  last_index (finditer_char c 0 (a ++ String c b)) = Ok (String.length a).
Proof.
  intros H. rewrite finditer_char_app. cbn [finditer_char plus].
  rewrite Ascii.eqb_refl, (finditer_char_none c _ b) by assumption.
  unfold last_index. rewrite rev_app_distr. reflexivity.
Qed.

Lemma slice_middle (a m b : string) :
  slice (a ++ m ++ b) (Z.of_nat (String.length a))
        (Z.of_nat (String.length a + String.length m))
  = m.
Proof.
  unfold slice, bound. rewrite !length_append.
  destruct (Z.ltb_spec (Z.of_nat (String.length a)) 0); [lia|].
  destruct (Z.ltb_spec (Z.of_nat (String.length a + String.length m)) 0); [lia|].
  rewrite !Z.min_l by lia.
  replace (Z.to_nat (Z.of_nat (String.length a + String.length m)
                     - Z.of_nat (String.length a)))
    with (String.length m) by lia.
  rewrite Nat2Z.id, drop_app, take_app. reflexivity.
Qed.

End JsonToolCall.

Section JsonBlob.
Context {E : Env}.

Lemma object_app (body suf : string) :
  String "{" (body ++ "}") ++ suf = String "{" (body ++ String "}" suf).
Proof. cbn [append]. rewrite append_assoc. reflexivity. Qed.

(** Deleting a fence marker around an object that holds none leaves the
    object as it is. *)
Lemma delete_around_object (old pre body suf : string) :
  old <> EmptyString -> no_char "{" old = true -> no_char "}" old = true ->
  find old body = None ->
  replace old EmptyString (pre ++ String "{" (body ++ String "}" suf))
  = replace old EmptyString pre
    ++ String "{" (body ++ String "}" (replace old EmptyString suf)).
Proof.
  intros Hne Ho Hc Hb.
  rewrite replace_through_char by assumption.
  rewrite replace_through_char by assumption.
  rewrite (replace_none old _ body Hb). reflexivity.
Qed.

(** The blob parser on one object between a text without an opening
    brace and a text without a closing brace: the object alone goes to
    the decoder. *)
Lemma parse_json_blob_between (pre body suf : string) :
  no_char "{" pre = true -> no_char "}" suf = true ->
  contains ("\" ++ dq) (String "{" (body ++ "}")) = false ->
  parse_json_blob (pre ++ String "{" (body ++ String "}" suf))
  = match json_loads (String "{" (body ++ "}")) with
    | Decoded json_data => Ok json_data
    | DecodeError msg pos =>
        if String.eqb (slice (String "{" (body ++ "}"))
                             (Z.of_nat pos - 1) (Z.of_nat pos + 2))
                      ("}," ++ nl)
        then Raise (Exn ValueError multiple_tool_calls_msg)
        else Raise (Exn ValueError
                      (invalid_json_msg
                         (String "{" (body ++ "}"))
                         (str_JSONDecodeError (String "{" (body ++ "}")) msg pos)
                         (Z.of_nat pos)))
    | DecodeRaised e =>
        Raise (Exn ValueError ("Error in parsing the JSON blob: " ++ exn_str e))
    end.
Proof.
  intros Hp Hs Hq. unfold parse_json_blob.
  rewrite (find_char_app "{" pre _ Hp).
  replace (pre ++ String "{" (body ++ String "}" suf))
    with ((pre ++ String "{" body) ++ String "}" suf)
    by (rewrite append_assoc; reflexivity).
  rewrite (last_index_finditer "}" _ suf Hs).
  replace ((pre ++ String "{" body) ++ String "}" suf)
    with (pre ++ String "{" (body ++ "}") ++ suf)
    by (rewrite object_app, append_assoc; reflexivity).
  replace (Z.of_nat (String.length (pre ++ String "{" body)) + 1)%Z
    with (Z.of_nat (String.length pre + String.length (String "{" (body ++ "}")))).
  2:{ cbn [String.length]. rewrite !length_append. cbn [String.length]. lia. }
  rewrite slice_middle.
  apply find_none_iff_contains in Hq. rewrite (replace_none _ _ _ Hq).
  reflexivity.
Qed.

Lemma fences_removed_around_object (pre body suf : string) :
  no_char "{" pre = true -> no_char "}" suf = true ->
  contains "```" (String "{" (body ++ "}")) = false ->
  contains ("\" ++ dq) (String "{" (body ++ "}")) = false ->
  exists pre' suf',
    replace "```" EmptyString
            (replace "```json" EmptyString (pre ++ String "{" (body ++ "}") ++ suf))
    = pre' ++ String "{" (body ++ String "}" suf')
    /\ no_char "{" pre' = true /\ no_char "}" suf' = true.
Proof.
  intros Hpre Hsuf Hf Hq.
  apply find_none_iff_contains in Hf.
  apply find_cons_none in Hf as [_ Hf]. apply find_none_app_l in Hf.
  exists (replace "```" EmptyString (replace "```json" EmptyString pre)),
         (replace "```" EmptyString (replace "```json" EmptyString suf)).
  rewrite object_app.
  rewrite delete_around_object;
    [ | discriminate | reflexivity | reflexivity
      | apply (find_none_longer "```"); [reflexivity | exact Hf] ].
  rewrite delete_around_object;
    [ | discriminate | reflexivity | reflexivity | exact Hf ].
  split; [reflexivity|]. split.
  - apply no_char_replace_delete; [discriminate|].
    apply no_char_replace_delete; [discriminate | exact Hpre].
  - apply no_char_replace_delete; [discriminate|].
    apply no_char_replace_delete; [discriminate | exact Hsuf].
Qed.

End JsonBlob.

(** C2 (amended). For an input made of a prefix without an opening
    brace, one JSON object that the decoder accepts and that holds no
    code-fence marker and no backslash-quote sequence, and a suffix
    without a closing brace, [parse_json_tool_call] returns the value
    under [action] in that object, paired with the value under
    [action_input], or with [None] when that key is absent. *)
Theorem parse_json_tool_call_embedded :
  forall (E : Env) (pre body suf : string) (d : Dict.dict pyval) (a : pyval),
    no_char "{" pre = true ->
    no_char "}" suf = true ->
    contains "```" (String "{" (body ++ "}")) = false ->
    contains ("\" ++ dq) (String "{" (body ++ "}")) = false ->
    json_loads (String "{" (body ++ "}")) = Decoded (PDict d) ->
    Dict.get "action" d = Some a ->
    parse_json_tool_call (pre ++ String "{" (body ++ "}") ++ suf)
    = Ok (a, match Dict.get "action_input" d with
             | Some i => i
             | None => PNone
             end).
Proof.
  intros E pre body suf d a Hpre Hsuf Hf Hq Hd Ha.
  unfold parse_json_tool_call.
  destruct (fences_removed_around_object pre body suf Hpre Hsuf Hf Hq)
    as [pre' [suf' [-> [Hp' Hs']]]].
  rewrite (parse_json_blob_between pre' body suf' Hp' Hs' Hq), Hd.
  cbn [bind py_in]. unfold Dict.mem. rewrite Ha.
  cbn [bind]. destruct (Dict.get "action_input" d) as [i|] eqn:Hi.
  - cbn [bind andb py_getitem]. rewrite Ha, Hi. reflexivity.
  - cbn [bind andb py_getitem]. rewrite Ha. reflexivity.
Qed.

Lemma parse_json_tool_call_embedded_witness :
  no_char "{" "Thought: I will search. " = true
  /\ @parse_json_tool_call sample_env
       ("Thought: I will search. "
          ++ String "{" (lit "'action': 'search', 'action_input': {'query': 'rocq'}" ++ "}")
          ++ " That is all.")
     = Ok (PStr "search", PDict [("query", PStr "rocq")]).
Proof.
  split; [reflexivity|].
  apply (parse_json_tool_call_embedded
           sample_env "Thought: I will search. "
           (lit "'action': 'search', 'action_input': {'query': 'rocq'}")
           " That is all."
           [("action", PStr "search"); ("action_input", PDict [("query", PStr "rocq")])]
           (PStr "search"));
    reflexivity.
Defined.

(** C2, as stated, fails: a closing brace in the suffix, or an opening
    brace in the prefix, moves the span that goes to the decoder, and the
    call raises although the embedded object is well formed. *)
Lemma parse_json_tool_call_brace_in_noise :
  @parse_json_tool_call sample_env (lit "{'action':'a'}") = Ok (PStr "a", PNone)
  /\ @parse_json_tool_call sample_env (lit "{'action':'a'} }")
     = Raise (Exn ValueError
                  (invalid_json_msg (lit "{'action':'a'} }")
                                    "Extra data: line 1 column 16 (char 15)" 15))
  /\ @parse_json_tool_call sample_env (lit "{ {'action':'a'}")
     = Raise (Exn ValueError
                  (invalid_json_msg
                     (lit "{ {'action':'a'}")
                     "Expecting property name enclosed in double quotes: line 1 column 3 (char 2)"
                     2)).
Proof. repeat split. Qed.

(** A code-fence marker inside the object is deleted before decoding,
    and an escaped quote becomes an apostrophe: the value returned is
    not the value of the object. *)
Lemma parse_json_tool_call_rewrites_inside_object :
  @json_loads sample_env (lit "{'action':'a```b'}")
  = Decoded (PDict [("action", PStr "a```b")])
  /\ @parse_json_tool_call sample_env (lit "{'action':'a```b'}") = Ok (PStr "ab", PNone)
  /\ @json_loads sample_env (lit "{'action':'a\'b'}")
     = Decoded (PDict [("action", PStr (lit "a'b"))])
  /\ @parse_json_tool_call sample_env (lit "{'action':'a\'b'}") = Ok (PStr "a'b", PNone).
Proof. repeat split. Qed.

(* ================================================================== *)
(** ** Two tool calls in one blob *)

Section MultipleToolCalls.
Context {E : Env}.

Lemma slice_window (a b : string) :
  slice (a ++ String "}" ("," ++ nl ++ b))
        (Z.of_nat (String.length (a ++ "}")) - 1)
        (Z.of_nat (String.length (a ++ "}")) + 2)
  = "}," ++ nl.
Proof.
  replace (Z.of_nat (String.length (a ++ "}")) - 1)%Z
    with (Z.of_nat (String.length a))
    by (rewrite length_append; cbn [String.length]; lia).
  replace (Z.of_nat (String.length (a ++ "}")) + 2)%Z
    with (Z.of_nat (String.length a + String.length ("}," ++ nl)))
    by (rewrite !length_append; unfold nl; simpl; lia).
  change (a ++ String "}" ("," ++ nl ++ b)) with (a ++ ("}," ++ nl) ++ b).
  apply slice_middle.
Qed.

Lemma parse_json_blob_two_objects (b1 b2 msg : string) :
  contains ("\" ++ dq)
           (String "{" ((b1 ++ "}," ++ nl ++ String "{" b2) ++ "}")) = false ->
  json_loads (String "{" ((b1 ++ "}," ++ nl ++ String "{" b2) ++ "}"))
  = DecodeError msg (String.length (String "{" (b1 ++ "}"))) ->
  parse_json_blob (String "{" (b1 ++ "}") ++ "," ++ nl ++ String "{" (b2 ++ "}"))
  = Raise (Exn ValueError multiple_tool_calls_msg).
Proof.
  intros Hq Hd.
  replace (String "{" (b1 ++ "}") ++ "," ++ nl ++ String "{" (b2 ++ "}"))
    with (EmptyString
            ++ String "{" ((b1 ++ "}," ++ nl ++ String "{" b2) ++ String "}" EmptyString)).
  2:{ cbn [append]. f_equal. rewrite !append_assoc. cbn [append].
      rewrite !append_assoc. reflexivity. }
  rewrite (parse_json_blob_between EmptyString _ EmptyString eq_refl eq_refl Hq).
  rewrite Hd.
  replace (String "{" ((b1 ++ "}," ++ nl ++ String "{" b2) ++ "}"))
    with (String "{" b1 ++ String "}" ("," ++ nl ++ (String "{" b2 ++ "}"))).
  2:{ cbn [append]. f_equal. rewrite !append_assoc. reflexivity. }
  replace (String.length (String "{" (b1 ++ "}")))
    with (String.length (String "{" b1 ++ "}")) by reflexivity.
  rewrite slice_window, String.eqb_refl. reflexivity.
Qed.

End MultipleToolCalls.

(** C3 (amended). Two objects in braces joined by a comma and a line
    feed, with no backslash-quote sequence in the text: when the decoder
    fails at the position right after the first object, as [json.loads]
    does (Extra data) after a complete value, [parse_json_blob] finds
    the closing brace before the failure position and the comma and the
    line feed at it, and raises the error about multiple tool calls, not
    the error that reports the position and the text around it. So it
    does on the worked input of the specification. *)
Theorem parse_json_blob_multiple_tool_calls :
  (forall (E : Env) (b1 b2 msg : string),
      contains ("\" ++ dq)
               (String "{" ((b1 ++ "}," ++ nl ++ String "{" b2) ++ "}")) = false ->
      json_loads (String "{" ((b1 ++ "}," ++ nl ++ String "{" b2) ++ "}"))
      = DecodeError msg (String.length (String "{" (b1 ++ "}"))) ->
      parse_json_blob (String "{" (b1 ++ "}") ++ "," ++ nl ++ String "{" (b2 ++ "}"))
      = Raise (Exn ValueError multiple_tool_calls_msg))
  /\ @parse_json_blob sample_env (lit "{'action':'a'},^{'action':'b'}")
     = Raise (Exn ValueError multiple_tool_calls_msg)
  /\ (forall blob e_str place,
         multiple_tool_calls_msg <> invalid_json_msg blob e_str place).
Proof.
  split; [|split].
  - intros E b1 b2 msg Hq Hd.
    apply (parse_json_blob_two_objects b1 b2 msg Hq Hd).
  - vm_compute. reflexivity.
  - intros blob e_str place H. discriminate H.
Qed.

Lemma parse_json_blob_multiple_tool_calls_witness :
  @json_loads sample_env
    (String "{" ((lit "'action':'a'" ++ "}," ++ nl ++ String "{" (lit "'action':'b'")) ++ "}"))
  = DecodeError "Extra data" (String.length (String "{" (lit "'action':'a'" ++ "}")))
  /\ @parse_json_blob sample_env
       (String "{" (lit "'action':'a'" ++ "}") ++ "," ++ nl
               ++ String "{" (lit "'action':'b'" ++ "}"))
     = Raise (Exn ValueError multiple_tool_calls_msg).
Proof.
  split; [reflexivity|].
  apply (proj1 parse_json_blob_multiple_tool_calls sample_env
               (lit "'action':'a'") (lit "'action':'b'") "Extra data");
    reflexivity.
Defined.

(** C3, as stated, fails: two objects joined by a comma alone hold the
    brace and the comma at the failure position of the decoder, and get
    the error that reports the position and the text around it; the
    test of the code asks for the line feed after the comma. *)
Lemma parse_json_blob_comma_without_line_feed :
  @json_loads sample_env (lit "{'action':'a'},{'action':'b'}") = DecodeError "Extra data" 14
  /\ slice (lit "{'action':'a'},{'action':'b'}") 13 15 = "},"
  /\ @parse_json_blob sample_env (lit "{'action':'a'},{'action':'b'}")
     = Raise (Exn ValueError
                  (invalid_json_msg
                     (lit "{'action':'a'},{'action':'b'}")
                     "Extra data: line 1 column 15 (char 14)" 14))
  /\ @parse_json_blob sample_env (lit "{'action':'a'}{'action':'b'}")
     = Raise (Exn ValueError
                  (invalid_json_msg
                     (lit "{'action':'a'}{'action':'b'}")
                     "Extra data: line 1 column 15 (char 14)" 14)).
Proof. repeat split. Qed.

(* ================================================================== *)
(** ** The single-shot run *)

Section Run.
Context {E : Env}.

Lemma take_drop (n : nat) (s : string) : take n s ++ drop n s = s.
Proof.
  revert s. induction n as [|n IH]; intros s; [reflexivity|].
  destruct s as [|c s]; [reflexivity|]. cbn [take drop append]. rewrite IH. reflexivity.
Qed.

Lemma length_drop (n : nat) (s : string) :
  String.length (drop n s) = String.length s - n.
Proof.
  revert s. induction n as [|n IH]; intros s; cbn [drop]; [lia|].
  destruct s as [|c s]; [reflexivity|]. cbn [String.length]. apply IH.
Qed.

Lemma find_some_nonempty (sep s : string) (i : nat) :
  sep <> EmptyString -> find sep s = Some i -> s <> EmptyString.
Proof.
  intros Hne H ->. cbn [find] in H. destruct sep; [congruence | discriminate].
Qed.

(** What occurs in no part of a text occurs in no piece of its split. *)
Lemma split_pieces_none (sub sep s : string) :
  sep <> EmptyString -> find sub s = None ->
  Forall (fun p => find sub p = None) (split sep s).
Proof.
  intros Hne.
  remember (String.length s) as n eqn:Hn.
  revert s Hn. induction n as [n IH] using lt_wf_ind. intros s Hn Hs.
  destruct (find sep s) as [i|] eqn:Hf.
  - rewrite (split_at sep s i Hne Hf). constructor.
    + rewrite <- (take_drop i s) in Hs. apply find_none_app_l in Hs. exact Hs.
    + apply (IH (String.length (drop (i + String.length sep) s))); [|reflexivity|].
      * subst n. rewrite length_drop.
        pose proof (find_some_nonempty sep s i Hne Hf) as Hs0.
        destruct s; [congruence|]. destruct sep; [congruence|].
        cbn [String.length]. lia.
      * rewrite <- (take_drop (i + String.length sep) s) in Hs.
        apply find_none_app_r in Hs. exact Hs.
  - rewrite (split_none sep s Hf). constructor; [exact Hs | constructor].
Qed.

(** The action payload holds no fence when the model output holds none. *)
Lemma code_action_no_fence (llm_output : string) :
  find "```" llm_output = None -> find "```" (code_action_of llm_output) = None.
Proof.
  intros H. unfold code_action_of, extract_action.
  pose proof (split_pieces_none "```" "Code:" llm_output ltac:(discriminate) H) as HF.
  apply Forall_rev in HF.
  destruct (rev (split "Code:" llm_output)) as [|action [|rationale rest]];
    [exact H | exact H |].
  inversion HF; assumption.
Qed.

Lemma search_code_no_fence (s : string) :
  find "```" s = None -> search_code s = None.
Proof.
  induction s as [|c s IH]; intros H.
  - reflexivity.
  - apply find_cons_none in H as [Hp Hf].
    cbn [search_code]. unfold match_code_here. rewrite Hp. auto.
Qed.

Lemma run_after_model_output
      (self : Agent) (task_text : string) (kwargs : Dict.dict pyval) (h : heap)
      (self' : Agent) (h' : heap) (llm_output : string) :
  run_llm self task_text kwargs h = (self', h', Ok llm_output) ->
  run self task_text false kwargs h
  = (self', fst (run_parse_execute self' llm_output h'),
     snd (run_parse_execute self' llm_output h')).
Proof.
  intros H. unfold run. rewrite H.
  destruct (run_parse_execute self' llm_output h'); reflexivity.
Qed.

Lemma extract_action_no_base (llm_output split_token : string) (b : base_exn) :
  extract_action llm_output split_token <> RaiseBase b.
Proof.
  unfold extract_action.
  destruct (rev (split split_token llm_output)) as [|action [|rationale rest]];
    discriminate.
Qed.

Lemma parse_code_blob_no_base (code_blob : string) (b : base_exn) :
  parse_code_blob code_blob <> RaiseBase b.
Proof. unfold parse_code_blob. destruct (search_code code_blob); discriminate. Qed.

(** What the second [try] block comes to, by the outcome of the
    evaluator. *)
Lemma run_parse_execute_code
      (self : Agent) (llm_output code : string) (h h'' : heap) (r : result pyval) :
  parse_code_blob (code_action_of llm_output) = Ok code ->
  run_execute self code h = (h'', r) ->
  run_parse_execute self llm_output h
  = (h'', match r with
          | Ok output => Ok output
          | Raise e =>
              Ok (PStr ("Error in execution: " ++ exn_str e
                          ++ ". Be sure to provide correct code."))
          | RaiseBase b => RaiseBase b
          end).
Proof.
  intros Hp Hx. unfold run_parse_execute. rewrite Hp, Hx. destruct r; reflexivity.
Qed.

(** Only the evaluator lets an exception outside [Exception] out of the
    second [try] block. *)
Lemma run_execute_base (self : Agent) (code : string) (h h'' : heap) (b : base_exn) :
  run_execute self code h = (h'', RaiseBase b) ->
  exists (l : loc) (imports : list string),
    state self = Some l /\ authorized_imports self = Some imports
    /\ python_evaluator self code (Dict.merge BASE_PYTHON_TOOLS (_tools (toolbox self)))
                        [] l imports h
       = (h'', RaiseBase b).
Proof.
  unfold run_execute. intros H.
  destruct (state self) as [l|]; [|destruct (authorized_imports self); discriminate].
  destruct (authorized_imports self) as [imports|]; [|discriminate].
  exists l, imports. split; [reflexivity|]. split; [reflexivity|].
  destruct (python_evaluator self code _ [] l imports h) as [h1 [out|e|b1]].
  - destruct (heap_get h1 l) as [st|]; [destruct (Dict.get "print_outputs" st)|];
      discriminate.
  - discriminate.
  - injection H as <- <-. reflexivity.
Qed.

Lemma run_parse_execute_outcome (self : Agent) (llm_output : string) (h : heap) :
  (exists v, snd (run_parse_execute self llm_output h) = Ok v)
  \/ (exists (code : string) (h'' : heap) (b : base_exn),
         parse_code_blob (code_action_of llm_output) = Ok code
         /\ run_execute self code h = (h'', RaiseBase b)
         /\ run_parse_execute self llm_output h = (h'', RaiseBase b)).
Proof.
  destruct (parse_code_blob (code_action_of llm_output)) as [code|e|b] eqn:Hp.
  - destruct (run_execute self code h) as [h' r] eqn:Hx.
    rewrite (run_parse_execute_code self llm_output code h h' r Hp Hx).
    destruct r as [out|e|b].
    + left. eexists. reflexivity.
    + left. eexists. reflexivity.
    + right. exists code, h', b. split; [reflexivity|]. split; [exact Hx | reflexivity].
  - left. unfold run_parse_execute. rewrite Hp. eexists. reflexivity.
  - exfalso. exact (parse_code_blob_no_base _ _ Hp).
Qed.

End Run.

(** C1 (amended). Once the model engine has returned its output, in a
    single-shot run with [return_generated_code] false: a failure of the
    code parser, as on an output without any code fence, gives the
    descriptive string of a parsing error as the value returned; an
    instance of [Exception] raised in the execution block gives the
    descriptive string of an execution error as the value returned; so
    [run] raises no instance of [Exception], and it returns a value
    unless the evaluator raises an exception outside [Exception]
    ([SystemExit], [KeyboardInterrupt]), which leaves [run] as it is.
    An exception raised before that, by the model engine itself or by
    the setup of the run, leaves [run] as it is. *)
Theorem run_single_shot_outcome :
  (forall (E : Env) (self : Agent) (task_text : string) (kwargs : Dict.dict pyval)
          (h : heap) (self' : Agent) (h' : heap) (llm_output : string),
      run_llm self task_text kwargs h = (self', h', Ok llm_output) ->
      (forall e : exn,
          parse_code_blob (code_action_of llm_output) = Raise e ->
          run self task_text false kwargs h
          = (self', h',
             Ok (PStr ("Error in code parsing: " ++ exn_str e
                         ++ ". Be sure to provide correct code"))))
      /\ (contains "```" llm_output = false ->
          run self task_text false kwargs h
          = (self', h',
             Ok (PStr ("Error in code parsing: "
                         ++ invalid_code_msg "'NoneType' object has no attribute 'group'"
                         ++ ". Be sure to provide correct code"))))
      /\ (forall (code : string) (h'' : heap) (e : exn),
             parse_code_blob (code_action_of llm_output) = Ok code ->
             run_execute self' code h' = (h'', Raise e) ->
             run self task_text false kwargs h
             = (self', h'',
                Ok (PStr ("Error in execution: " ++ exn_str e
                            ++ ". Be sure to provide correct code."))))
      /\ (forall (h'' : heap) (e : exn),
             run self task_text false kwargs h <> (self', h'', Raise e))
      /\ ((exists h'' v, run self task_text false kwargs h = (self', h'', Ok v))
          \/ (exists (code : string) (l : loc) (imports : list string) (h'' : heap)
                     (b : base_exn),
                 parse_code_blob (code_action_of llm_output) = Ok code
                 /\ state self' = Some l /\ authorized_imports self' = Some imports
                 /\ python_evaluator self' code
                                     (Dict.merge BASE_PYTHON_TOOLS (_tools (toolbox self')))
                                     [] l imports h'
                    = (h'', RaiseBase b)
                 /\ run self task_text false kwargs h = (self', h'', RaiseBase b))))
  /\ (forall (E : Env) (self : Agent) (task_text : string) (kwargs : Dict.dict pyval)
             (h : heap) (self' : Agent) (h' : heap) (b : bool),
         (forall e : exn,
             run_llm self task_text kwargs h = (self', h', Raise e) ->
             run self task_text b kwargs h = (self', h', Raise e))
         /\ (forall x : base_exn,
                run_llm self task_text kwargs h = (self', h', RaiseBase x) ->
                run self task_text b kwargs h = (self', h', RaiseBase x))).
Proof.
  split.
  - intros E self task_text kwargs h self' h' llm_output Hrun.
    rewrite (run_after_model_output self task_text kwargs h self' h' llm_output Hrun).
    split; [|split; [|split; [|split]]].
    + intros e Hparse. unfold run_parse_execute. rewrite Hparse. reflexivity.
    + intros Hc. apply find_none_iff_contains in Hc.
      unfold run_parse_execute, parse_code_blob.
      rewrite (search_code_no_fence _ (code_action_no_fence llm_output Hc)).
      reflexivity.
    + intros code h'' e Hparse Hexec.
      rewrite (run_parse_execute_code self' llm_output code h' h'' _ Hparse Hexec).
      reflexivity.
    + intros h'' e Habs.
      destruct (run_parse_execute_outcome self' llm_output h')
        as [[v Hv]|[code [h1 [b [_ [_ Hb]]]]]].
      * rewrite Hv in Habs. discriminate Habs.
      * rewrite Hb in Habs. discriminate Habs.
    + destruct (run_parse_execute_outcome self' llm_output h')
        as [[v Hv]|[code [h1 [b [Hp [Hx Hb]]]]]].
      * left. exists (fst (run_parse_execute self' llm_output h')), v.
        rewrite Hv. reflexivity.
      * right. destruct (run_execute_base self' code h' h1 b Hx)
          as [l [imports [Hs [Hi He]]]].
        exists code, l, imports, h1, b. rewrite Hb. repeat split; assumption.
  - intros E self task_text kwargs h self' h' b. split.
    + intros e Hrun. unfold run. rewrite Hrun. reflexivity.
    + intros x Hrun. unfold run. rewrite Hrun. reflexivity.
Qed.

Lemma run_single_shot_outcome_witness :
  snd (@run_llm sample_env (sample_agent (fun _ _ => Ok "I cannot write code for this.")
                                         echo_evaluator [])
                "What is 2 + 2?" [] [])
  = Ok "I cannot write code for this."
  /\ snd (@run sample_env (sample_agent (fun _ _ => Ok "I cannot write code for this.")
                                        echo_evaluator [])
               "What is 2 + 2?" false [] [])
     = Ok (PStr ("Error in code parsing: "
                   ++ invalid_code_msg "'NoneType' object has no attribute 'group'"
                   ++ ". Be sure to provide correct code")).
Proof.
  split; [reflexivity|].
  destruct (@run_llm sample_env
              (sample_agent (fun _ _ => Ok "I cannot write code for this.") echo_evaluator [])
              "What is 2 + 2?" [] []) as [[self' h'] r] eqn:Hrun.
  assert (Hr : r = Ok "I cannot write code for this.").
  { apply (f_equal snd) in Hrun. cbn [snd] in Hrun. rewrite <- Hrun. reflexivity. }
  subst r.
  destruct (proj1 run_single_shot_outcome sample_env _ _ _ _ _ _ _ Hrun)
    as [_ [Hparse _]].
  rewrite (Hparse eq_refl). reflexivity.
Defined.

(** C1, as stated, fails for a failure of the model: the call of the
    engine stands outside every [try] of [run], and its exception
    reaches the caller. *)
Lemma run_model_failure_propagates :
  snd (@run sample_env (sample_agent failing_engine echo_evaluator [])
            "What is 2 + 2?" false [] [])
  = Raise (Exn (OtherException "ConnectionError") "the model endpoint is unreachable").
Proof. reflexivity. Qed.

Example run_success :
  snd (@run sample_env
            (sample_agent (fun _ _ => Ok (lit "Thoughts: add.^Code:^```py^2 + 2^```"))
                          echo_evaluator [])
            "What is 2 + 2?" false [] [])
  = Ok (PStr "2 + 2").
Proof. reflexivity. Qed.

Example run_execution_failure :
  snd (@run sample_env
            (sample_agent (fun _ _ => Ok (lit "Code:^```python^x^```"))
                          failing_evaluator [])
            "What is x?" false [] [])
  = Ok (PStr "Error in execution: Name 'x' is not defined. Be sure to provide correct code.").
Proof. reflexivity. Qed.

(** An interrupt of the evaluator is no instance of [Exception]: the
    second [try] block lets it pass. *)
Example run_evaluator_interrupted :
  snd (@run sample_env
            (sample_agent (fun _ _ => Ok (lit "Code:^```python^x^```"))
                          interrupted_evaluator [])
            "What is x?" false [] [])
  = RaiseBase (BaseExn KeyboardInterrupt EmptyString).
Proof. reflexivity. Qed.

(* ================================================================== *)
(** ** The transcript *)

Section Transcript.
Context {E : Env}.

(** A step only appends to the memory. *)
Lemma memory_step_app (sm : bool) (i : nat) (s : step_log) (memory : list message) :
  memory_step sm i s memory = (memory ++ memory_step sm i s [])%list.
Proof.
  split_fields s; destruct sm; cbn;
    rewrite <- ?app_assoc; cbn; rewrite ?app_nil_r; reflexivity.
Qed.

Lemma memory_loop_app (sm : bool) (i : nat) (steps : list step_log)
      (memory : list message) :
  memory_loop sm i steps memory = (memory ++ memory_loop sm i steps [])%list.
Proof.
  revert i memory. induction steps as [|s steps IH]; intros i memory.
  - cbn. rewrite app_nil_r. reflexivity.
  - cbn [memory_loop]. rewrite IH, (IH _ (memory_step sm i s [])).
    rewrite (memory_step_app sm i s memory), app_assoc. reflexivity.
Qed.

Lemma memory_loop_cons (sm : bool) (i : nat) (s : step_log) (steps : list step_log) :
  memory_loop sm i (s :: steps) []
  = (memory_step sm i s [] ++ memory_loop sm (S i) steps [])%list.
Proof. cbn [memory_loop]. apply memory_loop_app. Qed.

(** The messages of the step at position [k] are in the transcript. *)
Lemma memory_loop_in (sm : bool) (steps : list step_log) (i k : nat)
      (s : step_log) (m : message) :
  nth_error steps k = Some s -> In m (memory_step sm (i + k) s []) ->
  In m (memory_loop sm i steps []).
Proof.
  revert i k. induction steps as [|s0 steps IH]; intros i k Hk Hm.
  - destruct k; discriminate.
  - rewrite memory_loop_cons. apply in_or_app. destruct k as [|k].
    + injection Hk as ->. rewrite Nat.add_0_r in Hm. left. exact Hm.
    + right. apply (IH (S i) k); [exact Hk|].
      replace (S i + k) with (i + S k) by lia. exact Hm.
Qed.

Lemma memory_step_no_system (sm : bool) (i : nat) (s : step_log) :
  Forall (fun m => role m <> SYSTEM) (memory_step sm i s []).
Proof.
  split_fields s; destruct sm; cbn;
    repeat (constructor; [cbn; discriminate|]); constructor.
Qed.

Lemma memory_loop_no_system (sm : bool) (i : nat) (steps : list step_log) :
  Forall (fun m => role m <> SYSTEM) (memory_loop sm i steps []).
Proof.
  revert i. induction steps as [|s steps IH]; intros i; [constructor|].
  rewrite memory_loop_cons. apply Forall_app. split.
  - apply memory_step_no_system.
  - apply IH.
Qed.

Lemma memory_step_summary_erased (i : nat) (s : step_log) (memory : list message) :
  memory_step true i (without_llm_output_and_plan s) memory = memory_step true i s memory.
Proof. split_fields s; reflexivity. Qed.

Lemma memory_step_full_erased (i : nat) (s : step_log) (memory : list message) :
  memory_step false i (without_tool_call s) memory = memory_step false i s memory.
Proof. split_fields s; reflexivity. Qed.

Lemma memory_loop_summary_erased (i : nat) (steps : list step_log)
      (memory : list message) :
  memory_loop true i (map without_llm_output_and_plan steps) memory
  = memory_loop true i steps memory.
Proof.
  revert i memory. induction steps as [|s steps IH]; intros i memory; [reflexivity|].
  cbn [map memory_loop]. rewrite memory_step_summary_erased. apply IH.
Qed.

Lemma memory_loop_full_erased (i : nat) (steps : list step_log)
      (memory : list message) :
  memory_loop false i (map without_tool_call steps) memory
  = memory_loop false i steps memory.
Proof.
  revert i memory. induction steps as [|s steps IH]; intros i memory; [reflexivity|].
  cbn [map memory_loop]. rewrite memory_step_full_erased. apply IH.
Qed.

Lemma tool_call_in_summary_step (i : nat) (s : step_log) (c : pyval) :
  log_tool_call s = Some c ->
  In {| role := ASSISTANT;
        content := "[STEP " ++ str_nat i ++ " TOOL CALL]: " ++ strip (py_str c) |}
     (memory_step true i s []).
Proof.
  intros H. split_fields s; cbn in H; try discriminate; injection H as ->;
    cbn; rewrite ?in_app_iff; cbn; tauto.
Qed.

Lemma llm_output_in_full_step (i : nat) (s : step_log) (o : string) :
  log_llm_output s = Some o ->
  In {| role := ASSISTANT; content := strip o |} (memory_step false i s []).
Proof.
  intros H. split_fields s; cbn in H; try discriminate; injection H as ->;
    cbn; rewrite ?in_app_iff; cbn; tauto.
Qed.

Lemma plan_in_full_step (i : nat) (s : step_log) (p : string) :
  log_plan s = Some p ->
  In {| role := ASSISTANT; content := "[PLAN]:" ++ nl ++ strip p |}
     (memory_step false i s []).
Proof.
  intros H. split_fields s; cbn in H; try discriminate; injection H as ->;
    cbn; rewrite ?in_app_iff; cbn; tauto.
Qed.

End Transcript.

(** C8. On a step log whose first record holds the system prompt and the
    task, [write_inner_memory_from_logs] starts the summary transcript
    with the task message and the full transcript with the system-prompt
    message and the task message. The summary holds no system message,
    does not depend on the raw outputs and plans of the steps, and holds
    the tool call of every step under its step index. The full
    transcript holds the raw output and the plan of every step and does
    not depend on the tool calls. *)
Theorem write_inner_memory_modes :
  forall (E : Env) (self : Agent) (log0 : step_log) (steps : list step_log)
         (sp t : string),
    logs self = log0 :: steps ->
    log_system_prompt log0 = Some sp ->
    log_task log0 = Some t ->
    exists summary full : list message,
      write_inner_memory_from_logs self true
      = Ok ({| role := USER; content := "Task: " ++ t |} :: summary)
      /\ write_inner_memory_from_logs self false
         = Ok ({| role := SYSTEM; content := sp |}
                 :: {| role := USER; content := "Task: " ++ t |} :: full)
      /\ Forall (fun m => role m <> SYSTEM) summary
      /\ (forall self' : Agent,
             logs self' = log0 :: map without_llm_output_and_plan steps ->
             write_inner_memory_from_logs self' true
             = write_inner_memory_from_logs self true)
      /\ (forall (i : nat) (step : step_log) (c : pyval),
             nth_error steps i = Some step -> log_tool_call step = Some c ->
             In {| role := ASSISTANT;
                   content := "[STEP " ++ str_nat i ++ " TOOL CALL]: " ++ strip (py_str c) |}
                summary)
      /\ (forall (i : nat) (step : step_log) (o : string),
             nth_error steps i = Some step -> log_llm_output step = Some o ->
             In {| role := ASSISTANT; content := strip o |} full)
      /\ (forall (i : nat) (step : step_log) (p : string),
             nth_error steps i = Some step -> log_plan step = Some p ->
             In {| role := ASSISTANT; content := "[PLAN]:" ++ nl ++ strip p |} full)
      /\ (forall self' : Agent,
             logs self' = log0 :: map without_tool_call steps ->
             write_inner_memory_from_logs self' false
             = write_inner_memory_from_logs self false).
Proof.
  intros E self log0 steps sp t Hlogs Hsp Ht.
  exists (memory_loop true 0 steps []), (memory_loop false 0 steps []).
  unfold write_inner_memory_from_logs. rewrite Hlogs, Hsp, Ht. cbn [log_item bind].
  repeat split.
  - rewrite memory_loop_app. reflexivity.
  - rewrite memory_loop_app. reflexivity.
  - apply memory_loop_no_system.
  - intros self' H'. rewrite H', Hsp, Ht. cbn [log_item bind].
    rewrite memory_loop_summary_erased. reflexivity.
  - intros i step c Hi Hc. apply (memory_loop_in true steps 0 i step); [exact Hi|].
    apply tool_call_in_summary_step. exact Hc.
  - intros i step o Hi Ho. apply (memory_loop_in false steps 0 i step); [exact Hi|].
    apply llm_output_in_full_step. exact Ho.
  - intros i step p Hi Hp. apply (memory_loop_in false steps 0 i step); [exact Hi|].
    apply plan_in_full_step. exact Hp.
  - intros self' H'. rewrite H', Hsp, Ht. cbn [log_item bind].
    rewrite memory_loop_full_erased. reflexivity.
Qed.

Lemma write_inner_memory_modes_witness :
  exists summary full : list message,
    @write_inner_memory_from_logs sample_env
      (set_logs (sample_agent failing_engine echo_evaluator []) sample_logs) true
    = Ok ({| role := USER; content := "Task: Count the files." |} :: summary)
    /\ @write_inner_memory_from_logs sample_env
         (set_logs (sample_agent failing_engine echo_evaluator []) sample_logs) false
       = Ok ({| role := SYSTEM; content := "You are an agent." |}
               :: {| role := USER; content := "Task: Count the files." |} :: full)
    /\ In {| role := ASSISTANT; content := "[STEP 1 TOOL CALL]: wc" |} summary
    /\ In {| role := ASSISTANT; content := "I will list the directory." |} full.
Proof.
  destruct (write_inner_memory_modes
              sample_env
              (set_logs (sample_agent failing_engine echo_evaluator []) sample_logs)
              (hd empty_log sample_logs) (tl sample_logs)
              "You are an agent." "Count the files." eq_refl eq_refl eq_refl)
    as [summary [full [Hs [Hf [_ [_ [Hcall [Hout _]]]]]]]].
  exists summary, full. repeat split.
  - exact Hs.
  - exact Hf.
  - exact (Hcall 1 _ (PStr "wc") eq_refl eq_refl).
  - exact (Hout 0 _ " I will list the directory. " eq_refl eq_refl).
Defined.

Example write_inner_memory_sample :
  @write_inner_memory_from_logs sample_env
    (set_logs (sample_agent failing_engine echo_evaluator []) sample_logs) true
  = Ok [ {| role := USER; content := "Task: Count the files." |};
         {| role := ASSISTANT; content := "[STEP 0 TOOL CALL]: ls" |};
         {| role := ASSISTANT; content := "[STEP 1 TOOL CALL]: wc" |};
         {| role := TOOL_RESPONSE; content := "[OUTPUT OF STEP 1] Observation:" ++ nl ++ "3" |} ]
  /\ @write_inner_memory_from_logs sample_env
       (set_logs (sample_agent failing_engine echo_evaluator []) sample_logs) false
     = Ok [ {| role := SYSTEM; content := "You are an agent." |};
            {| role := USER; content := "Task: Count the files." |};
            {| role := ASSISTANT; content := "I will list the directory." |};
            {| role := ASSISTANT; content := "[PLAN]:" ++ nl ++ "1. list 2. count" |};
            {| role := TOOL_RESPONSE; content := "[OUTPUT OF STEP 1] Observation:" ++ nl ++ "3" |} ].
Proof. split; reflexivity. Qed.

(* ================================================================== *)
(** ** Facts about dictionaries *)

Section DictFacts.
Context {V : Type}.
Implicit Types (d : Dict.dict V) (k : string) (v : V).

Lemma get_set_same k v d : Dict.get k (Dict.set k v d) = Some v.
Proof.
  induction d as [|[k' v'] d IH]; cbn.
  - rewrite String.eqb_refl. reflexivity.
  - destruct (String.eqb_spec k k') as [->|Hne]; cbn.
    + rewrite String.eqb_refl. reflexivity.
    + apply String.eqb_neq in Hne. rewrite Hne. exact IH.
Qed.

Lemma get_set_other k k' v d :
  k <> k' -> Dict.get k' (Dict.set k v d) = Dict.get k' d.
Proof.
  intros Hne. induction d as [|[k0 v0] d IH]; cbn.
  - destruct (String.eqb_spec k' k); [congruence | reflexivity].
  - destruct (String.eqb_spec k k0) as [->|Hk]; cbn.
    + destruct (String.eqb_spec k' k0); [congruence | reflexivity].
    + destruct (String.eqb_spec k' k0); [reflexivity | exact IH].
Qed.

Lemma mem_in_keys k d : Dict.mem k d = true <-> In k (Dict.keys d).
Proof.
  unfold Dict.mem. induction d as [|[k' v'] d IH]; cbn.
  - split; [discriminate | tauto].
  - destruct (String.eqb_spec k k') as [->|Hne].
    + split; auto.
    + rewrite IH. split; [auto | intros [H|H]; [congruence | exact H]].
Qed.

Lemma get_some_in_keys k v d : Dict.get k d = Some v -> In k (Dict.keys d).
Proof. intros H. apply mem_in_keys. unfold Dict.mem. rewrite H. reflexivity. Qed.

Lemma keys_set_mem k v d :
  In k (Dict.keys d) -> Dict.keys (Dict.set k v d) = Dict.keys d.
Proof.
  induction d as [|[k' v'] d IH]; cbn; [tauto|].
  intros H. destruct (String.eqb_spec k k') as [->|Hne]; cbn; [reflexivity|].
  f_equal. apply IH. destruct H; [congruence | assumption].
Qed.

Lemma keys_set_new k v d :
  ~ In k (Dict.keys d) -> Dict.keys (Dict.set k v d) = (Dict.keys d ++ [k])%list.
Proof.
  induction d as [|[k' v'] d IH]; cbn; [reflexivity|].
  intros H. destruct (String.eqb_spec k k') as [->|Hne]; [tauto|].
  cbn. f_equal. apply IH. tauto.
Qed.

Lemma NoDup_keys_set k v d :
  NoDup (Dict.keys d) -> NoDup (Dict.keys (Dict.set k v d)).
Proof.
  intros H. destruct (in_dec string_dec k (Dict.keys d)) as [Hin|Hout].
  - rewrite keys_set_mem; assumption.
  - rewrite keys_set_new by assumption.
    apply NoDup_app; [assumption | repeat constructor; cbn; tauto |].
    intros x Hx [<-|[]]. contradiction.
Qed.

Lemma NoDup_keys_fold_set (l : list (string * V)) d :
  NoDup (Dict.keys d) ->
  NoDup (Dict.keys (fold_left (fun acc kv => Dict.set (fst kv) (snd kv) acc) l d)).
Proof.
  revert d. induction l as [|a l IH]; intros d H; cbn; [assumption|].
  apply IH, NoDup_keys_set, H.
Qed.

Lemma NoDup_keys_of_pairs (l : list (string * V)) :
  NoDup (Dict.keys (Dict.of_pairs l)).
Proof. apply NoDup_keys_fold_set. constructor. Qed.

Lemma find_app_last {A : Type} (P : A -> bool) (l : list A) (a : A) :
  List.find P (l ++ [a])
  = match List.find P l with
    | Some x => Some x
    | None => if P a then Some a else None
    end.
Proof.
  induction l as [|b l IH]; cbn; [reflexivity|].
  destruct (P b); [reflexivity | exact IH].
Qed.

(** A dictionary built by successive assignments holds, under a key,
    the value of the last pair that bears it. *)
Lemma get_fold_set (l : list (string * V)) d k :
  Dict.get k (fold_left (fun acc kv => Dict.set (fst kv) (snd kv) acc) l d)
  = match List.find (fun kv => String.eqb (fst kv) k) (rev l) with
    | Some kv => Some (snd kv)
    | None => Dict.get k d
    end.
Proof.
  revert d. induction l as [|a l IH]; intros d; [reflexivity|].
  cbn [fold_left rev]. rewrite IH, find_app_last.
  destruct (List.find (fun kv => String.eqb (fst kv) k) (rev l)); [reflexivity|].
  destruct (String.eqb_spec (fst a) k) as [<-|Hne].
  - apply get_set_same.
  - apply get_set_other. exact Hne.
Qed.

(** In a dictionary without repeated keys every value is the value
    looked up under its key. *)
Lemma forallb_values (P : V -> bool) d :
  NoDup (Dict.keys d) ->
  (forall k, In k (Dict.keys d) -> exists v, Dict.get k d = Some v /\ P v = true) ->
  forallb P (Dict.values d) = true.
Proof.
  induction d as [|[k v] d IH]; intros Hnd H; [reflexivity|].
  cbn in Hnd. inversion Hnd as [|? ? Hout Hnd']; subst.
  cbn [Dict.values map snd forallb]. apply andb_true_iff. split.
  - destruct (H k (or_introl eq_refl)) as [v' [Hg Hp]].
    cbn in Hg. rewrite String.eqb_refl in Hg. injection Hg as <-. exact Hp.
  - apply IH; [exact Hnd'|]. intros k' Hin.
    destruct (H k' (or_intror Hin)) as [v' [Hg Hp]].
    cbn in Hg. destruct (String.eqb_spec k' k) as [->|Hne]; [contradiction|].
    exists v'. split; assumption.
Qed.

Lemma In_pair_get k v d :
  NoDup (Dict.keys d) -> In (k, v) d -> Dict.get k d = Some v.
Proof.
  induction d as [|[k' v'] d IH]; intros Hnd Hin; [contradiction|].
  cbn in Hnd. inversion Hnd as [|? ? Hout Hnd']; subst.
  cbn. destruct Hin as [Heq|Hin].
  - injection Heq as -> ->. rewrite String.eqb_refl. reflexivity.
  - destruct (String.eqb_spec k k') as [->|Hne].
    + exfalso. apply Hout. change k' with (fst (k', v)). apply in_map. exact Hin.
    + apply IH; assumption.
Qed.

End DictFacts.

(* ================================================================== *)
(** ** The tool registry *)

Section RegistryFacts.
Context {E : Env}.

(** The loop of [_load_tools_if_needed], when it ends without an
    exception: the keys stay, the entries visited are concrete, the
    others are untouched. *)
Lemma load_loop_ok (items : list (string * entry)) :
  forall tools tools' : Dict.dict entry,
    NoDup (Dict.keys items) ->
    (forall k e, In (k, e) items -> Dict.get k tools = Some e) ->
    load_loop items tools = (tools', Ok tt) ->
    Dict.keys tools' = Dict.keys tools
    /\ (forall k, In k (Dict.keys items) ->
                  exists t, Dict.get k tools' = Some (Concrete t))
    /\ (forall k, ~ In k (Dict.keys items) -> Dict.get k tools' = Dict.get k tools).
Proof.
  induction items as [|[name tool] rest IH]; intros tools tools' Hnd Hcons Hrun.
  - cbn in Hrun. injection Hrun as <-.
    split; [reflexivity|]. split; [intros k []|reflexivity].
  - cbn in Hnd. inversion Hnd as [|? ? Hout Hnd']; subst.
    assert (Hname : Dict.get name tools = Some tool)
      by (apply Hcons; left; reflexivity).
    cbn [load_loop] in Hrun. destruct tool as [t|p].
    + assert (Hc : forall k e, In (k, e) rest -> Dict.get k tools = Some e)
        by (intros k e Hin; apply Hcons; right; exact Hin).
      destruct (IH tools tools' Hnd' Hc Hrun) as [Hk [Hin Hother]].
      split; [exact Hk|]. split.
      * intros k Hk'. cbn in Hk'. destruct Hk' as [<-|Hk']; [|apply Hin; exact Hk'].
        exists t. rewrite (Hother name Hout). exact Hname.
      * intros k Hk'. apply Hother. intros Habs. apply Hk'. right. exact Habs.
    + destruct (load_tool _) as [t|e|b] eqn:Hload; [|discriminate..].
      assert (Hc : forall k e, In (k, e) rest ->
                               Dict.get k (Dict.set name (Concrete t) tools) = Some e).
      { intros k e Hin. rewrite get_set_other; [apply Hcons; right; exact Hin|].
        intros ->. apply Hout. change k with (fst (k, e)). apply in_map. exact Hin. }
      destruct (IH _ tools' Hnd' Hc Hrun) as [Hk [Hin Hother]].
      split; [|split].
      * rewrite Hk. apply keys_set_mem. eapply get_some_in_keys. exact Hname.
      * intros k Hk'. cbn in Hk'. destruct Hk' as [<-|Hk']; [|apply Hin; exact Hk'].
        exists t. rewrite (Hother name Hout). apply get_set_same.
      * intros k Hk'. rewrite Hother by (intros Habs; apply Hk'; right; exact Habs).
        apply get_set_other. intros ->. apply Hk'. left. reflexivity.
Qed.

(** After [_load_tools_if_needed] has returned, every entry is concrete. *)
Lemma load_tools_all_concrete (self self' : Toolbox) :
  NoDup (Dict.keys (_tools self)) ->
  _load_tools_if_needed self = (self', Ok tt) ->
  all_concrete self' = true /\ Dict.keys (_tools self') = Dict.keys (_tools self).
Proof.
  intros Hnd Hrun. unfold _load_tools_if_needed in Hrun.
  destruct (load_loop (_tools self) (_tools self)) as [tools r] eqn:Hloop.
  injection Hrun as <- ->.
  destruct (load_loop_ok (_tools self) (_tools self) tools Hnd
                         (fun k e Hin => In_pair_get k e _ Hnd Hin) Hloop)
    as [Hk [Hin _]].
  split; [|exact Hk].
  unfold all_concrete. cbn [_tools]. apply forallb_values.
  - rewrite Hk. exact Hnd.
  - intros k Hk'. rewrite Hk in Hk'. destruct (Hin k Hk') as [t Ht].
    exists (Concrete t). split; [exact Ht | reflexivity].
Qed.

(** Loading changes nothing in a registry of concrete tools. *)
Lemma load_loop_concrete (items : list (string * entry)) (tools : Dict.dict entry) :
  forallb isinstance_Tool (Dict.values items) = true ->
  load_loop items tools = (tools, Ok tt).
Proof.
  induction items as [|[name tool] rest IH]; intros H; [reflexivity|].
  cbn in H. apply andb_true_iff in H as [Ht H].
  destruct tool; [|discriminate]. cbn [load_loop]. apply IH. exact H.
Qed.

Lemma add_tool_keys (self self' : Toolbox) (tool : entry) (r : result unit) :
  NoDup (Dict.keys (_tools self)) ->
  add_tool self tool = (self', r) ->
  NoDup (Dict.keys (_tools self')).
Proof.
  intros Hnd H. unfold add_tool in H.
  destruct (Dict.mem (entry_name tool) (_tools self)); injection H as <- _.
  - exact Hnd.
  - cbn [_tools]. apply NoDup_keys_set. exact Hnd.
Qed.

Lemma add_loop_keys (flag : bool) (base : list entry) :
  forall (self self' : Toolbox) (r : result unit),
    NoDup (Dict.keys (_tools self)) ->
    add_loop flag base self = (self', r) ->
    NoDup (Dict.keys (_tools self')).
Proof.
  induction base as [|tool rest IH]; intros self self' r Hnd H.
  - cbn in H. injection H as <- _. exact Hnd.
  - cbn [add_loop] in H.
    destruct (negb (String.eqb (entry_name tool) "python_interpreter") || flag)%bool.
    + destruct (add_tool self tool) as [self1 [u|e|b]] eqn:Hadd.
      * eapply IH; [|exact H]. eapply add_tool_keys; [exact Hnd | exact Hadd].
      * injection H as <- _. eapply add_tool_keys; [exact Hnd | exact Hadd].
      * injection H as <- _. eapply add_tool_keys; [exact Hnd | exact Hadd].
    + eapply IH; [exact Hnd | exact H].
Qed.

(** [add_defaults] leaves the globals as they are. *)
Lemma add_defaults_globals (g : Globals) (self : Toolbox) (flag : bool) :
  fst (fst (add_defaults g self flag)) = g.
Proof.
  unfold add_defaults.
  destruct (add_loop _ _ _) as [s [u|e|b]]; [|reflexivity..].
  destruct (_load_tools_if_needed s). reflexivity.
Qed.

(** A call of [add_base_tools] that returns has run its loop on the
    defaults that the globals hold afterwards: those they held before,
    or, at the first call, those that the imported function gives. *)
Lemma add_base_tools_inv (g g' : Globals) (self self' : Toolbox) (flag : bool) :
  add_base_tools g self flag = (g', self', Ok tt) ->
  _tools_are_initialized g' = true
  /\ add_defaults g' self flag = (g', self', Ok tt)
  /\ (if _tools_are_initialized g then g' = g
      else imported_setup_default_tools = Ok (HUGGINGFACE_DEFAULT_TOOLS g')).
Proof.
  unfold add_base_tools. destruct (_tools_are_initialized g) eqn:Hinit; cbn [negb].
  - intros H. pose proof (add_defaults_globals g self flag) as Hg.
    rewrite H in Hg. cbn [fst] in Hg. subst g'. repeat split; assumption.
  - destruct imported_setup_default_tools as [d|e|b]; [|discriminate..].
    intros H.
    pose proof (add_defaults_globals
                  {| HUGGINGFACE_DEFAULT_TOOLS := d; _tools_are_initialized := true |}
                  self flag) as Hg.
    rewrite H in Hg. cbn [fst] in Hg. subst g'. repeat split. exact H.
Qed.

(** Once the globals are initialized, [add_base_tools] is its loop and
    the loading. *)
Lemma add_base_tools_initialized (g : Globals) (self : Toolbox) (flag : bool) :
  _tools_are_initialized g = true ->
  add_base_tools g self flag = add_defaults g self flag.
Proof. intros H. unfold add_base_tools. rewrite H. reflexivity. Qed.

Lemma add_defaults_steps (g g' : Globals) (self self' : Toolbox) (flag : bool) :
  add_defaults g self flag = (g', self', Ok tt) ->
  exists self1,
    add_loop flag (Dict.values (HUGGINGFACE_DEFAULT_TOOLS g)) self = (self1, Ok tt)
    /\ _load_tools_if_needed self1 = (self', Ok tt).
Proof.
  unfold add_defaults. intros H.
  destruct (add_loop _ _ _) as [s [[]|e|b]] eqn:Hadd; [|discriminate..].
  destruct (_load_tools_if_needed s) as [s' r] eqn:Hload.
  injection H as _ <- ->. exists s. split; [reflexivity | exact Hload].
Qed.

Lemma add_base_tools_all_concrete
      (g g' : Globals) (self self' : Toolbox) (flag : bool) :
  NoDup (Dict.keys (_tools self)) ->
  add_base_tools g self flag = (g', self', Ok tt) ->
  all_concrete self' = true /\ NoDup (Dict.keys (_tools self')).
Proof.
  intros Hnd H. destruct (add_base_tools_inv _ _ _ _ _ H) as [_ [Hd _]].
  destruct (add_defaults_steps _ _ _ _ _ Hd) as [self1 [Hadd Hload]].
  pose proof (add_loop_keys _ _ _ _ _ Hnd Hadd) as Hnd1.
  destruct (load_tools_all_concrete self1 self' Hnd1 Hload) as [Hc Hk].
  split; [exact Hc | rewrite Hk; exact Hnd1].
Qed.

Lemma set_new_app {V : Type} (k : string) (v : V) (d : Dict.dict V) :
  ~ In k (Dict.keys d) -> Dict.set k v d = (d ++ [(k, v)])%list.
Proof.
  induction d as [|[k' v'] d IH]; cbn; [reflexivity|].
  intros H. destruct (String.eqb_spec k k') as [->|Hne]; [tauto|].
  f_equal. apply IH. tauto.
Qed.

(** The loop of [add_base_tools] up to a clash of names: the defaults
    that pass the test before the clash are stored as they are, after
    the entries of the registry, and the loop ends there with the
    error of [add_tool]. *)
Lemma add_loop_until_clash (flag : bool) (pre : list entry) (clash : entry)
      (post : list entry) :
  forall self : Toolbox,
    NoDup (Dict.keys (_tools self)
             ++ map entry_name (filter (selected_default flag) pre))%list ->
    selected_default flag clash = true ->
    In (entry_name clash)
       (Dict.keys (_tools self)
          ++ map entry_name (filter (selected_default flag) pre))%list ->
    add_loop flag (pre ++ clash :: post) self
    = ({| _tools := (_tools self
                       ++ map (fun e => (entry_name e, e))
                              (filter (selected_default flag) pre))%list |},
       Raise (KeyError_of ("Error: tool '" ++ entry_name clash
                             ++ "' already exists in the toolbox."))).
Proof.
  induction pre as [|e pre IH]; intros self Hnd Hsel Hin.
  - cbn [app filter map] in *. rewrite app_nil_r in *.
    cbn [add_loop]. fold (selected_default flag clash). rewrite Hsel.
    unfold add_tool. apply mem_in_keys in Hin. rewrite Hin.
    destruct self. reflexivity.
  - cbn [app add_loop filter]. cbn [filter] in Hnd, Hin.
    fold (selected_default flag e).
    destruct (selected_default flag e) eqn:He.
    + cbn [map] in Hnd, Hin.
      assert (Hout : ~ In (entry_name e) (Dict.keys (_tools self))).
      { apply NoDup_remove_2 in Hnd. intros Habs. apply Hnd.
        apply in_or_app. left. exact Habs. }
      unfold add_tool.
      destruct (Dict.mem (entry_name e) (_tools self)) eqn:Hm;
        [apply mem_in_keys in Hm; contradiction|].
      rewrite (set_new_app _ _ _ Hout).
      rewrite IH; cbn [_tools].
      * cbn [map]. rewrite <- app_assoc. reflexivity.
      * unfold Dict.keys in *. rewrite map_app, <- app_assoc. exact Hnd.
      * exact Hsel.
      * unfold Dict.keys in *. rewrite map_app, <- app_assoc. exact Hin.
    + apply IH; assumption.
Qed.

Lemma Toolbox_init_all_concrete
      (g g' : Globals) (tools : list entry) (add_base : bool) (tb : Toolbox) :
  Toolbox_init g tools add_base = (g', Ok tb) -> all_concrete tb = true.
Proof.
  unfold Toolbox_init. intros H.
  set (self0 := {| _tools := Dict.of_pairs (map (fun tool => (entry_name tool, tool)) tools) |}) in H.
  assert (Hnd0 : NoDup (Dict.keys (_tools self0))) by apply NoDup_keys_of_pairs.
  destruct add_base.
  - destruct (add_base_tools g self0 false) as [[g1 self1] [[]|e|b]] eqn:Hbase;
      [|discriminate..].
    destruct (add_base_tools_all_concrete _ _ _ _ _ Hnd0 Hbase) as [_ Hnd1].
    destruct (_load_tools_if_needed self1) as [self2 [[]|e|b]] eqn:Hload; [|discriminate..].
    injection H as _ <-.
    apply (load_tools_all_concrete self1 self2 Hnd1 Hload).
  - destruct (_load_tools_if_needed self0) as [self2 [[]|e|b]] eqn:Hload; [|discriminate..].
    injection H as _ <-.
    apply (load_tools_all_concrete self0 self2 Hnd0 Hload).
Qed.

(** When the loader answers every request, the loop ends without an
    exception. *)
Lemma load_loop_total (items : list (string * entry)) :
  (forall id, exists t, load_tool id = Ok t) ->
  forall tools, exists tools', load_loop items tools = (tools', Ok tt).
Proof.
  intros Hload. induction items as [|[name tool] rest IH]; intros tools.
  - exists tools. reflexivity.
  - cbn [load_loop]. destruct tool as [t|p]; [apply IH|].
    destruct (Hload (match PreTool.repo_id p with
                     | Some r => r
                     | None => PreTool.task p
                     end)) as [t Ht].
    rewrite Ht. apply IH.
Qed.

Lemma add_tool_stores (self self' : Toolbox) (tool : entry) :
  add_tool self tool = (self', Ok tt) ->
  Dict.get (entry_name tool) (_tools self') = Some tool.
Proof.
  unfold add_tool. destruct (Dict.mem (entry_name tool) (_tools self)); [discriminate|].
  intros H. injection H as <-. apply get_set_same.
Qed.

Lemma update_tool_stores (self self' : Toolbox) (tool : entry) :
  update_tool self tool = (self', Ok tt) ->
  Dict.get (entry_name tool) (_tools self') = Some tool.
Proof.
  unfold update_tool.
  destruct (negb (Dict.mem (entry_name tool) (_tools self))); [discriminate|].
  intros H. injection H as <-. apply get_set_same.
Qed.

End RegistryFacts.

(** C5 (amended). After the construction of a [Toolbox] and after
    [add_base_tools], when they return, every entry of the registry is a
    concrete [Tool]: the deferred references, the base ones and those of
    the initial list, have been materialized by the loader; and the
    construction does return when the loader answers every request.
    When [add_base_tools] comes to a default whose name is taken, it
    raises the error of [add_tool] without loading anything: the
    defaults it has stored before stay in the registry as they are,
    deferred references included. [add_tool] and [update_tool] store
    the entry they are given as it is. *)
Theorem toolbox_materializes_on_init_and_base_tools :
  (forall (E : Env) (g g' : Globals) (tools : list entry) (add_base : bool)
          (tb : Toolbox),
      Toolbox_init g tools add_base = (g', Ok tb) -> all_concrete tb = true)
  /\ (forall (E : Env) (g g' : Globals) (self self' : Toolbox) (flag : bool),
         NoDup (Dict.keys (_tools self)) ->
         add_base_tools g self flag = (g', self', Ok tt) ->
         all_concrete self' = true)
  /\ (forall (E : Env) (g : Globals) (tools : list entry),
         (forall id, exists t, load_tool id = Ok t) ->
         exists tb, Toolbox_init g tools false = (g, Ok tb))
  /\ (forall (E : Env) (g : Globals) (self : Toolbox) (flag : bool)
             (default_tools : Dict.dict entry) (pre : list entry) (clash : entry)
             (post : list entry),
         (if _tools_are_initialized g then HUGGINGFACE_DEFAULT_TOOLS g = default_tools
          else imported_setup_default_tools = Ok default_tools) ->
         Dict.values default_tools = (pre ++ clash :: post)%list ->
         NoDup (Dict.keys (_tools self)
                  ++ map entry_name (filter (selected_default flag) pre))%list ->
         selected_default flag clash = true ->
         In (entry_name clash)
            (Dict.keys (_tools self)
               ++ map entry_name (filter (selected_default flag) pre))%list ->
         add_base_tools g self flag
         = (if _tools_are_initialized g then g
            else {| HUGGINGFACE_DEFAULT_TOOLS := default_tools;
                    _tools_are_initialized := true |},
            {| _tools := (_tools self
                            ++ map (fun e => (entry_name e, e))
                                   (filter (selected_default flag) pre))%list |},
            Raise (KeyError_of ("Error: tool '" ++ entry_name clash
                                  ++ "' already exists in the toolbox."))))
  /\ (forall (self self' : Toolbox) (tool : entry),
         add_tool self tool = (self', Ok tt) ->
         Dict.get (entry_name tool) (_tools self') = Some tool)
  /\ (forall (self self' : Toolbox) (tool : entry),
         update_tool self tool = (self', Ok tt) ->
         Dict.get (entry_name tool) (_tools self') = Some tool).
Proof.
  split; [|split; [|split; [|split; [|split]]]].
  - intros E g g' tools add_base tb H.
    apply (Toolbox_init_all_concrete g g' tools add_base tb H).
  - intros E g g' self self' flag Hnd H.
    apply (add_base_tools_all_concrete g g' self self' flag Hnd H).
  - intros E g tools Hload. unfold Toolbox_init, _load_tools_if_needed.
    destruct (load_loop_total
                (Dict.of_pairs (map (fun tool => (entry_name tool, tool)) tools)) Hload
                (Dict.of_pairs (map (fun tool => (entry_name tool, tool)) tools)))
      as [tools' Hrun].
    cbn [_tools]. rewrite Hrun. eexists. reflexivity.
  - intros E g self flag d pre clash post Hd Hv Hnd Hsel Hin.
    unfold add_base_tools.
    destruct (_tools_are_initialized g); cbn [negb]; [subst d | rewrite Hd];
      unfold add_defaults; cbn [HUGGINGFACE_DEFAULT_TOOLS]; rewrite Hv;
      rewrite (add_loop_until_clash flag pre clash post self Hnd Hsel Hin);
      reflexivity.
  - apply add_tool_stores.
  - apply update_tool_stores.
Qed.

Lemma toolbox_materializes_on_init_and_base_tools_witness :
  (exists tb,
      snd (@Toolbox_init sample_env initial_globals
                         [Deferred sample_pretool; Concrete first_search] false)
      = Ok tb
      /\ all_concrete tb = true
      /\ Dict.keys (_tools tb) = ["translator"; "search"])
  /\ (exists g' self',
         @add_base_tools sample_env initial_globals
                         {| _tools := [("transcriber", Concrete (sample_tool "transcriber"))] |}
                         false
         = (g', self',
            Raise (KeyError_of "Error: tool 'transcriber' already exists in the toolbox."))
         /\ Dict.keys (_tools self') = ["transcriber"; "document_qa"; "image_qa"]
         /\ all_concrete self' = false).
Proof.
  split.
  - destruct (@Toolbox_init sample_env initial_globals
                            [Deferred sample_pretool; Concrete first_search] false)
      as [g' [tb|e|b]] eqn:H.
    + exists tb. split; [reflexivity|]. split.
      * exact (proj1 toolbox_materializes_on_init_and_base_tools
                     sample_env initial_globals g' _ false tb H).
      * vm_compute in H. injection H as _ <-. reflexivity.
    + vm_compute in H. discriminate H.
    + vm_compute in H. discriminate H.
  - eexists. eexists. split; [|split].
    + refine (proj1 (proj2 (proj2 (proj2 toolbox_materializes_on_init_and_base_tools)))
                    sample_env initial_globals
                    {| _tools := [("transcriber", Concrete (sample_tool "transcriber"))] |}
                    false _
                    (firstn 2 (Dict.values (@setup_default_tools sample_env)))
                    (nth 2 (Dict.values (@setup_default_tools sample_env))
                         (Concrete (sample_tool EmptyString)))
                    (skipn 3 (Dict.values (@setup_default_tools sample_env)))
                    eq_refl eq_refl _ eq_refl _).
      * repeat constructor; cbn; intuition discriminate.
      * cbn. tauto.
    + reflexivity.
    + reflexivity.
Defined.

Example Toolbox_init_with_base_tools :
  option_map (fun tb => (Dict.keys (_tools tb), all_concrete tb))
             (match snd (@Toolbox_init sample_env initial_globals
                                       [Concrete first_search] true) with
              | Ok tb => Some tb
              | _ => None
              end)
  = Some (["search"; "document_qa"; "image_qa"; "transcriber"; "text_reader"; "translator"],
          true).
Proof. reflexivity. Qed.

Example Toolbox_init_base_tool_clash :
  snd (@Toolbox_init sample_env initial_globals [Deferred sample_pretool] true)
  = Raise (Exn KeyError
               (String "034" ("Error: tool 'translator' already exists in the toolbox."
                                ++ String "034" EmptyString))).
Proof. reflexivity. Qed.

(** C5, as stated, fails for [add_tool] and [update_tool]: neither calls
    the loader, and a deferred reference stays in the registry. *)
Lemma add_tool_keeps_deferred_reference :
  add_tool {| _tools := [] |} (Deferred sample_pretool)
  = ({| _tools := [("translator", Deferred sample_pretool)] |}, Ok tt)
  /\ all_concrete {| _tools := [("translator", Deferred sample_pretool)] |} = false
  /\ update_tool {| _tools := [("translator", Concrete (sample_tool "translator"))] |}
                 (Deferred sample_pretool)
     = ({| _tools := [("translator", Deferred sample_pretool)] |}, Ok tt).
Proof. repeat split. Qed.

(* ================================================================== *)
(** ** Duplicate names at construction *)

Section Duplicates.
Context {E : Env}.

Lemma forallb_values_set {V : Type} (P : V -> bool) (k : string) (v : V)
      (d : Dict.dict V) :
  P v = true -> forallb P (Dict.values d) = true ->
  forallb P (Dict.values (Dict.set k v d)) = true.
Proof.
  intros Hv. induction d as [|[k' v'] d IH]; cbn; intros H.
  - rewrite Hv. reflexivity.
  - apply andb_true_iff in H as [H1 H2].
    destruct (String.eqb k k'); cbn.
    + rewrite Hv. exact H2.
    + rewrite H1. exact (IH H2).
Qed.

Lemma forallb_values_fold {V : Type} (P : V -> bool) (l : list (string * V))
      (d : Dict.dict V) :
  Forall (fun kv => P (snd kv) = true) l -> forallb P (Dict.values d) = true ->
  forallb P (Dict.values (fold_left (fun acc kv => Dict.set (fst kv) (snd kv) acc) l d))
  = true.
Proof.
  revert d. induction l as [|a l IH]; intros d Hl Hd; [exact Hd|].
  inversion Hl; subst. cbn [fold_left]. apply IH; [assumption|].
  apply forallb_values_set; assumption.
Qed.

Lemma find_map {A B : Type} (f : A -> B) (P : B -> bool) (l : list A) :
  List.find P (map f l) = option_map f (List.find (fun a => P (f a)) l).
Proof.
  induction l as [|a l IH]; [reflexivity|]. cbn.
  destruct (P (f a)); [reflexivity | exact IH].
Qed.

Lemma get_named_entries (ts : list Tool) (n : string) :
  Dict.get n (Dict.of_pairs (named_entries ts)) = option_map Concrete (last_named n ts).
Proof.
  unfold Dict.of_pairs, named_entries, last_named.
  rewrite get_fold_set, map_map, <- map_rev, find_map. cbn [fst entry_name].
  destruct (List.find _ (rev ts)); reflexivity.
Qed.

Lemma last_named_some (ts : list Tool) (t : Tool) :
  In t ts -> exists t', last_named (tool_name t) ts = Some t'.
Proof.
  intros Hin. unfold last_named.
  destruct (List.find _ (rev ts)) as [t'|] eqn:Hf; [exists t'; reflexivity|].
  apply in_rev in Hin. apply (find_none _ _ Hf t) in Hin.
  rewrite String.eqb_refl in Hin. discriminate.
Qed.

Lemma filter_filter_and {A : Type} (f g : A -> bool) (l : list A) :
  filter f (filter g l) = filter (fun x => g x && f x) l.
Proof.
  induction l as [|a l IH]; [reflexivity|]. cbn.
  destruct (g a); cbn; [destruct (f a); cbn; congruence | exact IH].
Qed.

Lemma mem_set {V : Type} (y k : string) (v : V) (d : Dict.dict V) :
  Dict.mem y (Dict.set k v d) = (String.eqb y k || Dict.mem y d)%bool.
Proof.
  unfold Dict.mem. destruct (String.eqb_spec y k) as [->|Hne].
  - rewrite get_set_same. reflexivity.
  - rewrite get_set_other by congruence. reflexivity.
Qed.

(** A fold of assignments keeps the keys of the dictionary and adds the
    new ones in the order in which they come first. *)
Lemma keys_fold_set {V : Type} (l : list (string * V)) :
  forall d : Dict.dict V,
    Dict.keys (fold_left (fun acc kv => Dict.set (fst kv) (snd kv) acc) l d)
    = (Dict.keys d
         ++ filter (fun y => negb (Dict.mem y d)) (first_occurrences (map fst l)))%list.
Proof.
  induction l as [|[k v] l IH]; intros d.
  - cbn. rewrite app_nil_r. reflexivity.
  - cbn [fold_left fst snd map first_occurrences filter]. rewrite IH.
    rewrite filter_filter_and.
    assert (Hext : filter (fun y => negb (Dict.mem y (Dict.set k v d)))
                          (first_occurrences (map fst l))
                   = filter (fun x => negb (String.eqb x k) && negb (Dict.mem x d))
                            (first_occurrences (map fst l))).
    { apply filter_ext. intros y. rewrite mem_set. apply negb_orb. }
    rewrite Hext. destruct (Dict.mem k d) eqn:Hm; cbn [negb].
    + rewrite keys_set_mem by (apply mem_in_keys; exact Hm). reflexivity.
    + rewrite keys_set_new
        by (intros Habs; apply mem_in_keys in Habs; congruence).
      rewrite <- app_assoc. reflexivity.
Qed.

Lemma keys_of_pairs {V : Type} (l : list (string * V)) :
  Dict.keys (Dict.of_pairs l) = first_occurrences (map fst l).
Proof.
  unfold Dict.of_pairs. rewrite keys_fold_set. cbn [Dict.keys map app].
  rewrite <- (filter_ext (fun _ => true)) by reflexivity.
  induction (first_occurrences (map fst l)) as [|x xs IH]; [reflexivity|].
  cbn. f_equal. exact IH.
Qed.

End Duplicates.

(** C10. The construction of a [Toolbox] from a list of tools raises no
    error, whatever names repeat in the list. The registry holds each
    name of the list once, at the place where the name comes first, and
    under it the last tool of the list that bears it, and nothing else.
    On that registry [add_tool] raises the duplicate-name error for
    every tool of the list. *)
Theorem Toolbox_init_keeps_last_of_duplicates :
  forall (E : Env) (g : Globals) (ts : list Tool),
  exists tb : Toolbox,
    Toolbox_init g (map Concrete ts) false = (g, Ok tb)
    /\ Dict.keys (_tools tb) = first_occurrences (map tool_name ts)
    /\ NoDup (Dict.keys (_tools tb))
    /\ (forall n : string,
           Dict.get n (_tools tb) = option_map Concrete (last_named n ts))
    /\ (forall (n : string) (e : entry),
           In (n, e) (_tools tb) ->
           exists t : Tool, e = Concrete t /\ last_named n ts = Some t)
    /\ (forall t : Tool,
           In t ts ->
           add_tool tb (Concrete t)
           = (tb, Raise (Exn KeyError
                           (repr_str ("Error: tool '" ++ tool_name t
                                        ++ "' already exists in the toolbox."))))).
Proof.
  intros E g ts.
  exists {| _tools := Dict.of_pairs (named_entries ts) |}.
  assert (Hnd : NoDup (Dict.keys (Dict.of_pairs (named_entries ts))))
    by apply NoDup_keys_of_pairs.
  split; [|split; [|split; [|split; [|split]]]].
  - unfold Toolbox_init, _load_tools_if_needed. cbn [_tools].
    fold (named_entries ts). rewrite load_loop_concrete; [reflexivity|].
    apply forallb_values_fold; [|reflexivity].
    unfold named_entries. rewrite map_map. apply Forall_map, Forall_forall.
    intros t _. reflexivity.
  - cbn [_tools]. rewrite keys_of_pairs. unfold named_entries.
    rewrite !map_map. reflexivity.
  - exact Hnd.
  - intros n. apply get_named_entries.
  - intros n e Hin. cbn [_tools] in Hin.
    pose proof (In_pair_get n e _ Hnd Hin) as Hget.
    rewrite get_named_entries in Hget.
    destruct (last_named n ts) as [t|]; [|discriminate].
    injection Hget as <-. exists t. split; reflexivity.
  - intros t Hin. unfold add_tool. cbn [_tools entry_name]. unfold Dict.mem.
    rewrite get_named_entries. destruct (last_named_some ts t Hin) as [t' ->].
    reflexivity.
Qed.

Lemma Toolbox_init_keeps_last_of_duplicates_witness :
  exists tb : Toolbox,
    @Toolbox_init sample_env initial_globals
                  (map Concrete [first_search; path_tool; second_search]) false
    = (initial_globals, Ok tb)
    /\ _tools tb = [("search", Concrete second_search); ("image_loader", Concrete path_tool)]
    /\ add_tool tb (Concrete first_search)
       = (tb, Raise (Exn KeyError
                         (String "034" ("Error: tool 'search' already exists in the toolbox."
                                          ++ String "034" EmptyString)))).
Proof.
  destruct (Toolbox_init_keeps_last_of_duplicates
              sample_env initial_globals [first_search; path_tool; second_search])
    as [tb [Hinit [Hkeys [Hnd [Hget [Honly Hadd]]]]]].
  exists tb. split; [exact Hinit|]. split.
  - vm_compute in Hinit. injection Hinit as <-. reflexivity.
  - exact (Hadd first_search (or_introl eq_refl)).
Defined.

(* ================================================================== *)
(** ** Execution of a tool call *)

Section Execution.
Context {E : Env}.

Lemma heap_get_set_same (h : heap) (l : loc) (d d' : Dict.dict pyval) :
  heap_get h l = Some d -> heap_get (heap_set h l d') l = Some d'.
Proof.
  unfold heap_get. revert l. induction h as [|x h IH]; intros l H.
  - destruct l; discriminate.
  - destruct l as [|l]; cbn in *; [reflexivity | apply IH; exact H].
Qed.

Lemma heap_get_set_other (h : heap) (l l' : loc) (d : Dict.dict pyval) :
  l <> l' -> heap_get (heap_set h l d) l' = heap_get h l'.
Proof.
  unfold heap_get. revert l l'. induction h as [|x h IH]; intros l l' Hne.
  - reflexivity.
  - destruct l as [|l], l' as [|l']; cbn; try reflexivity; [congruence|].
    apply IH. congruence.
Qed.

Lemma heap_set_same (h : heap) (l : loc) (d : Dict.dict pyval) :
  heap_get h l = Some d -> heap_set h l d = h.
Proof.
  unfold heap_get. revert l. induction h as [|x h IH]; intros l H.
  - reflexivity.
  - destruct l as [|l]; cbn in *; [congruence | f_equal; apply IH; exact H].
Qed.

Lemma heap_set_set (h : heap) (l : loc) (d d' : Dict.dict pyval) :
  heap_set (heap_set h l d) l d' = heap_set h l d'.
Proof.
  revert l. induction h as [|x h IH]; intros l; [reflexivity|].
  destruct l as [|l]; cbn; [reflexivity | f_equal; apply IH].
Qed.

Lemma get_app_notin {V : Type} (k : string) (pre d : Dict.dict V) :
  ~ In k (Dict.keys pre) -> Dict.get k (pre ++ d)%list = Dict.get k d.
Proof.
  induction pre as [|[k' v'] pre IH]; intros H; [reflexivity|].
  cbn in *. destruct (String.eqb_spec k k') as [->|Hne]; [tauto|].
  apply IH. tauto.
Qed.

Lemma set_app_notin {V : Type} (k : string) (v : V) (pre d : Dict.dict V) :
  ~ In k (Dict.keys pre) -> Dict.set k v (pre ++ d)%list = (pre ++ Dict.set k v d)%list.
Proof.
  induction pre as [|[k' v'] pre IH]; intros H; [reflexivity|].
  cbn in *. destruct (String.eqb_spec k k') as [->|Hne]; [tauto|].
  f_equal. apply IH. tauto.
Qed.

(** One turn of the loop writes the dereferenced value in place. *)
Lemma deref_entry_in_place (st pre rest : Dict.dict pyval) (k : string) (v : pyval) :
  ~ In k (Dict.keys pre) ->
  match v with
  | PStr s =>
      match Dict.get s st with
      | Some stored => Dict.set k stored (pre ++ (k, v) :: rest)%list
      | None => (pre ++ (k, v) :: rest)%list
      end
  | _ => (pre ++ (k, v) :: rest)%list
  end
  = ((pre ++ [(k, deref_value st v)]) ++ rest)%list.
Proof.
  intros Hk. rewrite <- app_assoc. cbn [app].
  destruct v; try reflexivity. cbn [deref_value].
  destruct (Dict.get s st); [|reflexivity].
  rewrite set_app_notin by exact Hk. cbn. rewrite String.eqb_refl. reflexivity.
Qed.

(** The loop of [execute_tool_call], when the arguments and the state
    are two objects: it leaves the arguments mapping dereferenced. *)
Lemma deref_loop_in_place (self : Agent) (l sl : loc) (st : Dict.dict pyval) :
  state self = Some sl -> l <> sl ->
  forall (rest pre : Dict.dict pyval) (h : heap),
    heap_get h sl = Some st ->
    heap_get h l = Some (pre ++ rest)%list ->
    NoDup (Dict.keys (pre ++ rest)%list) ->
    deref_loop self (Dict.keys rest) l h
    = (heap_set h l (pre ++ deref_args st rest)%list, Ok tt).
Proof.
  intros Hst Hne. induction rest as [|[k v] rest IH]; intros pre h Hs Hl Hnd.
  - cbn. rewrite heap_set_same by exact Hl. reflexivity.
  - assert (Hk : ~ In k (Dict.keys pre)).
    { unfold Dict.keys in Hnd. rewrite map_app in Hnd. cbn in Hnd.
      apply NoDup_remove_2 in Hnd. intros Hin. apply Hnd.
      apply in_or_app. left. exact Hin. }
    assert (Hnd' : NoDup (Dict.keys ((pre ++ [(k, deref_value st v)]) ++ rest)%list)).
    { unfold Dict.keys in *. rewrite <- app_assoc. rewrite !map_app in *. exact Hnd. }
    cbn [Dict.keys map fst deref_loop]. fold (Dict.keys rest).
    rewrite Hl, get_app_notin by exact Hk. cbn [Dict.get]. rewrite String.eqb_refl.
    pose proof (deref_entry_in_place st pre rest k v Hk) as Hentry.
    transitivity
      (deref_loop self (Dict.keys rest) l
                  (heap_set h l ((pre ++ [(k, deref_value st v)]) ++ rest)%list)).
    + destruct v as [| | | |s| | |];
        try (rewrite <- Hentry, (heap_set_same _ _ _ Hl); reflexivity).
      rewrite Hst, Hs. destruct (Dict.get s st) as [stored|].
      * rewrite Hentry. reflexivity.
      * rewrite <- Hentry, (heap_set_same _ _ _ Hl). reflexivity.
    + rewrite (IH (pre ++ [(k, deref_value st v)])%list).
      * rewrite heap_set_set, <- app_assoc. reflexivity.
      * rewrite heap_get_set_other by exact Hne. exact Hs.
      * apply (heap_get_set_same h l _ _ Hl).
      * exact Hnd'.
Qed.

End Execution.

Section ExecutionFacts.
Context {E : Env}.

Lemma get_deref_args (st d : Dict.dict pyval) (k : string) :
  Dict.get k (deref_args st d) = option_map (deref_value st) (Dict.get k d).
Proof.
  induction d as [|[k' v'] d IH]; [reflexivity|].
  cbn. destruct (String.eqb k k'); [reflexivity | exact IH].
Qed.

Lemma keys_deref_args (st d : Dict.dict pyval) :
  Dict.keys (deref_args st d) = Dict.keys d.
Proof.
  unfold Dict.keys, deref_args. rewrite map_map. reflexivity.
Qed.

(** A call on a known tool with a mapping: the mapping is dereferenced
    in place, the tool is called with its content as named arguments,
    and an exception of the call comes out wrapped. *)
Lemma execute_tool_call_mapping
      (self : Agent) (tool_name : string) (tool : entry) (l sl : loc)
      (d st : Dict.dict pyval) (h : heap) :
  Dict.get tool_name (_tools (toolbox self)) = Some tool ->
  state self = Some sl -> l <> sl ->
  heap_get h sl = Some st -> heap_get h l = Some d ->
  NoDup (Dict.keys d) ->
  execute_tool_call self tool_name (ArgDict l) h
  = (heap_set h l (deref_args st d),
     match call_entry tool (Keywords (deref_args st d)) with
     | Ok observation => Ok observation
     | Raise e =>
         Raise (Exn AgentExecutionError
                    (execution_error_msg
                       (exn_str e)
                       (get_tool_description_with_args
                          tool DEFAULT_TOOL_DESCRIPTION_TEMPLATE)))
     | RaiseBase b => RaiseBase b
     end).
Proof.
  intros Hget Hst Hne Hs Hl Hnd.
  unfold execute_tool_call, execute_tool_call_body. rewrite Hget, Hl.
  rewrite (deref_loop_in_place self l sl st Hst Hne d [] h Hs Hl Hnd).
  cbn [app]. rewrite (heap_get_set_same h l d _ Hl).
  destruct (call_entry tool (Keywords (deref_args st d))); reflexivity.
Qed.

Lemma execute_tool_call_known
      (self : Agent) (tool_name : string) (tool : entry)
      (arguments : arguments_t) (h : heap) :
  Dict.get tool_name (_tools (toolbox self)) = Some tool ->
  execute_tool_call self tool_name arguments h
  = (fst (execute_tool_call_body self tool arguments h),
     match snd (execute_tool_call_body self tool arguments h) with
     | Ok observation => Ok observation
     | Raise e =>
         Raise (Exn AgentExecutionError
                    (execution_error_msg
                       (exn_str e)
                       (get_tool_description_with_args
                          tool DEFAULT_TOOL_DESCRIPTION_TEMPLATE)))
     | RaiseBase b => RaiseBase b
     end).
Proof.
  intros Hget. unfold execute_tool_call. rewrite Hget.
  destruct (execute_tool_call_body self tool arguments h) as [h' [v|e|b]]; reflexivity.
Qed.

End ExecutionFacts.

(** C6. On a tool of the registry and an arguments mapping, with the
    state of the run a separate object, [execute_tool_call] calls the
    tool with the mapping in which every value that is a string naming a
    key of the state stands replaced by the value stored under that key,
    and every other value stands as it was. With the state holding an
    object under [img] and the arguments holding the string [img] under
    [path], the tool receives the object under [path]. *)
Theorem execute_tool_call_dereferences_arguments :
  (forall (E : Env) (self : Agent) (tool_name : string) (tool : entry) (l sl : loc)
          (d st : Dict.dict pyval) (h : heap),
      Dict.get tool_name (_tools (toolbox self)) = Some tool ->
      state self = Some sl -> l <> sl ->
      heap_get h sl = Some st -> heap_get h l = Some d ->
      NoDup (Dict.keys d) ->
      snd (execute_tool_call self tool_name (ArgDict l) h)
      = match call_entry tool (Keywords (deref_args st d)) with
        | Ok observation => Ok observation
        | Raise e =>
            Raise (Exn AgentExecutionError
                       (execution_error_msg
                          (exn_str e)
                          (get_tool_description_with_args
                             tool DEFAULT_TOOL_DESCRIPTION_TEMPLATE)))
        | RaiseBase b => RaiseBase b
        end)
  /\ (forall (st d : Dict.dict pyval) (k : string),
         Dict.keys (deref_args st d) = Dict.keys d
         /\ Dict.get k (deref_args st d)
            = match Dict.get k d with
              | Some (PStr s) =>
                  match Dict.get s st with
                  | Some stored => Some stored
                  | None => Some (PStr s)
                  end
              | other => other
              end)
  /\ @execute_tool_call sample_env running_agent "image_loader" (ArgDict 1) sample_heap
     = ([ [("img", PObj "AgentImage" 7)]; [("path", PObj "AgentImage" 7)] ],
        Ok (PObj "AgentImage" 7)).
Proof.
  split; [|split].
  - intros E self tool_name tool l sl d st h Hget Hst Hne Hs Hl Hnd.
    rewrite (execute_tool_call_mapping self tool_name tool l sl d st h
                                       Hget Hst Hne Hs Hl Hnd).
    reflexivity.
  - intros st d k. split; [apply keys_deref_args|].
    rewrite get_deref_args. destruct (Dict.get k d) as [v|]; [|reflexivity].
    destruct v; try reflexivity. cbn. destruct (Dict.get s st); reflexivity.
  - reflexivity.
Qed.

Lemma execute_tool_call_dereferences_arguments_witness :
  Dict.get "image_loader" (_tools (toolbox running_agent)) = Some (Concrete path_tool)
  /\ snd (@execute_tool_call sample_env running_agent "image_loader" (ArgDict 1) sample_heap)
     = Ok (PObj "AgentImage" 7).
Proof.
  split; [reflexivity|].
  rewrite (proj1 execute_tool_call_dereferences_arguments
                 sample_env running_agent "image_loader" (Concrete path_tool) 1 0
                 [("path", PStr "img")] [("img", PObj "AgentImage" 7)] sample_heap
                 eq_refl eq_refl ltac:(discriminate) eq_refl eq_refl
                 ltac:(repeat constructor; cbn; tauto)).
  reflexivity.
Defined.

(** C7 (amended). On a tool of the registry, whatever the arguments,
    an instance of [Exception] raised while the arguments are resolved
    or the tool is called leaves [execute_tool_call] as an
    [AgentExecutionError] whose message holds the text of the original
    exception, the reminder on correct input and the rendered
    description of the tool; a value returned passes through. So an
    instance of [Exception] raised by the tool itself, called with a
    string or with a mapping, never leaves unwrapped, and every instance
    of [Exception] that leaves is such a wrapping. An exception outside
    [Exception] ([SystemExit], [KeyboardInterrupt], [GeneratorExit])
    leaves [execute_tool_call] as it is, unwrapped. *)
Theorem execute_tool_call_wraps_exceptions :
  forall (E : Env) (self : Agent) (tool_name : string) (tool : entry)
         (arguments : arguments_t) (h : heap),
    Dict.get tool_name (_tools (toolbox self)) = Some tool ->
    (forall e : exn,
        snd (execute_tool_call_body self tool arguments h) = Raise e ->
        snd (execute_tool_call self tool_name arguments h)
        = Raise (Exn AgentExecutionError
                     ("Error in tool call execution: " ++ exn_str e ++ nl
                        ++ "You should only use this tool with a correct input." ++ nl
                        ++ "As a reminder, this tool's description is the following:" ++ nl
                        ++ get_tool_description_with_args
                             tool DEFAULT_TOOL_DESCRIPTION_TEMPLATE)))
    /\ (forall v : pyval,
           snd (execute_tool_call_body self tool arguments h) = Ok v ->
           snd (execute_tool_call self tool_name arguments h) = Ok v)
    /\ (forall b : base_exn,
           snd (execute_tool_call_body self tool arguments h) = RaiseBase b ->
           snd (execute_tool_call self tool_name arguments h) = RaiseBase b)
    /\ (forall e' : exn,
           snd (execute_tool_call self tool_name arguments h) = Raise e' ->
           exn_kind e' = AgentExecutionError
           /\ exists e : exn,
               snd (execute_tool_call_body self tool arguments h) = Raise e
               /\ exn_str e'
                  = execution_error_msg
                      (exn_str e)
                      (get_tool_description_with_args
                         tool DEFAULT_TOOL_DESCRIPTION_TEMPLATE))
    /\ (forall (t : Tool) (s : string),
           tool = Concrete t -> arguments = ArgStr s ->
           snd (execute_tool_call_body self tool arguments h)
           = tool_call t (Positional (PStr s)))
    /\ (forall (t : Tool) (l sl : loc) (d st : Dict.dict pyval),
           tool = Concrete t -> arguments = ArgDict l ->
           state self = Some sl -> l <> sl ->
           heap_get h sl = Some st -> heap_get h l = Some d ->
           NoDup (Dict.keys d) ->
           snd (execute_tool_call_body self tool arguments h)
           = tool_call t (Keywords (deref_args st d)))
    /\ (forall (v : pyval) (no_items : has_no_items v = true),
           arguments = ArgOther v no_items ->
           snd (execute_tool_call_body self tool arguments h)
           = Raise (Exn AttributeError
                        ("'" ++ py_type_name v ++ "' object has no attribute 'items'"))).
Proof.
  intros E self tool_name tool arguments h Hget.
  rewrite (execute_tool_call_known self tool_name tool arguments h Hget). cbn [snd].
  split; [|split; [|split; [|split; [|split; [|split]]]]].
  - intros e He. rewrite He. reflexivity.
  - intros v Hv. rewrite Hv. reflexivity.
  - intros b Hb. rewrite Hb. reflexivity.
  - intros e' He'.
    destruct (snd (execute_tool_call_body self tool arguments h)) as [v|e|b];
      [discriminate| |discriminate].
    injection He' as <-. split; [reflexivity|].
    exists e. split; reflexivity.
  - intros t s -> ->. reflexivity.
  - intros t l sl d st -> -> Hst Hne Hs Hl Hnd.
    unfold execute_tool_call_body. rewrite Hl.
    rewrite (deref_loop_in_place self l sl st Hst Hne d [] h Hs Hl Hnd).
    cbn [app]. rewrite (heap_get_set_same h l d _ Hl). reflexivity.
  - intros v Hv ->. reflexivity.
Qed.

Lemma execute_tool_call_wraps_exceptions_witness :
  Dict.get "broken" (_tools (toolbox running_agent)) = Some (Concrete broken_tool)
  /\ snd (@execute_tool_call sample_env running_agent "broken" (ArgStr "1/0") sample_heap)
     = Raise (Exn AgentExecutionError
                  ("Error in tool call execution: division by zero" ++ nl
                     ++ "You should only use this tool with a correct input." ++ nl
                     ++ "As a reminder, this tool's description is the following:" ++ nl
                     ++ "- broken: Always fails.")).
Proof.
  split; [reflexivity|].
  exact (proj1 (execute_tool_call_wraps_exceptions
                  sample_env running_agent "broken" (Concrete broken_tool)
                  (ArgStr "1/0") sample_heap eq_refl)
               (Exn (OtherException "ZeroDivisionError") "division by zero") eq_refl).
Defined.

(** C7, as stated, fails for an exception outside [Exception]: the
    clause of [execute_tool_call] is [except Exception], and a tool that
    ends the interpreter sends its [SystemExit] to the caller as it is,
    not as an [AgentExecutionError]. *)
Lemma execute_tool_call_lets_SystemExit_pass :
  Dict.get "quit" (_tools (toolbox quitting_agent)) = Some (Concrete exiting_tool)
  /\ tool_call exiting_tool (Positional (PStr "now")) = RaiseBase (BaseExn SystemExit "0")
  /\ @execute_tool_call sample_env quitting_agent "quit" (ArgStr "now") sample_heap
     = (sample_heap, RaiseBase (BaseExn SystemExit "0"))
  /\ @execute_tool_call sample_env quitting_agent "quit" (ArgDict 1) sample_heap
     = ([ [("img", PObj "AgentImage" 7)]; [("path", PObj "AgentImage" 7)] ],
        RaiseBase (BaseExn SystemExit "0")).
Proof. repeat split. Qed.

(** C9 (amended). On a tool of the registry and an arguments mapping,
    with the state of the run a separate object, [execute_tool_call]
    writes the dereferenced values into the mapping the caller holds:
    whether the call returns or raises, the heap afterwards holds at the
    location of the arguments the mapping with every string value that
    named a key of the state replaced by the stored value, and is
    unchanged elsewhere. On a tool that is not in the registry the call
    raises before any substitution and leaves the heap as it was. *)
Theorem execute_tool_call_writes_arguments_in_place :
  (forall (E : Env) (self : Agent) (tool_name : string) (tool : entry) (l sl : loc)
          (d st : Dict.dict pyval) (h : heap),
      Dict.get tool_name (_tools (toolbox self)) = Some tool ->
      state self = Some sl -> l <> sl ->
      heap_get h sl = Some st -> heap_get h l = Some d ->
      NoDup (Dict.keys d) ->
      fst (execute_tool_call self tool_name (ArgDict l) h)
      = heap_set h l (deref_args st d)
      /\ heap_get (fst (execute_tool_call self tool_name (ArgDict l) h)) l
         = Some (deref_args st d)
      /\ (forall l', l' <> l ->
                     heap_get (fst (execute_tool_call self tool_name (ArgDict l) h)) l'
                     = heap_get h l')
      /\ (forall (k s : string) (stored : pyval),
             Dict.get k d = Some (PStr s) -> Dict.get s st = Some stored ->
             Dict.get k (deref_args st d) = Some stored))
  /\ (forall (E : Env) (self : Agent) (tool_name : string)
             (arguments : arguments_t) (h : heap),
         Dict.get tool_name (_tools (toolbox self)) = None ->
         fst (execute_tool_call self tool_name arguments h) = h
         /\ is_ok (snd (execute_tool_call self tool_name arguments h)) = false).
Proof.
  split.
  - intros E self tool_name tool l sl d st h Hget Hst Hne Hs Hl Hnd.
    rewrite (execute_tool_call_mapping self tool_name tool l sl d st h
                                       Hget Hst Hne Hs Hl Hnd).
    cbn [fst]. split; [reflexivity|]. split; [|split].
    + apply (heap_get_set_same h l d _ Hl).
    + intros l' Hl'. apply heap_get_set_other. congruence.
    + intros k s stored Hk Hstored. rewrite get_deref_args, Hk. cbn.
      rewrite Hstored. reflexivity.
  - intros E self tool_name arguments h Hget.
    unfold execute_tool_call. rewrite Hget. split; reflexivity.
Qed.

Lemma execute_tool_call_writes_arguments_in_place_witness :
  Dict.get "broken" (_tools (toolbox running_agent)) = Some (Concrete broken_tool)
  /\ is_ok (snd (@execute_tool_call sample_env running_agent "broken" (ArgDict 1)
                                    sample_heap)) = false
  /\ heap_get (fst (@execute_tool_call sample_env running_agent "broken" (ArgDict 1)
                                       sample_heap)) 1
     = Some [("path", PObj "AgentImage" 7)].
Proof.
  split; [reflexivity|]. split; [reflexivity|].
  destruct (proj1 execute_tool_call_writes_arguments_in_place
                  sample_env running_agent "broken" (Concrete broken_tool) 1 0
                  [("path", PStr "img")] [("img", PObj "AgentImage" 7)] sample_heap
                  eq_refl eq_refl ltac:(discriminate) eq_refl eq_refl
                  ltac:(repeat constructor; cbn; tauto))
    as [_ [Hget _]].
  rewrite Hget. reflexivity.
Defined.

(** C9, as stated, fails when the tool is not in the registry: the call
    raises at its first test, and the string that names a key of the
    state is still in the mapping of the caller. *)
Lemma execute_tool_call_unknown_tool_leaves_arguments :
  @execute_tool_call sample_env running_agent "crop" (ArgDict 1) sample_heap
  = (sample_heap,
     Raise (Exn AgentExecutionError
                "Error: unknown tool crop, should be instead one of ['image_loader', 'broken']."))
  /\ heap_get sample_heap 1 = Some [("path", PStr "img")]
  /\ heap_get sample_heap 0 = Some [("img", PObj "AgentImage" 7)].
Proof. repeat split. Qed.

(* ================================================================== *)
(** ** Worked inputs of the primitives *)

Example split_keeps_empty_pieces :
  split "," "a,b,,c," = ["a"; "b"; ""; "c"; ""]
  /\ split "ab" "xabab" = ["x"; ""; ""].
Proof. split; reflexivity. Qed.

Example replace_leftmost_first : replace "aa" "b" "aaaxaa" = "baxb".
Proof. reflexivity. Qed.

Example strip_both_ends : strip (lit " ^ a b ^") = "a b".
Proof. reflexivity. Qed.

Example slice_negative_bounds :
  slice "abcdef" (-4) 5 = "cde" /\ slice "ab" (-4) 5 = "ab" /\ slice "}" (-1) 2 = "}".
Proof. repeat split. Qed.

Example loads_extra_data :
  RefJson.loads (lit "{'action':'a'},^{'action':'b'}") = DecodeError "Extra data" 14.
Proof. reflexivity. Qed.

Example loads_nested :
  RefJson.loads (lit " {'x': 1, 'y': [true, null, -2.5e3, 'a\nb'], 'x': {}} ")
  = Decoded (PDict [("x", PDict []);
                    ("y", PList [PBool true; PNone; PFloat "-2.5e3"; PStr (lit "a^b")])]).
Proof. reflexivity. Qed.

Example loads_errors :
  RefJson.loads (lit "{ {'action':'a'}")
  = DecodeError "Expecting property name enclosed in double quotes" 2
  /\ RefJson.loads "[1,]" = DecodeError "Expecting value" 3
  /\ RefJson.loads (lit "{'a' 1}") = DecodeError "Expecting ':' delimiter" 5
  /\ RefJson.loads (lit "{'a':1 'b':2}") = DecodeError "Expecting ',' delimiter" 7
  /\ RefJson.loads (lit "'abc") = DecodeError "Unterminated string starting at" 0
  /\ RefJson.loads "01" = DecodeError "Extra data" 1.
Proof. repeat split. Qed.

Example parse_code_blob_fenced :
  @parse_code_blob (lit "Thoughts: ...^Code:^```py^print(1)^```<end_action>") = Ok "print(1)".
Proof. reflexivity. Qed.

Example parse_json_blob_no_brace :
  @parse_json_blob sample_env "no braces here"
  = Raise (Exn ValueError "Error in parsing the JSON blob: list index out of range").
Proof. reflexivity. Qed.

(** [repr] of a string: the quotes by the content, the escapes. *)
Example repr_str_quotes :
  repr_str "search" = "'search'"
  /\ repr_str "it's" = dq ++ "it's" ++ dq
  /\ repr_str (lit "say 'hi'") = "'say " ++ dq ++ "hi" ++ dq ++ "'"
  /\ repr_str ("it's " ++ dq ++ "here" ++ dq) = "'it\'s " ++ dq ++ "here" ++ dq ++ "'"
  /\ repr_str (lit "a\b^c") = "'a\\b\nc'"
  /\ repr_str (String "001" (String "127" (String "160" (String "233" EmptyString))))
     = "'\x01\x7f\xa0" ++ String "233" "'"
  /\ repr_str_list ["a"; "b'c"] = "['a', " ++ dq ++ "b'c" ++ dq ++ "]".
Proof. repeat split. Qed.

(** [str(e)] of a [KeyError] is the [repr] of its argument. *)
Example remove_tool_absent :
  snd (remove_tool {| _tools := [("search", Concrete first_search)] |} "crop")
  = Raise (Exn KeyError
               (dq ++ "Error: tool crop not found in toolbox for removal, should be instead one of ['search']."
                   ++ dq)).
Proof. reflexivity. Qed.

(* ================================================================== *)
(** * Further properties of the code *)

(** ** Further facts *)

Section MoreStringFacts.

Lemma find_some_prefix (sub s : string) (i : nat) :
  find sub s = Some i -> prefix sub (drop i s) = true.
Proof.
  revert i. induction s as [|c s IH]; intros i H; cbn [find] in H.
  - destruct (prefix sub EmptyString) eqn:Hp; [|discriminate].
    injection H as <-. exact Hp.
  - destruct (prefix sub (String c s)) eqn:Hp.
    + injection H as <-. exact Hp.
    + destruct (find sub s) as [j|]; [|discriminate].
      injection H as <-. cbn [drop]. apply IH. reflexivity.
Qed.

Lemma find_some_bound (sub s : string) (i : nat) :
  find sub s = Some i -> i + String.length sub <= String.length s.
Proof.
  revert i. induction s as [|c s IH]; intros i H; cbn [find] in H.
  - destruct (prefix sub EmptyString) eqn:Hp; [|discriminate].
    injection H as <-. apply prefix_length in Hp. cbn in *. lia.
  - destruct (prefix sub (String c s)) eqn:Hp.
    + injection H as <-. apply prefix_length in Hp. cbn in *. lia.
    + destruct (find sub s) as [j|]; [|discriminate].
      injection H as <-. specialize (IH j eq_refl). cbn. lia.
Qed.

Lemma find_app_some (sub x y : string) (i : nat) :
  find sub x = Some i -> find sub (x ++ y) = Some i.
Proof.
  revert i. induction x as [|c x IH]; intros i H.
  - cbn [find] in H. destruct (prefix sub EmptyString) eqn:Hp; [|discriminate].
    injection H as <-. destruct sub; [|discriminate].
    cbn. destruct y; reflexivity.
  - pose proof (find_some_bound _ _ _ H) as Hb.
    cbn [find] in H. cbn [append find].
    destruct (prefix sub (String c x)) eqn:Hp.
    + injection H as <-.
      change (String c (x ++ y)) with (String c x ++ y).
      rewrite (prefix_app_l _ _ _ Hp). reflexivity.
    + destruct (find sub x) as [j|] eqn:Hf; [|discriminate].
      injection H as <-.
      destruct (prefix sub (String c (x ++ y))) eqn:Hp'.
      * exfalso. change (String c (x ++ y)) with (String c x ++ y) in Hp'.
        apply prefix_app_short in Hp'; [congruence|]. lia.
      * rewrite (IH j eq_refl). reflexivity.
Qed.

(** Splitting around an occurrence of a marker that cannot overlap
    itself: the pieces before it, then the pieces after it. *)
Lemma split_app_unbordered (sep : string) :
  unbordered sep = true ->
  forall (n : nat) (x b : string),
    String.length x <= n ->
    split sep (x ++ sep ++ b) = (split sep x ++ split sep b)%list.
Proof.
  intros Hu.
  assert (Hne : sep <> EmptyString) by (intros ->; discriminate).
  induction n as [|n IH]; intros x b Hlen.
  - destruct x; [|cbn in Hlen; lia].
    rewrite (split_app_sep sep EmptyString b Hu).
    + reflexivity.
    + apply find_none_iff_contains. destruct sep; [congruence|reflexivity].
  - destruct (find sep x) as [i|] eqn:Hf.
    + pose proof (find_some_bound _ _ _ Hf) as Hb.
      rewrite (split_at sep x i Hne Hf).
      rewrite (split_at sep (x ++ sep ++ b) i Hne (find_app_some _ _ _ _ Hf)).
      assert (Hx : x = take (i + String.length sep) x ++ drop (i + String.length sep) x)
        by (symmetry; apply take_drop).
      assert (Htake : take i (x ++ sep ++ b) = take i x).
      { rewrite <- (take_drop i x) at 1. rewrite append_assoc.
        assert (Hl : String.length (take i x) = i).
        { clear -Hb. revert i Hb. induction x as [|c x IHx]; intros i Hb.
          - cbn in Hb. assert (i = 0) by lia. subst. reflexivity.
          - destruct i; [reflexivity|]. cbn. f_equal. apply IHx. cbn in Hb. lia. }
        rewrite <- Hl at 1. apply take_app. }
      assert (Hdrop : drop (i + String.length sep) (x ++ sep ++ b)
                      = drop (i + String.length sep) x ++ sep ++ b).
      { rewrite Hx at 1. rewrite append_assoc.
        assert (Hl : String.length (take (i + String.length sep) x) = i + String.length sep).
        { clear -Hb. revert Hb. generalize (i + String.length sep) as m.
          induction x as [|c x IHx]; intros m Hb.
          - cbn in Hb. assert (m = 0) by lia. subst. reflexivity.
          - destruct m; [reflexivity|]. cbn. f_equal. apply IHx. cbn in Hb. lia. }
        rewrite <- Hl at 1. apply drop_app. }
      rewrite Htake, Hdrop. cbn [app]. f_equal.
      apply IH. rewrite length_drop.
      destruct sep; [congruence|]. cbn [String.length] in *. lia.
    + rewrite (split_none _ _ Hf). cbn [app].
      apply split_app_sep; [exact Hu|]. apply find_none_iff_contains. exact Hf.
Qed.

Lemma split_go_cons (sep s : string) (k : nat) :
  exists p ps, split_go sep k s = p :: ps.
Proof.
  revert k. induction s as [|c s IH]; intros k; cbn [split_go]; [eauto|].
  destruct k; [|apply IH].
  destruct (prefix sep (String c s)); [eauto|].
  destruct (IH 0) as [p [ps ->]]. eauto.
Qed.

End MoreStringFacts.

Section ActionFacts.

Lemma extract_action_pieces (tok x b : string) :
  unbordered tok = true -> contains tok b = false ->
  extract_action (x ++ tok ++ b) tok = Ok (last (split tok x) EmptyString, b).
Proof.
  intros Hu Hb. unfold extract_action.
  rewrite (split_app_unbordered tok Hu (String.length x) x b (le_n _)).
  apply find_none_iff_contains in Hb. rewrite (split_none _ _ Hb).
  rewrite rev_app_distr. cbn [rev app].
  destruct (split_go_cons tok x 0) as [p [ps Hs]]. unfold split at 1. rewrite Hs.
  unfold split. rewrite Hs.
  destruct (rev (p :: ps)) as [|q qs] eqn:Hr.
  - apply (f_equal (@List.length string)) in Hr. rewrite length_rev in Hr. discriminate.
  - f_equal. f_equal.
    rewrite <- (rev_involutive (p :: ps)), Hr. cbn [rev].
    rewrite last_last. reflexivity.
Qed.

Lemma extract_action_absent (tok out : string) :
  contains tok out = false ->
  extract_action out tok
  = Raise (Exn AgentParsingError
             ("Error: No '" ++ tok ++ "' token provided in your output." ++ nl
                ++ "Your output:" ++ nl ++ out ++ nl
                ++ ". Be sure to include an action, prefaced with '" ++ tok ++ "'!")).
Proof.
  intros H. apply find_none_iff_contains in H.
  unfold extract_action. rewrite (split_none _ _ H). reflexivity.
Qed.

Lemma extract_action_present (tok out : string) :
  tok <> EmptyString -> contains tok out = true ->
  exists rationale action, extract_action out tok = Ok (rationale, action).
Proof.
  intros Hne H. unfold contains in H.
  destruct (find tok out) as [i|] eqn:Hf; [|discriminate].
  unfold extract_action. rewrite (split_at tok out i Hne Hf).
  destruct (split_go_cons tok (drop (i + String.length tok) out) 0) as [p [ps Hs]].
  unfold split at 1. rewrite Hs. cbn [rev].
  destruct (rev ps) as [|q qs] eqn:Hr; cbn [app].
  - eauto.
  - destruct qs; cbn [app]; eauto.
Qed.

End ActionFacts.

Section CodeBlobFacts.

Lemma lazy_until_find (stop s : string) :
  lazy_until stop s = option_map (fun i => take i s) (find stop s).
Proof.
  induction s as [|c s IH]; cbn [lazy_until find].
  - destruct (prefix stop EmptyString); reflexivity.
  - destruct (prefix stop (String c s)); [reflexivity|].
    rewrite IH. destruct (find stop s); reflexivity.
Qed.

Lemma find_take_none (sub s : string) (i : nat) :
  sub <> EmptyString -> find sub s = Some i -> find sub (take i s) = None.
Proof.
  intros Hne. revert i. induction s as [|c s IH]; intros i H.
  - cbn [find] in H. destruct (prefix sub EmptyString) eqn:Hp; [|discriminate].
    destruct sub; [congruence|discriminate].
  - cbn [find] in H. destruct (prefix sub (String c s)) eqn:Hp.
    + injection H as <-. cbn. destruct sub; [congruence|reflexivity].
    + destruct (find sub s) as [j|] eqn:Hf; [|discriminate].
      injection H as <-. cbn [take find]. rewrite (IH j eq_refl).
      destruct (prefix sub (String c (take j s))) eqn:Hp'; [|reflexivity].
      exfalso. apply (prefix_app_l _ _ (drop j s)) in Hp'.
      cbn [append] in Hp'. rewrite take_drop in Hp'. congruence.
Qed.

Lemma lstrip_suffix (s : string) : exists l, s = l ++ lstrip s.
Proof.
  induction s as [|c s [l IH]]; cbn [lstrip].
  - exists EmptyString. reflexivity.
  - destruct (is_space c).
    + exists (String c l). cbn. f_equal. exact IH.
    + exists EmptyString. reflexivity.
Qed.

Lemma rstrip_prefix (s : string) : exists r, s = rstrip s ++ r.
Proof.
  induction s as [|c s [r IH]]; cbn [rstrip].
  - exists EmptyString. reflexivity.
  - destruct (rstrip s) as [|d t] eqn:Hr.
    + destruct (is_space c).
      * exists (String c s). reflexivity.
      * exists s. reflexivity.
    + exists r. cbn. f_equal. exact IH.
Qed.

Lemma find_none_strip (sub s : string) :
  find sub s = None -> find sub (strip s) = None.
Proof.
  intros H. unfold strip.
  destruct (lstrip_suffix s) as [l Hl]. rewrite Hl in H.
  apply find_none_app_r in H.
  destruct (rstrip_prefix (lstrip s)) as [r Hr]. rewrite Hr in H.
  apply find_none_app_l in H. exact H.
Qed.

Lemma rstrip_idem (s : string) : rstrip (rstrip s) = rstrip s.
Proof.
  induction s as [|c s IH]; [reflexivity|].
  cbn [rstrip]. destruct (rstrip s) as [|d t] eqn:Hr.
  - destruct (is_space c) eqn:Hc; [reflexivity|].
    cbn [rstrip]. rewrite Hc. reflexivity.
  - cbn [rstrip] in *. rewrite IH. reflexivity.
Qed.

Lemma lstrip_idem (s : string) : lstrip (lstrip s) = lstrip s.
Proof.
  induction s as [|c s IH]; [reflexivity|].
  cbn [lstrip]. destruct (is_space c) eqn:Hc; [exact IH|].
  cbn [lstrip]. rewrite Hc. reflexivity.
Qed.

Lemma lstrip_rstrip (s : string) : lstrip s = s -> lstrip (rstrip s) = rstrip s.
Proof.
  destruct s as [|c s]; [reflexivity|]. cbn [lstrip].
  destruct (is_space c) eqn:Hc.
  - intros H. exfalso.
    destruct (lstrip_suffix s) as [l Hl]. rewrite H in Hl.
    apply (f_equal String.length) in Hl. rewrite length_append in Hl. cbn in Hl. lia.
  - intros _. cbn [rstrip]. destruct (rstrip s); rewrite ?Hc; cbn [lstrip]; rewrite Hc; reflexivity.
Qed.

Lemma strip_idem (s : string) : strip (strip s) = strip s.
Proof.
  unfold strip. rewrite (lstrip_rstrip (lstrip s) (lstrip_idem s)).
  apply rstrip_idem.
Qed.

Lemma fence_after_body (tag g s : string) :
  fence_after tag s = Some g -> find (nl ++ "```") g = None.
Proof.
  unfold fence_after. destruct (prefix (tag ++ nl) s); [|discriminate].
  rewrite lazy_until_find.
  destruct (find (nl ++ "```") (drop (String.length tag + 1) s)) as [i|] eqn:Hf;
    [|discriminate].
  intros H. injection H as <-. apply find_take_none; [discriminate | exact Hf].
Qed.

Lemma search_code_body (s g : string) :
  search_code s = Some g -> find (nl ++ "```") g = None.
Proof.
  induction s as [|c s IH]; cbn [search_code].
  - cbn. discriminate.
  - destruct (match_code_here (String c s)) as [g'|] eqn:Hm; [|exact IH].
    intros H. injection H as <-. unfold match_code_here in Hm.
    destruct (prefix "```" (String c s)); [|discriminate].
    destruct (fence_after "py" _) as [g1|] eqn:H1.
    { injection Hm as <-. eapply fence_after_body. exact H1. }
    destruct (fence_after "python" _) as [g2|] eqn:H2.
    { injection Hm as <-. eapply fence_after_body. exact H2. }
    eapply fence_after_body. exact Hm.
Qed.

Lemma lazy_until_closing_fence (body suf : string) :
  contains (nl ++ "```") body = false ->
  lazy_until (nl ++ "```") (body ++ nl ++ "```" ++ suf) = Some body.
Proof.
  intros H. rewrite lazy_until_find.
  change (body ++ nl ++ "```" ++ suf) with (body ++ (nl ++ "```") ++ suf).
  rewrite (find_app_sep (nl ++ "```") body suf eq_refl).
  - cbn [option_map]. rewrite take_app. reflexivity.
  - apply find_none_iff_contains. exact H.
Qed.

Lemma match_code_here_fenced (tag body suf : string) :
  tag = "py" \/ tag = "python" \/ tag = EmptyString ->
  contains (nl ++ "```") body = false ->
  match_code_here ("```" ++ tag ++ nl ++ body ++ nl ++ "```" ++ suf) = Some body.
Proof.
  intros Htag Hb.
  pose proof (lazy_until_closing_fence body suf Hb) as Hl.
  destruct Htag as [->|[->| ->]]; unfold match_code_here, fence_after;
    cbn -[lazy_until]; cbn -[lazy_until] in Hl; rewrite ?prefix_nil, Hl; reflexivity.
Qed.

Lemma search_code_skip (pre rest : string) :
  no_char "`" pre = true -> search_code (pre ++ rest) = search_code rest.
Proof.
  induction pre as [|c pre IH]; intros H; [reflexivity|].
  cbn [no_char] in H. apply andb_true_iff in H as [Hc H].
  cbn [append search_code]. unfold match_code_here at 1.
  assert (Hp : prefix "```" (String c (pre ++ rest)) = false).
  { cbn [prefix]. destruct (Ascii.ascii_dec "`" c) as [<-|Hne]; [discriminate|reflexivity]. }
  rewrite Hp. apply IH. exact H.
Qed.

Lemma search_code_here (s g : string) :
  match_code_here s = Some g -> search_code s = Some g.
Proof. intros H. destruct s; cbn [search_code]; rewrite H; reflexivity. Qed.

End CodeBlobFacts.

Section TextToolCallFacts.
Context {E : Env}.

Lemma no_char_replace_char (c : ascii) (s : string) :
  no_char c (replace (String c EmptyString) EmptyString s) = true.
Proof.
  induction s as [|d s IH]; [reflexivity|].
  rewrite replace_cons by discriminate.
  cbn [prefix String.length drop]. rewrite prefix_nil.
  destruct (Ascii.ascii_dec c d) as [<-|Hne].
  - destruct (Ascii.ascii_dec c c); [|congruence]. exact IH.
  - destruct (Ascii.ascii_dec c d); [congruence|].
    cbn [no_char]. rewrite IH.
    destruct (Ascii.eqb_spec d c); [congruence|reflexivity].
Qed.

Lemma find_none_hd (sub : string) (l : list string) :
  Forall (fun p => find sub p = None) l -> sub <> EmptyString ->
  find sub (hd EmptyString l) = None.
Proof.
  intros H Hne. destruct l as [|p l]; cbn [hd].
  - destruct sub; [congruence|reflexivity].
  - inversion H; assumption.
Qed.

Lemma find_none_nth (sub : string) (l : list string) (n : nat) :
  Forall (fun p => find sub p = None) l -> sub <> EmptyString ->
  find sub (nth n l EmptyString) = None.
Proof.
  intros H Hne. revert n. induction H as [|p l Hp H IH]; intros n.
  - destruct n; cbn [nth]; destruct sub; congruence || reflexivity.
  - destruct n; cbn [nth]; [exact Hp | apply IH].
Qed.

Lemma parse_text_tool_call_no_input_marker (text : string) :
  contains "Action input:" text = false ->
  parse_text_tool_call text
  = Raise (Exn ValueError
             (text_tool_call_error_msg "not enough values to unpack (expected 2, got 1)")).
Proof.
  intros H. apply find_none_iff_contains in H.
  unfold parse_text_tool_call.
  set (text1 := if contains "Observation:" text
                then hd EmptyString (split "Observation:" text) else text).
  assert (H1 : find "Action input:" text1 = None).
  { subst text1. destruct (contains "Observation:" text); [|exact H].
    apply find_none_hd; [|discriminate].
    apply split_pieces_none; [discriminate | exact H]. }
  set (text2 := if contains "Action:" text1
                then nth 1 (split "Action:" text1) EmptyString else text1).
  assert (H2 : find "Action input:" text2 = None).
  { subst text2. destruct (contains "Action:" text1); [|exact H1].
    apply find_none_nth; [|discriminate].
    apply split_pieces_none; [discriminate | exact H1]. }
  rewrite (split_none _ _ H2). reflexivity.
Qed.

Lemma parse_text_tool_call_name (text name : string) (input : pyval) :
  parse_text_tool_call text = Ok (name, input) ->
  no_char "034" name = true /\ no_char "\" name = true.
Proof.
  unfold parse_text_tool_call.
  set (text2 := if contains "Action:" _ then _ else _).
  destruct (unpack2 (split "Action input:" text2)) as [[tool_name tool_input]|e|b];
    cbn [bind try_except]; [|discriminate..].
  destruct (if contains "{" tool_input then _ else _) as [v|e|b];
    cbn [bind try_except]; [|discriminate..].
  intros H. injection H as <- _. split.
  - apply no_char_replace_delete; [discriminate|].
    apply (no_char_replace_char "034").
  - apply (no_char_replace_char "\").
Qed.

End TextToolCallFacts.

Section JsonObjectFacts.
Context {E : Env}.

Lemma finditer_char_In (c : ascii) (s : string) :
  forall (i p : nat),
    In p (finditer_char c i s) ->
    i <= p /\ p - i < String.length s /\ exists r, drop (p - i) s = String c r.
Proof.
  induction s as [|d s IH]; intros i p H; [contradiction|].
  cbn [finditer_char] in H.
  assert (Hrec : In p (finditer_char c (S i) s) ->
                 i <= p /\ p - i < String.length (String d s)
                 /\ exists r, drop (p - i) (String d s) = String c r).
  { intros Hin. destruct (IH _ _ Hin) as [Hle [Hlt [r Hr]]].
    split; [lia|]. split; [cbn; lia|].
    exists r. replace (p - i) with (S (p - S i)) by lia. exact Hr. }
  destruct (Ascii.eqb_spec d c) as [->|Hne]; [|exact (Hrec H)].
  destruct H as [<-|H]; [|exact (Hrec H)].
  split; [lia|]. rewrite Nat.sub_diag. split; [cbn; lia|].
  exists s. reflexivity.
Qed.

Lemma last_index_In (l : list nat) (p : nat) : last_index l = Ok p -> In p l.
Proof.
  unfold last_index. destruct (rev l) as [|q qs] eqn:Hr; [discriminate|].
  intros H. injection H as ->. apply in_rev. rewrite Hr. left. reflexivity.
Qed.

Lemma take_cons_cases (c : ascii) (r : string) (n : nat) :
  take n (String c r) = EmptyString \/ exists r', take n (String c r) = String c r'.
Proof. destruct n; cbn; eauto. Qed.

(** What [parse_json_blob] hands to the decoder: nothing, a lone closing
    brace, or a text that starts at the first opening brace. *)
Lemma decoded_text_cases (blob : string) (last : nat) :
  last_index (finditer_char "}" 0 blob) = Ok last ->
  let first : Z := match find "{" blob with
                   | Some i => Z.of_nat i
                   | None => (-1)%Z
                   end in
  let text := replace ("\" ++ dq) "'" (slice blob first (Z.of_nat last + 1)) in
  text = EmptyString \/ text = "}" \/ exists r, text = String "{" r.
Proof.
  intros Hlast first text.
  assert (Hcases : slice blob first (Z.of_nat last + 1) = EmptyString
                   \/ slice blob first (Z.of_nat last + 1) = "}"
                   \/ exists r, slice blob first (Z.of_nat last + 1) = String "{" r).
  { subst first. unfold slice, bound.
    destruct (find "{" blob) as [i|] eqn:Hf.
    - pose proof (find_some_bound _ _ _ Hf) as Hb. cbn [String.length] in Hb.
      destruct (prefix_inv _ _ (find_some_prefix _ _ _ Hf)) as [r Hr].
      destruct (Z.ltb_spec (Z.of_nat i) 0); [lia|].
      rewrite (Z.min_l (Z.of_nat i)) by lia. rewrite Nat2Z.id, Hr.
      cbn [append].
      destruct (take_cons_cases "{" r
                  (Z.to_nat ((if (Z.of_nat last + 1 <? 0)%Z
                              then Z.max 0 (Z.of_nat last + 1 + Z.of_nat (String.length blob))
                              else Z.min (Z.of_nat last + 1) (Z.of_nat (String.length blob)))
                             - Z.of_nat i))) as [->|[r' ->]]; eauto.
    - apply last_index_In, finditer_char_In in Hlast.
      destruct Hlast as [_ [Hlt [r Hr]]]. rewrite Nat.sub_0_r in Hlt, Hr.
      cbn [Z.ltb Z.compare]. 
      destruct (Z.ltb_spec (Z.of_nat last + 1) 0); [lia|].
      rewrite Z.max_r by lia.
      destruct (Nat.eq_dec (S last) (String.length blob)) as [Heq|Hneq].
      + rewrite Z.min_l by lia.
        replace (Z.to_nat (-1 + Z.of_nat (String.length blob))) with last by lia.
        replace (Z.to_nat (Z.of_nat last + 1 - (-1 + Z.of_nat (String.length blob))))
          with 1 by lia.
        rewrite Hr. right. left.
        assert (Hlen : String.length (drop last blob) = 1)
          by (rewrite length_drop; lia).
        rewrite Hr in Hlen. destruct r; [reflexivity|discriminate].
      + rewrite Z.min_l by lia.
        replace (Z.to_nat (Z.of_nat last + 1 - (-1 + Z.of_nat (String.length blob))))
          with 0 by lia.
        left. reflexivity. }
  subst text. destruct Hcases as [->|[->|[r ->]]].
  - left. reflexivity.
  - right. left. reflexivity.
  - right. right. rewrite replace_cons by discriminate.
    cbn [append prefix].
    destruct (Ascii.ascii_dec "\" "{") as [Habs|_]; [discriminate Habs|eauto].
Qed.

Lemma parse_json_blob_gives_object :
  (forall s v, json_loads s = Decoded v -> prefix "{" s = true -> exists d, v = PDict d) ->
  (forall v, json_loads EmptyString <> Decoded v) ->
  (forall v, json_loads "}" <> Decoded v) ->
  forall blob v, parse_json_blob blob = Ok v -> exists d, v = PDict d.
Proof.
  intros Hobj Hempty Hbrace blob v. unfold parse_json_blob.
  destruct (last_index (finditer_char "}" 0 blob)) as [last|e|b] eqn:Hlast; [|discriminate..].
  pose proof (decoded_text_cases blob last Hlast) as Hc. cbv zeta in Hc. cbv zeta.
  destruct (json_loads (replace _ _ _)) as [w|msg pos|e] eqn:Hd.
  - intros H. injection H as ->.
    destruct Hc as [Hc|[Hc|[r Hr]]].
    + rewrite Hc in Hd. exfalso. exact (Hempty _ Hd).
    + rewrite Hc in Hd. exfalso. exact (Hbrace _ Hd).
    + apply (Hobj _ _ Hd). rewrite Hr, prefix_cons, prefix_nil. reflexivity.
  - destruct (String.eqb _ _); discriminate.
  - discriminate.
Qed.

Lemma parse_json_blob_ValueError (blob : string) (e : exn) :
  parse_json_blob blob = Raise e -> exn_kind e = ValueError.
Proof.
  unfold parse_json_blob.
  destruct (last_index _) as [last|e0|b0];
    [|intros H; injection H as <-; reflexivity|discriminate].
  cbv zeta. destruct (json_loads (replace _ _ _)) as [w|msg pos|e1]; [discriminate| |].
  - destruct (String.eqb _ _); intros H; injection H as <-; reflexivity.
  - intros H; injection H as <-; reflexivity.
Qed.

(** The parsers call no code of the caller: no exception outside
    [Exception] comes out of them. *)
Lemma parse_json_blob_no_base (blob : string) (b : base_exn) :
  parse_json_blob blob <> RaiseBase b.
Proof.
  unfold parse_json_blob, last_index.
  destruct (rev (finditer_char "}" 0 blob)); [discriminate|].
  cbv zeta. destruct (json_loads (replace _ _ _)) as [w|msg pos|e1]; [discriminate| |].
  - destruct (String.eqb _ _); discriminate.
  - discriminate.
Qed.

Lemma unpack2_no_base (pieces : list string) (b : base_exn) :
  unpack2 pieces <> RaiseBase b.
Proof. destruct pieces as [|x [|y [|z l]]]; discriminate. Qed.

Lemma parse_text_tool_call_ValueError (text : string) (e : exn) :
  parse_text_tool_call text = Raise e -> exn_kind e = ValueError.
Proof.
  unfold parse_text_tool_call.
  destruct (bind _ _) as [r|e0|b0]; cbn [try_except]; [discriminate| |discriminate].
  intros H. injection H as <-. reflexivity.
Qed.

Lemma parse_text_tool_call_no_base (text : string) (b : base_exn) :
  parse_text_tool_call text <> RaiseBase b.
Proof.
  unfold parse_text_tool_call.
  match goal with
  | |- context [unpack2 ?x] =>
      destruct (unpack2 x) as [[tool_name tool_input]|e0|b0] eqn:Hu
  end; cbn [bind try_except]; [|discriminate|exact (False_ind _ (unpack2_no_base _ _ Hu))].
  destruct (contains "{" tool_input); cbn [bind try_except]; [|discriminate].
  destruct (parse_json_blob tool_input) as [v|e1|b1] eqn:Hp; cbn [bind try_except];
    [discriminate|discriminate|exact (False_ind _ (parse_json_blob_no_base _ _ Hp))].
Qed.

Lemma py_in_no_base (key : string) (v : pyval) (b : base_exn) :
  py_in key v <> RaiseBase b.
Proof. destruct v; discriminate. Qed.

Lemma py_getitem_no_base (v : pyval) (key : string) (b : base_exn) :
  py_getitem v key <> RaiseBase b.
Proof.
  destruct v; try discriminate. cbn. destruct (Dict.get key d); discriminate.
Qed.

Lemma parse_code_blob_ValueError (code_blob : string) (e : exn) :
  parse_code_blob code_blob = Raise e -> exn_kind e = ValueError.
Proof.
  unfold parse_code_blob. destruct (search_code code_blob); [discriminate|].
  intros H. injection H as <-. reflexivity.
Qed.

Lemma parse_json_tool_call_object (json_blob : string) (d : Dict.dict pyval) :
  parse_json_blob (replace "```" EmptyString (replace "```json" EmptyString json_blob))
  = Ok (PDict d) ->
  parse_json_tool_call json_blob
  = match Dict.get "action" d with
    | Some a =>
        Ok (a, match Dict.get "action_input" d with Some i => i | None => PNone end)
    | None =>
        Raise (Exn ValueError
                 ("Missing keys: "
                    ++ repr_str_list
                         ("action" :: (if Dict.mem "action_input" d then []
                                       else ["action_input"]))
                    ++ " in blob " ++ py_str (PDict d)))
    end.
Proof.
  intros H. unfold parse_json_tool_call. rewrite H. cbn [bind py_in py_getitem].
  unfold Dict.mem.
  destruct (Dict.get "action" d) as [a|]; cbn [bind andb].
  - destruct (Dict.get "action_input" d) as [i|]; reflexivity.
  - destruct (Dict.get "action_input" d) as [i|]; reflexivity.
Qed.

Lemma parse_json_tool_call_no_base (json_blob : string) (b : base_exn) :
  parse_json_tool_call json_blob <> RaiseBase b.
Proof.
  unfold parse_json_tool_call. cbv zeta.
  destruct (parse_json_blob _) as [v|e0|b0] eqn:Hp; cbn [bind];
    [|discriminate|exact (False_ind _ (parse_json_blob_no_base _ _ Hp))].
  destruct v; cbn [py_in bind]; try discriminate;
    repeat match goal with
           | |- context [if ?c then _ else _] => destruct c; cbn [bind andb py_in py_getitem]
           | |- context [match Dict.get ?k ?d with _ => _ end] =>
               destruct (Dict.get k d); cbn [bind]
           end;
    discriminate.
Qed.

End JsonObjectFacts.

(** The reference decoder gives an object, or fails, on a text that
    starts with an opening brace. *)
Section ReferenceDecoder.
Import RefJson.

Lemma object_loop_dict (f : string -> nat -> scan pyval) (n : nat) :
  forall pairs rest pos v r p,
    object_loop f n pairs rest pos = Scanned v r p -> exists d, v = PDict d.
Proof.
  induction n as [|n IH]; intros pairs rest pos v r p H; [discriminate|].
  cbn [object_loop] in H.
  repeat match type of H with
         | context [match ?x with _ => _ end] =>
             match x with
             | object_loop _ _ _ _ _ => fail 1
             | _ => destruct x eqn:?; try discriminate
             end
         | context [let (_, _) := ?x in _] => destruct x eqn:?
         | context [if ?x then _ else _] => destruct x eqn:?; try discriminate
         end;
    try (injection H as <- _ _; eauto);
    try (eapply IH; exact H).
Qed.

Lemma JSONObject_dict (f : string -> nat -> scan pyval) rest pos v r p :
  JSONObject f rest pos = Scanned v r p -> exists d, v = PDict d.
Proof.
  unfold JSONObject. intros H.
  repeat match type of H with
         | context [match ?x with _ => _ end] =>
             match x with
             | object_loop _ _ _ _ _ => fail 1
             | _ => destruct x eqn:?; try discriminate
             end
         | context [let (_, _) := ?x in _] => destruct x eqn:?
         end;
    try (injection H as <- _ _; eauto);
    try (eapply object_loop_dict; exact H).
Qed.

Lemma loads_object (s : string) (v : pyval) :
  loads s = Decoded v -> prefix "{" s = true -> exists d, v = PDict d.
Proof.
  intros H Hp. destruct s as [|c s]; [discriminate|].
  cbn [prefix] in Hp. destruct (Ascii.ascii_dec "{" c) as [<-|]; [|discriminate].
  unfold loads in H. cbn [skip_ws is_ws] in H.
  change (is_ws "{") with false in H. cbv iota in H.
  cbn [scan_once] in H.
  change (Ascii.eqb "{" "034") with false in H.
  change (Ascii.eqb "{" "{") with true in H. cbv iota in H.
  destruct (JSONObject _ s 1) as [w r p|q|m q] eqn:Hj; try discriminate.
  destruct (skip_ws r p) as [r1 p1]. destruct r1; [|discriminate].
  injection H as <-. eapply JSONObject_dict. exact Hj.
Qed.

End ReferenceDecoder.

Section MoreDictFacts.
Context {V : Type}.
Implicit Types (d : Dict.dict V) (k : string) (v : V).

Lemma get_none_notin k d : Dict.get k d = None <-> ~ In k (Dict.keys d).
Proof.
  rewrite <- mem_in_keys. unfold Dict.mem.
  destruct (Dict.get k d); split; congruence.
Qed.

Lemma del_set_new k v d : Dict.get k d = None -> Dict.del k (Dict.set k v d) = d.
Proof.
  induction d as [|[k' v'] d IH]; cbn.
  - intros _. rewrite String.eqb_refl. reflexivity.
  - destruct (String.eqb_spec k k') as [->|Hne]; [discriminate|].
    intros H. cbn. apply String.eqb_neq in Hne. rewrite Hne. f_equal. apply IH, H.
Qed.

Lemma get_del_other k k' d : k <> k' -> Dict.get k' (Dict.del k d) = Dict.get k' d.
Proof.
  intros Hne. induction d as [|[k0 v0] d IH]; [reflexivity|]. cbn.
  destruct (String.eqb_spec k k0) as [->|Hk]; cbn.
  - destruct (String.eqb_spec k' k0); [congruence|reflexivity].
  - destruct (String.eqb_spec k' k0); [reflexivity|exact IH].
Qed.

Lemma get_del_same k d : NoDup (Dict.keys d) -> Dict.get k (Dict.del k d) = None.
Proof.
  induction d as [|[k0 v0] d IH]; intros Hnd; [reflexivity|].
  cbn in Hnd. inversion Hnd as [|? ? Hout Hnd']; subst. cbn.
  destruct (String.eqb_spec k k0) as [->|Hk].
  - apply get_none_notin. exact Hout.
  - cbn. apply String.eqb_neq in Hk. rewrite Hk. apply IH, Hnd'.
Qed.

Lemma keys_del k d :
  NoDup (Dict.keys d) -> Dict.keys (Dict.del k d) = List.remove string_dec k (Dict.keys d).
Proof.
  induction d as [|[k0 v0] d IH]; intros Hnd; [reflexivity|].
  cbn in Hnd. inversion Hnd as [|? ? Hout Hnd']; subst. cbn.
  destruct (String.eqb_spec k k0) as [->|Hk].
  - destruct (string_dec k0 k0); [|congruence].
    symmetry. apply notin_remove. exact Hout.
  - destruct (string_dec k k0); [congruence|]. cbn. f_equal. apply IH, Hnd'.
Qed.

Lemma values_set_new k v d :
  ~ In k (Dict.keys d) -> Dict.values (Dict.set k v d) = (Dict.values d ++ [v])%list.
Proof.
  induction d as [|[k' v'] d IH]; cbn; [reflexivity|].
  intros H. destruct (String.eqb_spec k k') as [->|Hne]; [tauto|].
  cbn. f_equal. apply IH. tauto.
Qed.

Lemma In_set k v k' v' d :
  In (k', v') (Dict.set k v d) -> (k' = k /\ v' = v) \/ In (k', v') d.
Proof.
  induction d as [|[k0 v0] d IH]; cbn.
  - intros [H|[]]. injection H as <- <-. auto.
  - destruct (String.eqb_spec k k0) as [->|Hne]; cbn.
    + intros [H|H]; [injection H as <- <-; auto | auto].
    + intros [H|H]; [auto|]. destruct (IH H); auto.
Qed.

Lemma length_set k v d : List.length (Dict.set k v d) <= S (List.length d).
Proof.
  induction d as [|[k0 v0] d IH]; cbn; [lia|].
  destruct (String.eqb k k0); cbn; lia.
Qed.

Lemma of_pairs_NoDup (l : list (string * V)) :
  NoDup (Dict.keys l) -> Dict.of_pairs l = l.
Proof.
  unfold Dict.of_pairs.
  assert (H : forall (acc : Dict.dict V),
             NoDup (Dict.keys (acc ++ l)%list) ->
             fold_left (fun acc kv => Dict.set (fst kv) (snd kv) acc) l acc
             = (acc ++ l)%list).
  { induction l as [|[k v] l IH]; intros acc Hnd; cbn [fold_left].
    - rewrite app_nil_r. reflexivity.
    - cbn [fst snd].
      assert (Hout : ~ In k (Dict.keys acc)).
      { unfold Dict.keys in *. rewrite map_app in Hnd. cbn in Hnd.
        apply NoDup_remove_2 in Hnd. intros Hin. apply Hnd.
        apply in_or_app. left. exact Hin. }
      assert (Hset : Dict.set k v acc = (acc ++ [(k, v)])%list).
      { clear -Hout. induction acc as [|[k0 v0] acc IHa]; [reflexivity|].
        cbn in *. destruct (String.eqb_spec k k0) as [->|Hne]; [tauto|].
        f_equal. apply IHa. tauto. }
      rewrite Hset, IH; rewrite <- app_assoc; [reflexivity|exact Hnd]. }
  intros Hnd. apply (H []). exact Hnd.
Qed.

End MoreDictFacts.

Section MoreRegistryFacts.
Context {E : Env}.

Lemma toolbox_eta (tb : Toolbox) : {| _tools := _tools tb |} = tb.
Proof. destruct tb. reflexivity. Qed.

Lemma add_tool_ok (self self' : Toolbox) (tool : entry) :
  add_tool self tool = (self', Ok tt) ->
  Dict.get (entry_name tool) (_tools self) = None
  /\ _tools self' = Dict.set (entry_name tool) tool (_tools self).
Proof.
  unfold add_tool, Dict.mem.
  destruct (Dict.get (entry_name tool) (_tools self)); [discriminate|].
  intros H. injection H as <-. split; reflexivity.
Qed.

Lemma add_then_remove (self self' : Toolbox) (tool : entry) :
  add_tool self tool = (self', Ok tt) ->
  remove_tool self' (entry_name tool) = (self, Ok tt).
Proof.
  intros H. apply add_tool_ok in H as [Hnone Hset].
  unfold remove_tool, Dict.mem. rewrite Hset, get_set_same. cbn [negb].
  rewrite del_set_new by exact Hnone. rewrite toolbox_eta. reflexivity.
Qed.

Lemma remove_tool_ok (self self' : Toolbox) (n : string) :
  NoDup (Dict.keys (_tools self)) ->
  remove_tool self n = (self', Ok tt) ->
  Dict.get n (_tools self') = None
  /\ (forall k, k <> n -> Dict.get k (_tools self') = Dict.get k (_tools self))
  /\ Dict.keys (_tools self') = List.remove string_dec n (Dict.keys (_tools self)).
Proof.
  intros Hnd. unfold remove_tool.
  destruct (negb (Dict.mem n (_tools self))); [discriminate|].
  intros H. injection H as <-. cbn [_tools]. split; [|split].
  - apply get_del_same, Hnd.
  - intros k Hk. apply get_del_other. congruence.
  - apply keys_del, Hnd.
Qed.

Lemma remove_tool_absent_raises (self : Toolbox) (n : string) :
  Dict.get n (_tools self) = None ->
  remove_tool self n
  = (self, Raise (KeyError_of
                    ("Error: tool " ++ n
                       ++ " not found in toolbox for removal, should be instead one of "
                       ++ repr_str_list (Dict.keys (_tools self)) ++ "."))).
Proof. intros H. unfold remove_tool, Dict.mem. rewrite H. reflexivity. Qed.

Lemma update_tool_ok (self self' : Toolbox) (tool : entry) :
  update_tool self tool = (self', Ok tt) ->
  Dict.keys (_tools self') = Dict.keys (_tools self)
  /\ Dict.get (entry_name tool) (_tools self') = Some tool
  /\ (forall k, k <> entry_name tool ->
                Dict.get k (_tools self') = Dict.get k (_tools self)).
Proof.
  unfold update_tool.
  destruct (Dict.mem (entry_name tool) (_tools self)) eqn:Hm; [|discriminate].
  cbn [negb]. intros H. injection H as <-. cbn [_tools]. split; [|split].
  - apply keys_set_mem, mem_in_keys, Hm.
  - apply get_set_same.
  - intros k Hk. apply get_set_other. congruence.
Qed.

Lemma update_tool_absent_raises (self : Toolbox) (tool : entry) :
  Dict.get (entry_name tool) (_tools self) = None ->
  update_tool self tool
  = (self, Raise (KeyError_of
                    ("Error: tool " ++ entry_name tool
                       ++ " not found in toolbox for update, should be instead one of "
                       ++ repr_str_list (Dict.keys (_tools self)) ++ "."))).
Proof. intros H. unfold update_tool, Dict.mem. rewrite H. reflexivity. Qed.

Lemma Toolbox_repr_add (self self' : Toolbox) (tool : entry) :
  add_tool self tool = (self', Ok tt) ->
  Toolbox_repr self'
  = Toolbox_repr self ++ tab ++ entry_name tool ++ ": " ++ entry_description tool ++ nl.
Proof.
  intros H. apply add_tool_ok in H as [Hnone Hset].
  unfold Toolbox_repr. rewrite Hset.
  rewrite values_set_new by (apply get_none_notin; exact Hnone).
  rewrite fold_left_app. reflexivity.
Qed.

Lemma concat_snoc (sep : string) (l : list string) (x : string) :
  String.concat sep (l ++ [x])%list
  = match l with
    | [] => x
    | _ :: _ => String.concat sep l ++ sep ++ x
    end.
Proof.
  induction l as [|a l IH]; [reflexivity|].
  cbn [app]. destruct l as [|b l].
  - reflexivity.
  - change (String.concat sep (a :: (b :: l) ++ [x])%list)
      with (a ++ sep ++ String.concat sep ((b :: l) ++ [x])%list).
    rewrite IH.
    change (String.concat sep (a :: b :: l)) with (a ++ sep ++ String.concat sep (b :: l)).
    rewrite !append_assoc. reflexivity.
Qed.

Lemma show_tool_descriptions_add (self self' : Toolbox) (tool : entry) (template : string) :
  add_tool self tool = (self', Ok tt) ->
  show_tool_descriptions self' template
  = match _tools self with
    | [] => get_tool_description_with_args tool template
    | _ :: _ =>
        show_tool_descriptions self template ++ nl
          ++ get_tool_description_with_args tool template
    end.
Proof.
  intros H. apply add_tool_ok in H as [Hnone Hset].
  unfold show_tool_descriptions. rewrite Hset.
  rewrite values_set_new by (apply get_none_notin; exact Hnone).
  rewrite map_app. cbn [map]. rewrite concat_snoc.
  destruct (_tools self) as [|[k v] d]; reflexivity.
Qed.

(** The loop of [_load_tools_if_needed], entry by entry. *)
Lemma load_loop_resolves (items : list (string * entry)) :
  forall tools tools' : Dict.dict entry,
    NoDup (Dict.keys items) ->
    (forall k e, In (k, e) items -> Dict.get k tools = Some e) ->
    load_loop items tools = (tools', Ok tt) ->
    forall k e, In (k, e) items ->
      match e with
      | Concrete t => Dict.get k tools' = Some (Concrete t)
      | Deferred p =>
          exists t, load_tool (task_or_repo_id p) = Ok t
                    /\ Dict.get k tools' = Some (Concrete t)
      end.
Proof.
  induction items as [|[name tool] rest IH]; intros tools tools' Hnd Hcons Hrun k e Hin;
    [contradiction|].
  cbn in Hnd. inversion Hnd as [|? ? Hout Hnd']; subst.
  assert (Hname : Dict.get name tools = Some tool) by (apply Hcons; left; reflexivity).
  cbn [load_loop] in Hrun. destruct tool as [t|p].
  - assert (Hc : forall k e, In (k, e) rest -> Dict.get k tools = Some e)
      by (intros k' e' Hin'; apply Hcons; right; exact Hin').
    destruct Hin as [Heq|Hin].
    + injection Heq as <- <-.
      destruct (load_loop_ok rest tools tools' Hnd' Hc Hrun) as [_ [_ Hother]].
      rewrite (Hother name Hout). exact Hname.
    + exact (IH tools tools' Hnd' Hc Hrun k e Hin).
  - fold (task_or_repo_id p) in Hrun.
    destruct (load_tool (task_or_repo_id p)) as [t|e0|b0] eqn:Hload; [|discriminate..].
    assert (Hc : forall k e, In (k, e) rest ->
                             Dict.get k (Dict.set name (Concrete t) tools) = Some e).
    { intros k' e' Hin'. rewrite get_set_other; [apply Hcons; right; exact Hin'|].
      intros ->. apply Hout. change k' with (fst (k', e')). apply in_map. exact Hin'. }
    destruct Hin as [Heq|Hin].
    + injection Heq as <- <-. exists t. split; [exact Hload|].
      destruct (load_loop_ok rest _ tools' Hnd' Hc Hrun) as [_ [_ Hother]].
      rewrite (Hother name Hout). apply get_set_same.
    + exact (IH _ tools' Hnd' Hc Hrun k e Hin).
Qed.

Lemma load_loop_succeeds (items : list (string * entry)) :
  (forall k p, In (k, Deferred p) items ->
               exists t, load_tool (task_or_repo_id p) = Ok t) ->
  forall tools, exists tools', load_loop items tools = (tools', Ok tt).
Proof.
  induction items as [|[name tool] rest IH]; intros H tools.
  - exists tools. reflexivity.
  - cbn [load_loop]. destruct tool as [t|p].
    + apply IH. intros k p Hin. apply (H k p). right. exact Hin.
    + fold (task_or_repo_id p).
      destruct (H name p (or_introl eq_refl)) as [t ->].
      apply IH. intros k p' Hin. apply (H k p'). right. exact Hin.
Qed.

Lemma load_tools_resolves (self self' : Toolbox) :
  NoDup (Dict.keys (_tools self)) ->
  _load_tools_if_needed self = (self', Ok tt) ->
  Dict.keys (_tools self') = Dict.keys (_tools self)
  /\ forall k e, Dict.get k (_tools self) = Some e ->
       match e with
       | Concrete t => Dict.get k (_tools self') = Some (Concrete t)
       | Deferred p =>
           exists t, load_tool (task_or_repo_id p) = Ok t
                     /\ Dict.get k (_tools self') = Some (Concrete t)
       end.
Proof.
  intros Hnd Hrun.
  split; [apply (load_tools_all_concrete self self' Hnd Hrun)|].
  unfold _load_tools_if_needed in Hrun.
  destruct (load_loop (_tools self) (_tools self)) as [tools r] eqn:Hloop.
  injection Hrun as <- ->. cbn [_tools]. intros k e Hget.
  apply (load_loop_resolves (_tools self) (_tools self) tools Hnd
                            (fun k e Hin => In_pair_get k e _ Hnd Hin) Hloop).
  clear -Hget. induction (_tools self) as [|[k0 v0] d IH]; [discriminate|].
  cbn in Hget. destruct (String.eqb_spec k k0) as [->|Hne].
  - injection Hget as ->. left. reflexivity.
  - right. apply IH, Hget.
Qed.

Lemma load_tools_settled (self self' : Toolbox) :
  NoDup (Dict.keys (_tools self)) ->
  _load_tools_if_needed self = (self', Ok tt) ->
  _load_tools_if_needed self' = (self', Ok tt).
Proof.
  intros Hnd Hrun.
  destruct (load_tools_all_concrete self self' Hnd Hrun) as [Hc _].
  unfold _load_tools_if_needed. rewrite load_loop_concrete by exact Hc.
  rewrite toolbox_eta. reflexivity.
Qed.

Lemma load_tools_succeeds_iff (self : Toolbox) :
  NoDup (Dict.keys (_tools self)) ->
  (snd (_load_tools_if_needed self) = Ok tt
   <-> forall k p, In (k, Deferred p) (_tools self) ->
                   exists t, load_tool (task_or_repo_id p) = Ok t).
Proof.
  intros Hnd. split.
  - intros H k p Hin.
    destruct (_load_tools_if_needed self) as [self' r] eqn:Hrun. cbn in H. subst r.
    destruct (load_tools_resolves self self' Hnd Hrun) as [_ Hres].
    destruct (Hres k (Deferred p) (In_pair_get _ _ _ Hnd Hin)) as [t [Ht _]].
    exists t. exact Ht.
  - intros H. unfold _load_tools_if_needed.
    destruct (load_loop_succeeds (_tools self) H (_tools self)) as [tools' ->].
    reflexivity.
Qed.

End MoreRegistryFacts.

Section BaseToolsFacts.
Context {E : Env}.

Lemma add_tool_result (self : Toolbox) (tool : entry) :
  match Dict.get (entry_name tool) (_tools self) with
  | Some _ =>
      add_tool self tool
      = (self, Raise (KeyError_of
                        ("Error: tool '" ++ entry_name tool
                           ++ "' already exists in the toolbox.")))
  | None =>
      add_tool self tool
      = ({| _tools := Dict.set (entry_name tool) tool (_tools self) |}, Ok tt)
  end.
Proof.
  unfold add_tool, Dict.mem.
  destruct (Dict.get (entry_name tool) (_tools self)); reflexivity.
Qed.

Lemma add_loop_spec (flag : bool) (base : list entry) :
  forall (self self' : Toolbox) (r : result unit),
    add_loop flag base self = (self', r) ->
    (forall k e, Dict.get k (_tools self) = Some e -> Dict.get k (_tools self') = Some e)
    /\ (forall k, In k (Dict.keys (_tools self')) ->
                  In k (Dict.keys (_tools self))
                  \/ exists e, In e base /\ entry_name e = k /\ selected_default flag e = true)
    /\ (r = Ok tt ->
        forall e, In e base -> selected_default flag e = true ->
                  Dict.get (entry_name e) (_tools self') = Some e).
Proof.
  induction base as [|tool rest IH]; intros self self' r H.
  - cbn in H. injection H as <- <-.
    split; [auto|]. split; [auto|]. intros _ e [].
  - cbn [add_loop] in H. fold (selected_default flag tool) in H.
    destruct (selected_default flag tool) eqn:Hadd.
    + pose proof (add_tool_result self tool) as Hres.
      destruct (Dict.get (entry_name tool) (_tools self)) as [old|] eqn:Hget;
        rewrite Hres in H.
      * injection H as <- <-. split; [auto|]. split; [auto|]. discriminate.
      * destruct (IH _ _ _ H) as [Hkeep [Horigin Hok]]. cbn [_tools] in *.
        split; [|split].
        -- intros k e Hk. apply Hkeep.
           rewrite get_set_other; [exact Hk|]. intros Heq. congruence.
        -- intros k Hk. destruct (Horigin k Hk) as [Hin|[e [Hin [Hn Ha]]]].
           ++ apply mem_in_keys in Hin. unfold Dict.mem in Hin.
              destruct (String.eqb_spec (entry_name tool) k) as [Heq|Hne].
              ** right. exists tool. split; [left; reflexivity|]. split; assumption.
              ** rewrite get_set_other in Hin by exact Hne.
                 left. apply mem_in_keys. exact Hin.
           ++ right. exists e. split; [right; exact Hin|]. split; assumption.
        -- intros Hr e [<-|Hin] Ha.
           ++ apply Hkeep. apply get_set_same.
           ++ apply Hok; assumption.
    + destruct (IH _ _ _ H) as [Hkeep [Horigin Hok]].
      split; [exact Hkeep|]. split.
      * intros k Hk. destruct (Horigin k Hk) as [Hin|[e [Hin [Hn Ha]]]]; [auto|].
        right. exists e. split; [right; exact Hin|]. split; assumption.
      * intros Hr e [<-|Hin] Ha; [congruence|]. apply Hok; assumption.
Qed.

Lemma add_loop_clash (flag : bool) (base : list entry) (self : Toolbox) :
  (exists e, In e base /\ selected_default flag e = true) ->
  (forall e, In e base -> selected_default flag e = true ->
             Dict.mem (entry_name e) (_tools self) = true) ->
  exists e, In e base /\ selected_default flag e = true
            /\ add_loop flag base self
               = (self, Raise (KeyError_of
                                 ("Error: tool '" ++ entry_name e
                                    ++ "' already exists in the toolbox."))).
Proof.
  induction base as [|tool rest IH]; intros [e [Hin Ha]] Hall; [contradiction|].
  cbn [add_loop]. fold (selected_default flag tool). destruct (selected_default flag tool) eqn:Hadd.
  - exists tool. split; [left; reflexivity|]. split; [exact Hadd|].
    pose proof (add_tool_result self tool) as Hres.
    pose proof (Hall tool (or_introl eq_refl) Hadd) as Hm. unfold Dict.mem in Hm.
    destruct (Dict.get (entry_name tool) (_tools self)); [|discriminate].
    rewrite Hres. reflexivity.
  - destruct Hin as [<-|Hin]; [congruence|].
    destruct IH as [e' [Hin' [Ha' Hrun]]].
    + exists e. split; assumption.
    + intros e0 H0 Ha0. apply Hall; [right; exact H0 | exact Ha0].
    + exists e'. split; [right; exact Hin'|]. split; assumption.
Qed.

Lemma add_base_tools_steps (g g' : Globals) (self self' : Toolbox) (flag : bool) :
  add_base_tools g self flag = (g', self', Ok tt) ->
  _tools_are_initialized g' = true
  /\ exists self1,
      add_loop flag (Dict.values (HUGGINGFACE_DEFAULT_TOOLS g')) self = (self1, Ok tt)
      /\ _load_tools_if_needed self1 = (self', Ok tt).
Proof.
  intros H. destruct (add_base_tools_inv _ _ _ _ _ H) as [Hinit [Hd _]].
  split; [exact Hinit|]. exact (add_defaults_steps _ _ _ _ _ Hd).
Qed.

Lemma add_base_tools_keys
      (g g' : Globals) (self self' : Toolbox) (flag : bool) :
  NoDup (Dict.keys (_tools self)) ->
  add_base_tools g self flag = (g', self', Ok tt) ->
  (forall k, In k (Dict.keys (_tools self')) ->
             In k (Dict.keys (_tools self))
             \/ exists e, In e (Dict.values (HUGGINGFACE_DEFAULT_TOOLS g'))
                          /\ entry_name e = k /\ selected_default flag e = true)
  /\ (forall e, In e (Dict.values (HUGGINGFACE_DEFAULT_TOOLS g')) ->
                selected_default flag e = true ->
                Dict.mem (entry_name e) (_tools self') = true)
  /\ (forall e, In e (Dict.values (HUGGINGFACE_DEFAULT_TOOLS g')) ->
                selected_default flag e = true ->
                match e with
                | Concrete t => Dict.get (entry_name e) (_tools self') = Some (Concrete t)
                | Deferred p =>
                    exists t, load_tool (task_or_repo_id p) = Ok t
                              /\ Dict.get (entry_name e) (_tools self') = Some (Concrete t)
                end).
Proof.
  intros Hnd H. destruct (add_base_tools_steps _ _ _ _ _ H) as [_ [self1 [Hadd Hload]]].
  pose proof (add_loop_keys _ _ _ _ _ Hnd Hadd) as Hnd1.
  destruct (add_loop_spec _ _ _ _ _ Hadd) as [_ [Horigin Hok]].
  destruct (load_tools_resolves self1 self' Hnd1 Hload) as [Hk Hres].
  split; [|split].
  - intros k Hin. rewrite Hk in Hin. exact (Horigin k Hin).
  - intros e Hin Ha. apply mem_in_keys. rewrite Hk.
    eapply get_some_in_keys. exact (Hok eq_refl e Hin Ha).
  - intros e Hin Ha. exact (Hres _ _ (Hok eq_refl e Hin Ha)).
Qed.

Lemma add_base_tools_again
      (g g' : Globals) (self self' : Toolbox) (flag : bool) :
  NoDup (Dict.keys (_tools self)) ->
  add_base_tools g self flag = (g', self', Ok tt) ->
  (exists e, In e (Dict.values (HUGGINGFACE_DEFAULT_TOOLS g')) /\ selected_default flag e = true) ->
  exists e, In e (Dict.values (HUGGINGFACE_DEFAULT_TOOLS g'))
            /\ add_base_tools g' self' flag
               = (g', self',
                  Raise (KeyError_of
                           ("Error: tool '" ++ entry_name e
                              ++ "' already exists in the toolbox."))).
Proof.
  intros Hnd H Hex.
  destruct (add_base_tools_steps _ _ _ _ _ H) as [Hinit _].
  destruct (add_base_tools_keys _ _ _ _ _ Hnd H) as [_ [Hmem _]].
  destruct (add_loop_clash flag _ self' Hex Hmem) as [e [Hin [_ Hrun]]].
  exists e. split; [exact Hin|].
  rewrite add_base_tools_initialized by exact Hinit.
  unfold add_defaults. rewrite Hrun. reflexivity.
Qed.

Lemma setup_default_tools_pairs :
  setup_default_tools = Dict.of_pairs (map default_pair TASK_MAPPING).
Proof. reflexivity. Qed.

Lemma In_fold_set {V : Type} (l : list (string * V)) :
  forall d k v,
    In (k, v) (fold_left (fun acc kv => Dict.set (fst kv) (snd kv) acc) l d) ->
    In (k, v) d \/ In (k, v) l.
Proof.
  induction l as [|[k0 v0] l IH]; intros d k v H; [left; exact H|].
  cbn [fold_left fst snd] in H. destruct (IH _ _ _ H) as [Hd|Hl].
  - destruct (In_set _ _ _ _ _ Hd) as [[-> ->]|Hd']; [right; left; reflexivity|].
    left. exact Hd'.
  - right. right. exact Hl.
Qed.

Lemma length_fold_set {V : Type} (l : list (string * V)) :
  forall d,
    List.length (fold_left (fun acc kv => Dict.set (fst kv) (snd kv) acc) l d)
    <= List.length d + List.length l.
Proof.
  induction l as [|[k0 v0] l IH]; intros d; cbn [fold_left fst snd List.length]; [lia|].
  specialize (IH (Dict.set k0 v0 d)). pose proof (length_set k0 v0 d). lia.
Qed.

Lemma setup_default_tools_In (k : string) (e : entry) :
  In (k, e) setup_default_tools ->
  exists task tool_class_name,
    In (task, tool_class_name) TASK_MAPPING
    /\ k = tool_name (tool_class tool_class_name)
    /\ e = Deferred {| PreTool.name := tool_name (tool_class tool_class_name);
                       PreTool.inputs := tool_inputs (tool_class tool_class_name);
                       PreTool.output_type := tool_output_type (tool_class tool_class_name);
                       PreTool.task := task;
                       PreTool.description := tool_description (tool_class tool_class_name);
                       PreTool.repo_id := None |}.
Proof.
  rewrite setup_default_tools_pairs. unfold Dict.of_pairs. intros H.
  apply In_fold_set in H as [[]|H].
  apply in_map_iff in H as [[task cls] [Heq Hin]].
  unfold default_pair in Heq. cbn [fst snd] in Heq. injection Heq as <- <-.
  exists task, cls. split; [exact Hin|]. split; reflexivity.
Qed.

Lemma setup_default_tools_get (task cls : string) :
  In (task, cls) TASK_MAPPING ->
  exists e, Dict.get (tool_name (tool_class cls)) setup_default_tools = Some e
            /\ In (tool_name (tool_class cls), e) setup_default_tools.
Proof.
  intros Hin.
  assert (Hk : In (tool_name (tool_class cls)) (Dict.keys setup_default_tools)).
  { rewrite setup_default_tools_pairs. unfold Dict.of_pairs.
    apply mem_in_keys. unfold Dict.mem. rewrite get_fold_set.
    destruct (List.find _ _) as [kv|] eqn:Hf; [reflexivity|].
    exfalso.
    assert (Hx : In (default_pair (task, cls)) (rev (map default_pair TASK_MAPPING)))
      by (apply -> in_rev; apply in_map; exact Hin).
    pose proof (find_none _ _ Hf _ Hx) as Hn. cbn in Hn.
    rewrite String.eqb_refl in Hn. discriminate. }
  apply mem_in_keys in Hk. unfold Dict.mem in Hk.
  destruct (Dict.get _ setup_default_tools) as [e|] eqn:Hg; [|discriminate].
  exists e. split; [reflexivity|].
  clear -Hg. induction setup_default_tools as [|[k0 v0] d IH]; [discriminate|].
  cbn in Hg. destruct (String.eqb_spec (tool_name (tool_class cls)) k0) as [->|Hne].
  - injection Hg as ->. left. reflexivity.
  - right. apply IH, Hg.
Qed.

Lemma In_values {V : Type} (k : string) (v : V) (d : Dict.dict V) :
  In (k, v) d -> In v (Dict.values d).
Proof. intros H. change v with (snd (k, v)). apply in_map. exact H. Qed.

End BaseToolsFacts.

Section PromptFacts.
Context {E : Env}.

(** Replacing a marker that cannot overlap itself, at its first
    occurrence. *)
Lemma replace_app_sep (old new a b : string) :
  unbordered old = true -> find old a = None ->
  replace old new (a ++ old ++ b) = a ++ new ++ replace old new b.
Proof.
  intros Hu.
  assert (Hne : old <> EmptyString) by (intros ->; discriminate).
  induction a as [|c a IH]; intros Ha.
  - cbn [append]. destruct old as [|d o]; [congruence|].
    change (String d o ++ b) with (String d (o ++ b)).
    rewrite replace_cons by discriminate.
    change (String d (o ++ b)) with (String d o ++ b).
    rewrite prefix_app, drop_app. reflexivity.
  - pose proof (find_app_sep old (String c a) b Hu Ha) as Hf.
    apply find_cons_none in Ha as [_ Ha].
    cbn [append] in *. rewrite replace_cons by exact Hne.
    destruct (prefix old (String c (a ++ old ++ b))) eqn:Hp.
    + cbn [find] in Hf. rewrite Hp in Hf. discriminate.
    + f_equal. apply IH, Ha.
Qed.

Lemma replace_one_marker (old new a b : string) :
  unbordered old = true -> contains old a = false -> contains old b = false ->
  replace old new (a ++ old ++ b) = a ++ new ++ b.
Proof.
  intros Hu Ha Hb. apply find_none_iff_contains in Ha, Hb.
  rewrite replace_app_sep by assumption. rewrite (replace_none _ _ _ Hb). reflexivity.
Qed.

Lemma format_prompt_descriptions (toolbox : Toolbox) (a b template : string) :
  contains "<<tool_descriptions>>" a = false ->
  contains "<<tool_descriptions>>" b = false ->
  contains "<<tool_names>>" (a ++ show_tool_descriptions toolbox template ++ b) = false ->
  format_prompt_with_tools toolbox (a ++ "<<tool_descriptions>>" ++ b) template
  = a ++ show_tool_descriptions toolbox template ++ b.
Proof.
  intros Ha Hb Hn. unfold format_prompt_with_tools.
  rewrite (replace_one_marker "<<tool_descriptions>>" _ a b eq_refl Ha Hb).
  rewrite Hn. reflexivity.
Qed.

Lemma format_prompt_names (toolbox : Toolbox) (a b template : string) :
  contains "<<tool_descriptions>>" (a ++ "<<tool_names>>" ++ b) = false ->
  contains "<<tool_names>>" a = false ->
  contains "<<tool_names>>" b = false ->
  format_prompt_with_tools toolbox (a ++ "<<tool_names>>" ++ b) template
  = a ++ String.concat ", " (map (fun n => "'" ++ n ++ "'") (Dict.keys (_tools toolbox)))
      ++ b.
Proof.
  intros Hd Ha Hb. unfold format_prompt_with_tools.
  apply find_none_iff_contains in Hd. rewrite (replace_none _ _ _ Hd).
  rewrite (contains_app_sep "<<tool_names>>" a b eq_refl Ha).
  apply (replace_one_marker "<<tool_names>>" _ a b eq_refl Ha Hb).
Qed.

Lemma format_prompt_plain (toolbox : Toolbox) (prompt_template template : string) :
  contains "<<tool_descriptions>>" prompt_template = false ->
  contains "<<tool_names>>" prompt_template = false ->
  format_prompt_with_tools toolbox prompt_template template = prompt_template.
Proof.
  intros Hd Hn. unfold format_prompt_with_tools.
  apply find_none_iff_contains in Hd. rewrite (replace_none _ _ _ Hd), Hn. reflexivity.
Qed.

End PromptFacts.

Section RunFacts.
Context {E : Env}.

Lemma initialize_for_run_ok (self self' : Agent) :
  initialize_for_run self = (self', Ok tt) ->
  logs self'
  = [ {| log_system_prompt := Some (system_prompt self'); log_task := task self;
         log_llm_output := None; log_facts := None; log_plan := None;
         log_tool_call := None; log_error := None; log_observation := None |} ]
  /\ token_count self' = 0%Z
  /\ toolbox self' = toolbox self
  /\ task self' = task self
  /\ state self' = state self
  /\ llm_engine self' = llm_engine self
  /\ prompt self' = prompt self.
Proof.
  unfold initialize_for_run. cbn zeta.
  destruct (authorized_imports _) as [imports|]; cbn [set_logs set_system_prompt].
  - destruct (format_prompt_with_imports _ imports) as [sp|e|b]; [|discriminate..].
    intros H. injection H as <-. repeat split.
  - intros H. injection H as <-. repeat split.
Qed.

Lemma initialize_for_run_missing_tag (self : Agent) (imports : list string) :
  authorized_imports self = Some imports ->
  contains "<<authorized_imports>>"
           (format_prompt_with_tools (toolbox self) (system_prompt_template self)
                                     (tool_description_template self)) = false ->
  snd (initialize_for_run self)
  = Raise (Exn AgentError "Tag '<<authorized_imports>>' should be provided in the prompt.")
  /\ logs (fst (initialize_for_run self)) = logs self.
Proof.
  intros Hi Hc. unfold initialize_for_run. cbn zeta.
  cbn [set_token_count set_system_prompt authorized_imports toolbox
       system_prompt_template tool_description_template system_prompt].
  rewrite Hi. unfold format_prompt_with_imports. rewrite Hc. cbn [negb].
  split; reflexivity.
Qed.

Lemma run_llm_heap (self self' : Agent) (task_text : string) (kwargs : Dict.dict pyval)
      (h h' : heap) (r : result string) :
  run_llm self task_text kwargs h = (self', h', r) ->
  h' = (h ++ [kwargs])%list.
Proof.
  unfold run_llm. cbn zeta. unfold heap_alloc.
  destruct (initialize_for_run _) as [s [[]|e|b]]; intros H; injection H as _ <- _;
    reflexivity.
Qed.

Lemma run_llm_ok (self self' : Agent) (task_text : string) (kwargs : Dict.dict pyval)
      (h h' : heap) (llm_output : string) :
  run_llm self task_text kwargs h = (self', h', Ok llm_output) ->
  let t := match kwargs with
           | [] => task_text
           | _ :: _ => task_text ++ nl
                         ++ "You have been provided with these initial arguments: "
                         ++ py_str (PDict kwargs) ++ "."
           end in
  let msgs := [ {| role := SYSTEM; content := system_prompt self' |};
                {| role := USER; content := "Task: " ++ t |} ] in
  prompt self' = Some msgs
  /\ task self' = Some t
  /\ state self' = Some (List.length h)
  /\ logs self'
     = [ {| log_system_prompt := Some (system_prompt self'); log_task := Some t;
            log_llm_output := None; log_facts := None; log_plan := None;
            log_tool_call := None; log_error := None; log_observation := None |} ]
  /\ llm_engine self msgs ["<end_action>"] = Ok llm_output
  /\ toolbox self' = toolbox self.
Proof.
  unfold run_llm. cbn zeta. unfold heap_alloc.
  set (t := match kwargs with [] => task_text | _ :: _ => _ end).
  destruct (initialize_for_run _) as [s [[]|e|b]] eqn:Hinit; [|discriminate..].
  intros H. injection H as <- _ Hengine.
  destruct (initialize_for_run_ok _ _ Hinit) as [Hl [_ [Htb [Ht [Hs [He Hp]]]]]].
  cbn [set_prompt prompt task state logs system_prompt toolbox llm_engine] in *.
  cbn [set_state set_task prompt task state logs system_prompt toolbox llm_engine] in *.
  repeat split; try assumption.
  - rewrite <- He. exact Hengine.
Qed.

End RunFacts.

Section MoreRunFacts.
Context {E : Env}.

Lemma run_execute_print_outputs
      (self : Agent) (code : string) (l : loc) (imports : list string)
      (h h' : heap) (output : pyval) :
  state self = Some l -> authorized_imports self = Some imports ->
  python_evaluator self code
                   (Dict.merge BASE_PYTHON_TOOLS (_tools (toolbox self))) [] l imports h
  = (h', Ok output) ->
  run_execute self code h
  = (h', match heap_get h' l with
         | Some st =>
             match Dict.get "print_outputs" st with
             | Some _ => Ok output
             | None => Raise (Exn KeyError "'print_outputs'")
             end
         | None => Raise (Exn KeyError "'print_outputs'")
         end).
Proof.
  intros Hs Hi Hev. unfold run_execute. rewrite Hs, Hi, Hev.
  destruct (heap_get h' l) as [st|]; [|reflexivity].
  destruct (Dict.get "print_outputs" st); reflexivity.
Qed.

End MoreRunFacts.

Section MoreTranscriptFacts.
Context {E : Env}.

Lemma memory_loop_snoc (sm : bool) (steps : list step_log) (s : step_log) :
  forall (i : nat) (memory : list message),
    memory_loop sm i (steps ++ [s])%list memory
    = (memory_loop sm i steps memory
         ++ memory_step sm (i + List.length steps) s [])%list.
Proof.
  induction steps as [|s0 steps IH]; intros i memory; cbn [app memory_loop List.length].
  - rewrite Nat.add_0_r. apply memory_step_app.
  - rewrite IH. replace (S i + List.length steps) with (i + S (List.length steps)) by lia.
    reflexivity.
Qed.

Lemma filter_response_step (sm : bool) (i : nat) (s : step_log) :
  List.length (filter is_tool_response (memory_step sm i s []))
  = if has_response s then 1 else 0.
Proof.
  unfold memory_step, has_response.
  destruct s as [f_sp f_task f_out f_facts f_plan f_call f_err f_obs]; cbn.
  destruct sm, f_out, f_facts, f_plan, f_call, f_task, f_err, f_obs; reflexivity.
Qed.

Lemma filter_response_loop (sm : bool) (steps : list step_log) :
  forall i,
    List.length (filter is_tool_response (memory_loop sm i steps []))
    = List.length (filter has_response steps).
Proof.
  induction steps as [|s steps IH]; intros i; [reflexivity|].
  rewrite memory_loop_cons, filter_app, length_app, filter_response_step, IH.
  cbn [filter]. destruct (has_response s); reflexivity.
Qed.

Lemma error_before_observation (sm : bool) (i : nat) (s : step_log) (e : exn) :
  log_error s = Some e ->
  filter is_tool_response (memory_step sm i s [])
  = [ {| role := TOOL_RESPONSE;
         content := "[OUTPUT OF STEP " ++ str_nat i ++ "] Error: "
                      ++ exn_str e ++ retry_admonition |} ].
Proof.
  intros He. unfold memory_step.
  destruct s as [f_sp f_task f_out f_facts f_plan f_call f_err f_obs]; cbn in *.
  subst f_err.
  destruct sm, f_out, f_facts, f_plan, f_call, f_task, f_obs; reflexivity.
Qed.

End MoreTranscriptFacts.

Section MoreExecutionFacts.
Context {E : Env}.

Lemma execute_tool_call_string
      (self : Agent) (tool_name s : string) (tool : entry) (h : heap) :
  Dict.get tool_name (_tools (toolbox self)) = Some tool ->
  execute_tool_call self tool_name (ArgStr s) h
  = (h, match call_entry tool (Positional (PStr s)) with
        | Ok observation => Ok observation
        | Raise e =>
            Raise (Exn AgentExecutionError
                     (execution_error_msg
                        (exn_str e)
                        (get_tool_description_with_args
                           tool DEFAULT_TOOL_DESCRIPTION_TEMPLATE)))
        | RaiseBase b => RaiseBase b
        end).
Proof.
  intros H. unfold execute_tool_call. rewrite H. cbn [execute_tool_call_body].
  destruct (call_entry tool _); reflexivity.
Qed.

Lemma execute_tool_call_other
      (self : Agent) (tool_name : string) (v : pyval) (no_items : has_no_items v = true)
      (tool : entry) (h : heap) :
  Dict.get tool_name (_tools (toolbox self)) = Some tool ->
  execute_tool_call self tool_name (ArgOther v no_items) h
  = (h, Raise (Exn AgentExecutionError
                 (execution_error_msg
                    ("'" ++ py_type_name v ++ "' object has no attribute 'items'")
                    (get_tool_description_with_args
                       tool DEFAULT_TOOL_DESCRIPTION_TEMPLATE)))).
Proof.
  intros H. unfold execute_tool_call. rewrite H. reflexivity.
Qed.

End MoreExecutionFacts.

Section TextFacts.

Lemma contents_of_dicts (ms : list pyval) (cs : list string) :
  Forall2 (fun m c => exists d, m = PDict d /\ Dict.get "content" d = Some (PStr c)) ms cs ->
  contents_of ms = Ok (map PStr cs).
Proof.
  induction 1 as [|m c ms cs [d [-> Hd]] _ IH]; [reflexivity|].
  cbn [contents_of py_getitem]. rewrite Hd. cbn [bind]. rewrite IH. reflexivity.
Qed.

Lemma join_items_strings (cs : list string) (i : nat) :
  join_items i (map PStr cs) = Ok cs.
Proof.
  revert i. induction cs as [|c cs IH]; intros i; [reflexivity|].
  cbn [map join_items]. rewrite IH. reflexivity.
Qed.

Lemma to_text_of_messages (ms : list pyval) (cs : list string) :
  Forall2 (fun m c => exists d, m = PDict d /\ Dict.get "content" d = Some (PStr c)) ms cs ->
  to_text (PList ms) = Ok (PStr (String.concat nl cs)).
Proof.
  intros H. unfold to_text, str_join.
  rewrite (contents_of_dicts _ _ H). cbn [bind].
  rewrite join_items_strings. reflexivity.
Qed.

Lemma split_concat_lines (cs : list string) :
  cs <> [] -> Forall (fun c => contains nl c = false) cs ->
  split nl (String.concat nl cs) = cs.
Proof.
  intros Hne H. induction H as [|c cs Hc H IH]; [congruence|].
  destruct cs as [|c' cs].
  - cbn [String.concat]. apply split_none, find_none_iff_contains, Hc.
  - change (String.concat nl (c :: c' :: cs))
      with (c ++ nl ++ String.concat nl (c' :: cs)).
    rewrite (split_app_sep nl c _ eq_refl Hc). f_equal. apply IH. discriminate.
Qed.

Lemma contents_of_missing (pre : list pyval) (d : Dict.dict pyval) (post : list pyval)
      (cs : list string) :
  Forall2 (fun m c => exists d, m = PDict d /\ Dict.get "content" d = Some (PStr c)) pre cs ->
  Dict.get "content" d = None ->
  contents_of (pre ++ PDict d :: post)%list = Raise (Exn KeyError "'content'").
Proof.
  intros H Hd. induction H as [|m c ms cs' [d' [-> Hd']] _ IH].
  - cbn [app contents_of py_getitem]. rewrite Hd. reflexivity.
  - cbn [app contents_of py_getitem]. rewrite Hd'. cbn [bind]. rewrite IH. reflexivity.
Qed.

Lemma get_filter_key {V : Type} (d : Dict.dict V) (k k0 : string) :
  Dict.get k (filter (fun kv => negb (String.eqb (fst kv) k0)) d)
  = if String.eqb k k0 then None else Dict.get k d.
Proof.
  induction d as [|[k' v'] d IH]; cbn [filter Dict.get fst].
  - destruct (String.eqb k k0); reflexivity.
  - destruct (String.eqb_spec k' k0) as [->|Hne]; cbn [negb Dict.get].
    + rewrite IH. destruct (String.eqb_spec k k0); reflexivity.
    + rewrite IH. destruct (String.eqb_spec k k') as [->|Hk].
      * apply String.eqb_neq in Hne. rewrite Hne. reflexivity.
      * reflexivity.
Qed.

Lemma keys_filter_key {V : Type} (d : Dict.dict V) (k0 : string) :
  Dict.keys (filter (fun kv => negb (String.eqb (fst kv) k0)) d)
  = filter (fun k => negb (String.eqb k k0)) (Dict.keys d).
Proof.
  induction d as [|[k' v'] d IH]; [reflexivity|].
  cbn [filter Dict.keys map fst]. destruct (String.eqb k' k0); cbn [negb map fst].
  - exact IH.
  - f_equal. exact IH.
Qed.

Lemma NoDup_filter {A : Type} (f : A -> bool) (l : list A) :
  NoDup l -> NoDup (filter f l).
Proof.
  induction 1 as [|a l Hout Hnd IH]; cbn [filter]; [constructor|].
  destruct (f a); [|exact IH]. constructor; [|exact IH].
  intros Hin. apply filter_In in Hin as [Hin _]. contradiction.
Qed.

Lemma succinct_log (log : Dict.dict pyval) :
  NoDup (Dict.keys log) ->
  Dict.of_pairs (filter (fun kv => negb (String.eqb (fst kv) "agent_memory")) log)
  = filter (fun kv => negb (String.eqb (fst kv) "agent_memory")) log.
Proof.
  intros Hnd. apply of_pairs_NoDup. rewrite keys_filter_key. apply NoDup_filter, Hnd.
Qed.

End TextFacts.

Section TranscriptSteps.
Context {E : Env}.

Lemma memory_step_length (sm : bool) (i : nat) (s : step_log) :
  List.length (memory_step sm i s []) <= if sm then 4 else 5.
Proof.
  unfold memory_step.
  destruct s as [f_sp f_task f_out f_facts f_plan f_call f_err f_obs]; cbn.
  destruct sm, f_out, f_facts, f_plan, f_call, f_task, f_err, f_obs; cbn; lia.
Qed.

Lemma write_inner_memory_unfold (self : Agent) (sm : bool) (log0 : step_log)
      (steps : list step_log) (memory : list message) :
  logs self = log0 :: steps ->
  write_inner_memory_from_logs self sm = Ok memory ->
  exists sp t,
    log_system_prompt log0 = Some sp /\ log_task log0 = Some t
    /\ memory
       = ((if sm then [ {| role := USER; content := "Task: " ++ t |} ]
           else [ {| role := SYSTEM; content := sp |};
                  {| role := USER; content := "Task: " ++ t |} ])
            ++ memory_loop sm 0 steps [])%list.
Proof.
  intros Hl. unfold write_inner_memory_from_logs. rewrite Hl.
  destruct (log_system_prompt log0) as [sp|]; [|discriminate].
  destruct (log_task log0) as [t|]; [|discriminate].
  cbn [log_item bind]. intros H. injection H as <-.
  exists sp, t. split; [reflexivity|]. split; [reflexivity|].
  apply memory_loop_app.
Qed.

Lemma error_step_message (sm : bool) (i : nat) (s : step_log) (e : exn) :
  log_error s = Some e ->
  In {| role := TOOL_RESPONSE;
        content := "[OUTPUT OF STEP " ++ str_nat i ++ "] Error: "
                     ++ exn_str e ++ retry_admonition |}
     (memory_step sm i s []).
Proof.
  intros He. pose proof (error_before_observation sm i s e He) as Hf.
  assert (Hin : In {| role := TOOL_RESPONSE;
                      content := "[OUTPUT OF STEP " ++ str_nat i ++ "] Error: "
                                   ++ exn_str e ++ retry_admonition |}
                   (filter is_tool_response (memory_step sm i s [])))
    by (rewrite Hf; left; reflexivity).
  apply filter_In in Hin. tauto.
Qed.

Lemma observation_step_message (sm : bool) (i : nat) (s : step_log) (o : pyval) :
  log_error s = None -> log_observation s = Some o ->
  In {| role := TOOL_RESPONSE;
        content := "[OUTPUT OF STEP " ++ str_nat i ++ "] Observation:" ++ nl ++ py_str o |}
     (memory_step sm i s []).
Proof.
  intros He Ho. unfold memory_step. rewrite He, Ho.
  apply in_or_app. right. left. reflexivity.
Qed.

Lemma filter_response_cases (sm : bool) (i : nat) (s : step_log) :
  filter is_tool_response (memory_step sm i s [])
  = match log_error s, log_observation s with
    | Some e, _ =>
        [ {| role := TOOL_RESPONSE;
             content := "[OUTPUT OF STEP " ++ str_nat i ++ "] Error: "
                          ++ exn_str e ++ retry_admonition |} ]
    | None, Some o =>
        [ {| role := TOOL_RESPONSE;
             content := "[OUTPUT OF STEP " ++ str_nat i ++ "] Observation:" ++ nl
                          ++ py_str o |} ]
    | None, None => []
    end.
Proof.
  unfold memory_step.
  destruct s as [f_sp f_task f_out f_facts f_plan f_call f_err f_obs]; cbn.
  destruct sm, f_out, f_facts, f_plan, f_call, f_task, f_err, f_obs; reflexivity.
Qed.

Lemma memory_loop_origin (sm : bool) (steps : list step_log) :
  forall (i : nat) (m : message),
    In m (memory_loop sm i steps []) ->
    exists k step, nth_error steps k = Some step /\ In m (memory_step sm (i + k) step []).
Proof.
  induction steps as [|s steps IH]; intros i m Hin; [contradiction|].
  rewrite memory_loop_cons in Hin. apply in_app_or in Hin as [Hin|Hin].
  - exists 0, s. split; [reflexivity|]. rewrite Nat.add_0_r. exact Hin.
  - destruct (IH _ _ Hin) as [k [step [Hn Hk]]].
    exists (S k), step. split; [exact Hn|].
    replace (i + S k) with (S i + k) by lia. exact Hk.
Qed.

End TranscriptSteps.

Section ConstructorFacts.
Context {E : Env}.
Variable is_torch_available : bool.
Variable FinalAnswerTool : Tool.
Variable ReactJsonAgent : option string.

Lemma Agent_init_finish_ok
      (cls : string) (g g' : Globals) (shared : bool) (tb : Toolbox)
      (engine : list message -> list string -> result string)
      (sp tdt : string) (mi : nat) (caller : option Toolbox) (a : Agent) :
  Agent_init_finish FinalAnswerTool cls g shared tb engine sp tdt mi = (g', caller, Ok a) ->
  g' = g
  /\ caller = (if shared then Some (toolbox a) else None)
  /\ Dict.get (tool_name FinalAnswerTool) (_tools tb) = None
  /\ _tools (toolbox a)
     = Dict.set (tool_name FinalAnswerTool) (Concrete FinalAnswerTool) (_tools tb)
  /\ system_prompt a = format_prompt_with_tools (toolbox a) sp tdt
  /\ logs a = [] /\ prompt a = None /\ task a = None /\ state a = None
  /\ authorized_imports a = None.
Proof.
  unfold Agent_init_finish.
  destruct (add_tool tb (Concrete FinalAnswerTool)) as [tb' [[]|e|b]] eqn:Hadd;
    [|discriminate..].
  apply add_tool_ok in Hadd as [Hnone Hset]. cbn [entry_name] in *.
  intros H. injection H as <- <- <-. cbn. repeat split; assumption.
Qed.

Lemma Agent_init_finish_clash
      (cls : string) (g : Globals) (shared : bool) (tb : Toolbox)
      (engine : list message -> list string -> result string)
      (sp tdt : string) (mi : nat) (old : entry) :
  Dict.get (tool_name FinalAnswerTool) (_tools tb) = Some old ->
  Agent_init_finish FinalAnswerTool cls g shared tb engine sp tdt mi
  = (g, if shared then Some tb else None,
     Raise (KeyError_of
              ("Error: tool '" ++ tool_name FinalAnswerTool
                 ++ "' already exists in the toolbox."))).
Proof.
  intros H. unfold Agent_init_finish.
  pose proof (add_tool_result tb (Concrete FinalAnswerTool)) as Hres.
  cbn [entry_name] in Hres. rewrite H in Hres. rewrite Hres. reflexivity.
Qed.

Lemma Agent_init_ok
      (cls : string) (g g' : Globals) (tools : tools_arg)
      (engine : list message -> list string -> result string)
      (sp : string) (tdt : option string) (mi : nat) (add_base : bool)
      (caller : option Toolbox) (a : Agent) :
  Agent_init is_torch_available FinalAnswerTool ReactJsonAgent
             cls g tools engine sp tdt mi add_base = (g', caller, Ok a) ->
  exists tb,
    Dict.get (tool_name FinalAnswerTool) (_tools tb) = None
    /\ _tools (toolbox a)
       = Dict.set (tool_name FinalAnswerTool) (Concrete FinalAnswerTool) (_tools tb)
    /\ caller = match tools with
                | ToolboxObject _ => Some (toolbox a)
                | ToolList _ => None
                end
    /\ system_prompt a
       = format_prompt_with_tools (toolbox a) sp (tool_description_template a)
    /\ logs a = [] /\ prompt a = None /\ task a = None /\ state a = None.
Proof.
  unfold Agent_init. cbn zeta.
  set (tdt' := match tdt with Some t => _ | None => _ end).
  assert (Hfin : forall g0 shared tb,
             Agent_init_finish FinalAnswerTool cls g0 shared tb engine sp tdt' mi
             = (g', caller, Ok a) ->
             exists tb0,
               Dict.get (tool_name FinalAnswerTool) (_tools tb0) = None
               /\ _tools (toolbox a)
                  = Dict.set (tool_name FinalAnswerTool) (Concrete FinalAnswerTool)
                             (_tools tb0)
               /\ caller = (if shared then Some (toolbox a) else None)
               /\ system_prompt a
                  = format_prompt_with_tools (toolbox a) sp (tool_description_template a)
               /\ logs a = [] /\ prompt a = None /\ task a = None /\ state a = None).
  { intros g0 shared tb H.
    assert (Ht : tool_description_template a = tdt').
    { unfold Agent_init_finish in H.
      destruct (add_tool tb _) as [tb1 [[]|e|b]]; [|discriminate..].
      injection H as _ _ <-. reflexivity. }
    rewrite Ht.
    destruct (Agent_init_finish_ok _ _ _ _ _ _ _ _ _ _ _ H)
      as [_ [Hc [Hn [Hs [Hp [Hl [Hpr [Hta [Hst _]]]]]]]]].
    exists tb. repeat split; assumption. }
  destruct tools as [l|tb].
  - destruct (Toolbox_init g l add_base) as [g1 [tb|e|b]]; [|discriminate..].
    intros H. exact (Hfin _ _ _ H).
  - destruct add_base.
    + destruct (negb is_torch_available); [discriminate|].
      destruct ReactJsonAgent as [c|]; [|discriminate].
      destruct (add_base_tools g tb _) as [[g1 tb1] [[]|e|b]]; [|discriminate..].
      intros H. exact (Hfin _ _ _ H).
    + intros H. exact (Hfin _ _ _ H).
Qed.

Lemma Agent_init_shared_again
      (cls : string) (g : Globals) (tb : Toolbox)
      (engine : list message -> list string -> result string)
      (sp : string) (tdt : option string) (mi : nat) (old : entry) :
  Dict.get (tool_name FinalAnswerTool) (_tools tb) = Some old ->
  Agent_init is_torch_available FinalAnswerTool ReactJsonAgent
             cls g (ToolboxObject tb) engine sp tdt mi false
  = (g, Some tb,
     Raise (KeyError_of
              ("Error: tool '" ++ tool_name FinalAnswerTool
                 ++ "' already exists in the toolbox."))).
Proof.
  intros H. unfold Agent_init. cbn zeta.
  apply (Agent_init_finish_clash _ _ true _ _ _ _ _ _ H).
Qed.

End ConstructorFacts.

(** ** Parsers, registry, constructor, transcript, run *)

(** X1. A text without a closing brace never reaches the decoder:
    [parse_json_blob] raises a [ValueError] whose message carries the
    failure of the index [-1] on the empty list of brace positions. *)
Theorem parse_json_blob_without_closing_brace :
  forall (E : Env) (json_blob : string),
    no_char "}" json_blob = true ->
    parse_json_blob json_blob
    = Raise (Exn ValueError "Error in parsing the JSON blob: list index out of range").
Proof.
  intros E blob H. unfold parse_json_blob.
  rewrite (finditer_char_none "}" 0 blob H). reflexivity.
Qed.

Lemma parse_json_blob_without_closing_brace_witness :
  no_char "}" (lit "{'action': 'search'") = true
  /\ @parse_json_blob sample_env (lit "{'action': 'search'")
     = Raise (Exn ValueError "Error in parsing the JSON blob: list index out of range").
Proof.
  split; [reflexivity|].
  apply parse_json_blob_without_closing_brace. reflexivity.
Defined.

(** X2. With a decoder that, on a text that starts with an opening
    brace, gives an object or fails, and that decodes neither the empty
    text nor a lone closing brace (as a JSON decoder does), every value
    [parse_json_blob] returns is an object: the text it decodes is
    empty, a lone closing brace, or starts at the first opening brace. *)
Theorem parse_json_blob_returns_object :
  forall (E : Env),
    (forall (s : string) (v : pyval),
        json_loads s = Decoded v -> prefix "{" s = true -> exists d, v = PDict d) ->
    (forall v : pyval, json_loads EmptyString <> Decoded v) ->
    (forall v : pyval, json_loads "}" <> Decoded v) ->
    forall (json_blob : string) (v : pyval),
      parse_json_blob json_blob = Ok v -> exists d, v = PDict d.
Proof. intros E. apply parse_json_blob_gives_object. Qed.

Lemma parse_json_blob_returns_object_witness :
  exists d : Dict.dict pyval,
    @parse_json_blob sample_env (lit "see {'action': 'a', 'n': [1, 2]} there")
    = Ok (PDict d).
Proof.
  destruct (@parse_json_blob sample_env (lit "see {'action': 'a', 'n': [1, 2]} there"))
    as [v|e|b] eqn:Hp; [|vm_compute in Hp; discriminate Hp..].
  destruct (parse_json_blob_returns_object
              sample_env loads_object
              (fun v H => ltac:(vm_compute in H; discriminate H))
              (fun v H => ltac:(vm_compute in H; discriminate H))
              _ v Hp) as [d ->].
  exists d. reflexivity.
Defined.

(** X3. Whatever the decoder does, every exception that leaves
    [parse_json_blob], [parse_code_blob] or [parse_text_tool_call] is a
    [ValueError]: they raise no other instance of [Exception] and no
    exception outside [Exception]. *)
Theorem parsers_raise_only_ValueError :
  (forall (E : Env) (json_blob : string) (e : exn),
      parse_json_blob json_blob = Raise e -> exn_kind e = ValueError)
  /\ (forall (code_blob : string) (e : exn),
         parse_code_blob code_blob = Raise e -> exn_kind e = ValueError)
  /\ (forall (E : Env) (text : string) (e : exn),
         parse_text_tool_call text = Raise e -> exn_kind e = ValueError)
  /\ (forall (E : Env) (text : string) (b : base_exn),
         parse_json_blob text <> RaiseBase b
         /\ parse_code_blob text <> RaiseBase b
         /\ parse_text_tool_call text <> RaiseBase b).
Proof.
  split; [|split; [|split]].
  - intros E. apply parse_json_blob_ValueError.
  - apply parse_code_blob_ValueError.
  - intros E. apply parse_text_tool_call_ValueError.
  - intros E text b. split; [|split].
    + apply parse_json_blob_no_base.
    + apply parse_code_blob_no_base.
    + apply parse_text_tool_call_no_base.
Qed.

Lemma parsers_raise_only_ValueError_witness :
  exists e1 e2 e3 : exn,
    (@parse_json_blob sample_env "{1}" = Raise e1 /\ exn_kind e1 = ValueError)
    /\ (parse_code_blob "x = 1" = Raise e2 /\ exn_kind e2 = ValueError)
    /\ (@parse_text_tool_call sample_env "Action: a" = Raise e3
        /\ exn_kind e3 = ValueError).
Proof.
  do 3 eexists. split; [|split].
  - split; [vm_compute; reflexivity|].
    eapply (proj1 parsers_raise_only_ValueError sample_env "{1}").
    vm_compute. reflexivity.
  - split; [vm_compute; reflexivity|].
    eapply (proj1 (proj2 parsers_raise_only_ValueError) "x = 1").
    vm_compute. reflexivity.
  - split; [vm_compute; reflexivity|].
    eapply (proj1 (proj2 (proj2 parsers_raise_only_ValueError)) sample_env "Action: a").
    vm_compute. reflexivity.
Defined.

(** X4. A fenced block is found and returned without its fences: when
    no backquote stands before the opening fence, the tag is [py],
    [python] or absent, and the body holds no line feed followed by a
    fence, [parse_code_blob] returns the body, trimmed, whatever
    follows the closing fence. *)
Theorem parse_code_blob_fenced_block :
  forall (pre tag body suf : string),
    no_char "`" pre = true ->
    tag = "py" \/ tag = "python" \/ tag = EmptyString ->
    contains (nl ++ "```") body = false ->
    parse_code_blob (pre ++ "```" ++ tag ++ nl ++ body ++ nl ++ "```" ++ suf)
    = Ok (strip body).
Proof.
  intros pre tag body suf Hpre Htag Hbody. unfold parse_code_blob.
  rewrite (search_code_skip pre _ Hpre).
  rewrite (search_code_here _ _ (match_code_here_fenced tag body suf Htag Hbody)).
  reflexivity.
Qed.

Lemma parse_code_blob_fenced_block_witness :
  no_char "`" (lit "Thoughts: add.^Code:^") = true
  /\ parse_code_blob (lit "Thoughts: add.^Code:^" ++ "```" ++ "py" ++ nl
                          ++ lit "  x = 2 + 2^print(x) " ++ nl ++ "```" ++ "<end_action>")
     = Ok (lit "x = 2 + 2^print(x)").
Proof.
  split; [reflexivity|].
  rewrite (parse_code_blob_fenced_block
             (lit "Thoughts: add.^Code:^") "py" (lit "  x = 2 + 2^print(x) ")
             "<end_action>");
    [reflexivity | reflexivity | left; reflexivity | reflexivity].
Defined.

(** X5. The code [parse_code_blob] returns is trimmed (trimming it
    again changes nothing) and holds no line feed followed by a fence:
    the body stops at the first closing fence. *)
Theorem parse_code_blob_result_is_trimmed :
  forall (code_blob code : string),
    parse_code_blob code_blob = Ok code ->
    strip code = code /\ contains (nl ++ "```") code = false.
Proof.
  intros s code. unfold parse_code_blob.
  destruct (search_code s) as [g|] eqn:Hs; [|discriminate].
  intros H. injection H as <-. split; [apply strip_idem|].
  apply find_none_iff_contains, find_none_strip. eapply search_code_body. exact Hs.
Qed.

Lemma parse_code_blob_result_is_trimmed_witness :
  parse_code_blob (lit "```^ a ^```^ b ^```") = Ok "a"
  /\ strip "a" = "a" /\ contains (nl ++ "```") "a" = false.
Proof.
  split; [reflexivity|].
  apply (parse_code_blob_result_is_trimmed (lit "```^ a ^```^ b ^```") "a").
  reflexivity.
Defined.

(** X6. With such a decoder every exception that leaves
    [parse_json_tool_call] is a [ValueError]; and, whatever the decoder,
    an object without the key [action] is refused with the list of the
    keys it lacks among [action] and [action_input], an [action_input]
    alone being no tool call, and no exception outside [Exception]
    leaves [parse_json_tool_call]. *)
Theorem parse_json_tool_call_raises_only_ValueError :
  (forall (E : Env),
      (forall (s : string) (v : pyval),
          json_loads s = Decoded v -> prefix "{" s = true -> exists d, v = PDict d) ->
      (forall v : pyval, json_loads EmptyString <> Decoded v) ->
      (forall v : pyval, json_loads "}" <> Decoded v) ->
      forall (json_blob : string) (e : exn),
        parse_json_tool_call json_blob = Raise e -> exn_kind e = ValueError)
  /\ (forall (E : Env) (json_blob : string) (d : Dict.dict pyval),
         parse_json_blob
           (replace "```" EmptyString (replace "```json" EmptyString json_blob))
         = Ok (PDict d) ->
         Dict.get "action" d = None ->
         parse_json_tool_call json_blob
         = Raise (Exn ValueError
                    ("Missing keys: "
                       ++ repr_str_list
                            ("action" :: (if Dict.mem "action_input" d then []
                                          else ["action_input"]))
                       ++ " in blob " ++ py_str (PDict d))))
  /\ (forall (E : Env) (json_blob : string) (b : base_exn),
         parse_json_tool_call json_blob <> RaiseBase b).
Proof.
  split; [|split].
  - intros E Hobj Hempty Hbrace blob e H.
    destruct (parse_json_blob
                (replace "```" EmptyString (replace "```json" EmptyString blob)))
      as [v|e0|b0] eqn:Hp.
    + destruct (parse_json_blob_gives_object Hobj Hempty Hbrace _ _ Hp) as [d ->].
      rewrite (parse_json_tool_call_object _ _ Hp) in H.
      destruct (Dict.get "action" d); [discriminate|].
      injection H as <-. reflexivity.
    + unfold parse_json_tool_call in H. rewrite Hp in H. cbn [bind] in H.
      injection H as <-. exact (parse_json_blob_ValueError _ _ Hp).
    + exfalso. exact (parse_json_blob_no_base _ _ Hp).
  - intros E blob d Hp Ha. rewrite (parse_json_tool_call_object _ _ Hp), Ha.
    reflexivity.
  - intros E. apply parse_json_tool_call_no_base.
Qed.

Lemma parse_json_tool_call_raises_only_ValueError_witness :
  @parse_json_tool_call sample_env (lit "```json^{'action_input': {'q': 1}}^```")
  = Raise (Exn ValueError "Missing keys: ['action'] in blob <value>")
  /\ exn_kind (Exn ValueError "Missing keys: ['action'] in blob <value>") = ValueError.
Proof.
  split.
  - apply (proj1 (proj2 parse_json_tool_call_raises_only_ValueError) sample_env
                 (lit "```json^{'action_input': {'q': 1}}^```")
                 [("action_input", PDict [("q", PInt 1)])]);
      vm_compute; reflexivity.
  - apply (proj1 parse_json_tool_call_raises_only_ValueError
                 sample_env loads_object
                 (fun v H => ltac:(vm_compute in H; discriminate H))
                 (fun v H => ltac:(vm_compute in H; discriminate H))
                 (lit "```json^{'action_input': {'q': 1}}^```")).
    vm_compute. reflexivity.
Defined.

(** X7. A text without the marker [Action input:] is refused: the
    unpacking of the one piece fails and [parse_text_tool_call] raises
    the [ValueError] that carries that failure, with or without
    [Action:] and [Observation:] markers. *)
Theorem parse_text_tool_call_without_input_marker :
  forall (E : Env) (text : string),
    contains "Action input:" text = false ->
    parse_text_tool_call text
    = Raise (Exn ValueError
               ("Error in parsing the text tool call: "
                  ++ "not enough values to unpack (expected 2, got 1)"
                  ++ ". Be sure to provide the correct format. DO NOT repeat your previous incorrect tool call.")).
Proof. intros E text H. apply parse_text_tool_call_no_input_marker. exact H. Qed.

Lemma parse_text_tool_call_without_input_marker_witness :
  contains "Action input:" (lit "Action: search^Observation: none") = false
  /\ @parse_text_tool_call sample_env (lit "Action: search^Observation: none")
     = Raise (Exn ValueError
                "Error in parsing the text tool call: not enough values to unpack (expected 2, got 1). Be sure to provide the correct format. DO NOT repeat your previous incorrect tool call.").
Proof.
  split; [reflexivity|].
  rewrite (parse_text_tool_call_without_input_marker
             sample_env (lit "Action: search^Observation: none") eq_refl).
  reflexivity.
Defined.

(** X8. The tool name [parse_text_tool_call] returns holds no double
    quote and no backslash. *)
Theorem parse_text_tool_call_name_has_no_quote :
  forall (E : Env) (text tool_name : string) (tool_input : pyval),
    parse_text_tool_call text = Ok (tool_name, tool_input) ->
    no_char "034" tool_name = true /\ no_char "\" tool_name = true.
Proof. intros E text n v H. eapply parse_text_tool_call_name. exact H. Qed.

Lemma parse_text_tool_call_name_has_no_quote_witness :
  @parse_text_tool_call sample_env (lit "Action: 'sea\rch'^Action input: 'x'")
  = Ok ("search", PStr "x")
  /\ no_char "034" "search" = true /\ no_char "\" "search" = true.
Proof.
  split; [vm_compute; reflexivity|].
  apply (parse_text_tool_call_name_has_no_quote
           sample_env (lit "Action: 'sea\rch'^Action input: 'x'") "search" (PStr "x")).
  vm_compute. reflexivity.
Defined.

(** X9. On a list of messages that each hold a string under
    [content], [to_text] gives the contents joined by line feeds, in
    order; when no content holds a line feed and the list is not
    empty, the lines of the result are the contents again. A message
    without [content], alone or in a list after well-formed ones, makes
    [to_text] raise a [KeyError]. *)
Theorem to_text_joins_contents :
  (forall (ms : list pyval) (cs : list string),
      Forall2 (fun m c => exists d, m = PDict d /\ Dict.get "content" d = Some (PStr c))
              ms cs ->
      to_text (PList ms) = Ok (PStr (String.concat nl cs))
      /\ (cs <> [] -> Forall (fun c => contains nl c = false) cs ->
          split nl (String.concat nl cs) = cs))
  /\ (forall (pre post : list pyval) (cs : list string) (d : Dict.dict pyval),
         Forall2 (fun m c => exists d, m = PDict d /\ Dict.get "content" d = Some (PStr c))
                 pre cs ->
         Dict.get "content" d = None ->
         to_text (PList (pre ++ PDict d :: post)) = Raise (Exn KeyError "'content'")
         /\ to_text (PDict d) = Raise (Exn KeyError "'content'")).
Proof.
  split.
  - intros ms cs H. split; [exact (to_text_of_messages ms cs H)|].
    apply split_concat_lines.
  - intros pre post cs d H Hd. split.
    + unfold to_text. rewrite (contents_of_missing pre d post cs H Hd). reflexivity.
    + unfold to_text. cbn [py_getitem]. rewrite Hd. reflexivity.
Qed.

Lemma to_text_joins_contents_witness :
  to_text (PList [ PDict [("role", PStr "system"); ("content", PStr "You are an agent.")];
                   PDict [("role", PStr "user"); ("content", PStr "Task: count")] ])
  = Ok (PStr (lit "You are an agent.^Task: count"))
  /\ split nl (lit "You are an agent.^Task: count") = ["You are an agent."; "Task: count"].
Proof.
  assert (H : Forall2
                (fun m c => exists d, m = PDict d /\ Dict.get "content" d = Some (PStr c))
                [ PDict [("role", PStr "system"); ("content", PStr "You are an agent.")];
                  PDict [("role", PStr "user"); ("content", PStr "Task: count")] ]
                ["You are an agent."; "Task: count"]).
  { repeat constructor; eexists; split; reflexivity. }
  destruct (proj1 to_text_joins_contents _ _ H) as [Ht Hs].
  split; [exact Ht|].
  apply Hs; [discriminate | repeat constructor].
Defined.

(** X10. [remove_tool] undoes [add_tool]: removing the tool just added
    gives back the registry as it was. On a registry it removes
    exactly the named entry, the others keeping their values and their
    order; for a name that is not in the registry it raises a
    [KeyError] on a message that lists the names as Python prints a
    list of strings, and leaves the registry as it is. As for every
    [KeyError], the text of the exception is the [repr] of that
    message, between quotes. *)
Theorem remove_tool_removes_the_named_entry :
  (forall (self self' : Toolbox) (tool : entry),
      add_tool self tool = (self', Ok tt) ->
      remove_tool self' (entry_name tool) = (self, Ok tt))
  /\ (forall (self self' : Toolbox) (tool_name : string),
         NoDup (Dict.keys (_tools self)) ->
         remove_tool self tool_name = (self', Ok tt) ->
         Dict.get tool_name (_tools self') = None
         /\ (forall k, k <> tool_name ->
                       Dict.get k (_tools self') = Dict.get k (_tools self))
         /\ Dict.keys (_tools self')
            = List.remove string_dec tool_name (Dict.keys (_tools self)))
  /\ (forall (self : Toolbox) (tool_name : string),
         Dict.get tool_name (_tools self) = None ->
         remove_tool self tool_name
         = (self, Raise (KeyError_of
                           ("Error: tool " ++ tool_name
                              ++ " not found in toolbox for removal, should be instead one of "
                              ++ repr_str_list (Dict.keys (_tools self)) ++ ".")))).
Proof.
  split; [|split].
  - apply add_then_remove.
  - apply remove_tool_ok.
  - apply remove_tool_absent_raises.
Qed.

Lemma remove_tool_removes_the_named_entry_witness :
  add_tool {| _tools := [("search", Concrete first_search)] |} (Concrete path_tool)
  = ({| _tools := [("search", Concrete first_search);
                   ("image_loader", Concrete path_tool)] |}, Ok tt)
  /\ remove_tool {| _tools := [("search", Concrete first_search);
                               ("image_loader", Concrete path_tool)] |} "image_loader"
     = ({| _tools := [("search", Concrete first_search)] |}, Ok tt)
  /\ remove_tool {| _tools := [("search", Concrete first_search);
                               ("it's", Concrete path_tool)] |} "crop"
     = ({| _tools := [("search", Concrete first_search); ("it's", Concrete path_tool)] |},
        Raise (Exn KeyError
                 ("'Error: tool crop not found in toolbox for removal, should be instead one of [\'search\', "
                    ++ dq ++ "it\'s" ++ dq ++ "].'"))).
Proof.
  split; [reflexivity|]. split.
  - apply (proj1 remove_tool_removes_the_named_entry
                 {| _tools := [("search", Concrete first_search)] |} _ (Concrete path_tool)).
    reflexivity.
  - rewrite (proj2 (proj2 remove_tool_removes_the_named_entry)
                   {| _tools := [("search", Concrete first_search);
                                 ("it's", Concrete path_tool)] |} "crop" eq_refl).
    reflexivity.
Defined.

(** X11. [update_tool] replaces the entry of the tool's name where it
    stands: the names of the registry and their order stay, the other
    entries stay; for a name that is not in the registry it raises a
    [KeyError] on a message that lists the names as Python prints a
    list of strings, the text of the exception being the [repr] of that
    message, and leaves the registry as it is. *)
Theorem update_tool_keeps_order :
  (forall (self self' : Toolbox) (tool : entry),
      update_tool self tool = (self', Ok tt) ->
      Dict.keys (_tools self') = Dict.keys (_tools self)
      /\ Dict.get (entry_name tool) (_tools self') = Some tool
      /\ (forall k, k <> entry_name tool ->
                    Dict.get k (_tools self') = Dict.get k (_tools self)))
  /\ (forall (self : Toolbox) (tool : entry),
         Dict.get (entry_name tool) (_tools self) = None ->
         update_tool self tool
         = (self, Raise (KeyError_of
                           ("Error: tool " ++ entry_name tool
                              ++ " not found in toolbox for update, should be instead one of "
                              ++ repr_str_list (Dict.keys (_tools self)) ++ ".")))).
Proof.
  split.
  - apply update_tool_ok.
  - apply update_tool_absent_raises.
Qed.

Lemma update_tool_keeps_order_witness :
  update_tool {| _tools := [("search", Concrete first_search);
                            ("image_loader", Concrete path_tool)] |}
              (Concrete second_search)
  = ({| _tools := [("search", Concrete second_search);
                   ("image_loader", Concrete path_tool)] |}, Ok tt)
  /\ Dict.keys [("search", Concrete second_search); ("image_loader", Concrete path_tool)]
     = ["search"; "image_loader"]
  /\ update_tool {| _tools := [("image_loader", Concrete path_tool)] |}
                 (Concrete second_search)
     = ({| _tools := [("image_loader", Concrete path_tool)] |},
        Raise (Exn KeyError
                 (dq ++ "Error: tool search not found in toolbox for update, should be instead one of ['image_loader']."
                     ++ dq))).
Proof.
  split; [reflexivity|]. split.
  - apply (proj1 (proj1 update_tool_keeps_order
                        {| _tools := [("search", Concrete first_search);
                                      ("image_loader", Concrete path_tool)] |}
                        {| _tools := [("search", Concrete second_search);
                                      ("image_loader", Concrete path_tool)] |}
                        (Concrete second_search) eq_refl)).
  - rewrite (proj2 update_tool_keeps_order
                   {| _tools := [("image_loader", Concrete path_tool)] |}
                   (Concrete second_search) eq_refl).
    reflexivity.
Defined.

(** X12. A tool added to the registry comes last in its listings:
    [__repr__] grows by the one line of the tool, and
    [show_tool_descriptions] by the description of the tool, after a
    line feed when the registry held a tool already. *)
Theorem add_tool_appends_to_listings :
  forall (E : Env) (self self' : Toolbox) (tool : entry) (template : string),
    add_tool self tool = (self', Ok tt) ->
    Toolbox_repr self'
    = Toolbox_repr self ++ tab ++ entry_name tool ++ ": " ++ entry_description tool ++ nl
    /\ show_tool_descriptions self' template
       = match _tools self with
         | [] => get_tool_description_with_args tool template
         | _ :: _ =>
             show_tool_descriptions self template ++ nl
               ++ get_tool_description_with_args tool template
         end.
Proof.
  intros E self self' tool template H. split.
  - apply Toolbox_repr_add. exact H.
  - apply show_tool_descriptions_add. exact H.
Qed.

Lemma add_tool_appends_to_listings_witness :
  Toolbox_repr {| _tools := [("search", Concrete first_search);
                             ("translator", Deferred sample_pretool)] |}
  = "Toolbox contents:" ++ nl
      ++ tab ++ "search: Searches the web." ++ nl
      ++ tab ++ "translator: Translates a text." ++ nl
  /\ @show_tool_descriptions
       sample_env
       {| _tools := [("search", Concrete first_search);
                     ("translator", Deferred sample_pretool)] |} EmptyString
     = "- search: Searches the web." ++ nl ++ "- translator: Translates a text.".
Proof.
  destruct (add_tool_appends_to_listings
              sample_env
              {| _tools := [("search", Concrete first_search)] |}
              {| _tools := [("search", Concrete first_search);
                            ("translator", Deferred sample_pretool)] |}
              (Deferred sample_pretool) EmptyString eq_refl) as [Hr Hs].
  split; [rewrite Hr | rewrite Hs]; reflexivity.
Defined.

(** X13. When [_load_tools_if_needed] returns, the names of the
    registry and their order are as before, every concrete tool is the
    one it was, and every deferred reference has given way to the tool
    the loader answers for its repository identifier, or for its task
    when it names no repository. *)
Theorem load_tools_resolves_by_repo_id_or_task :
  forall (E : Env) (self self' : Toolbox),
    NoDup (Dict.keys (_tools self)) ->
    _load_tools_if_needed self = (self', Ok tt) ->
    Dict.keys (_tools self') = Dict.keys (_tools self)
    /\ (forall (k : string) (t : Tool),
           Dict.get k (_tools self) = Some (Concrete t) ->
           Dict.get k (_tools self') = Some (Concrete t))
    /\ (forall (k : string) (p : PreTool.t),
           Dict.get k (_tools self) = Some (Deferred p) ->
           exists t,
             load_tool (match PreTool.repo_id p with
                        | None => PreTool.task p
                        | Some repo => repo
                        end) = Ok t
             /\ Dict.get k (_tools self') = Some (Concrete t)).
Proof.
  intros E self self' Hnd H.
  destruct (load_tools_resolves self self' Hnd H) as [Hk Hres].
  split; [exact Hk|]. split.
  - intros k t Hg. exact (Hres k _ Hg).
  - intros k p Hg. exact (Hres k _ Hg).
Qed.

Lemma load_tools_resolves_by_repo_id_or_task_witness :
  @_load_tools_if_needed
    sample_env
    {| _tools := [("translator", Deferred sample_pretool);
                  ("search", Concrete first_search)] |}
  = ({| _tools := [("translator", Concrete (sample_tool "translation"));
                   ("search", Concrete first_search)] |}, Ok tt)
  /\ Dict.keys [("translator", Concrete (sample_tool "translation"));
                ("search", Concrete first_search)]
     = ["translator"; "search"].
Proof.
  split; [reflexivity|].
  apply (proj1 (load_tools_resolves_by_repo_id_or_task
                  sample_env
                  {| _tools := [("translator", Deferred sample_pretool);
                                ("search", Concrete first_search)] |}
                  {| _tools := [("translator", Concrete (sample_tool "translation"));
                                ("search", Concrete first_search)] |}
                  ltac:(repeat constructor; cbn; intuition discriminate)
                  eq_refl)).
Defined.

(** X14. [_load_tools_if_needed] settles: once it has returned, a
    second call changes nothing and asks the loader for nothing. *)
Theorem load_tools_idempotent :
  forall (E : Env) (self self' : Toolbox),
    NoDup (Dict.keys (_tools self)) ->
    _load_tools_if_needed self = (self', Ok tt) ->
    _load_tools_if_needed self' = (self', Ok tt)
    /\ forall E' : Env, @_load_tools_if_needed E' self' = (self', Ok tt).
Proof.
  intros E self self' Hnd H. split.
  - exact (load_tools_settled self self' Hnd H).
  - intros E'.
    destruct (load_tools_all_concrete self self' Hnd H) as [Hc _].
    unfold _load_tools_if_needed. rewrite load_loop_concrete by exact Hc.
    rewrite toolbox_eta. reflexivity.
Qed.

Lemma load_tools_idempotent_witness :
  @_load_tools_if_needed
    sample_env
    {| _tools := [("translator", Deferred sample_pretool)] |}
  = ({| _tools := [("translator", Concrete (sample_tool "translation"))] |}, Ok tt)
  /\ @_load_tools_if_needed
       sample_env
       {| _tools := [("translator", Concrete (sample_tool "translation"))] |}
     = ({| _tools := [("translator", Concrete (sample_tool "translation"))] |}, Ok tt).
Proof.
  split; [reflexivity|].
  apply (proj1 (load_tools_idempotent
                  sample_env
                  {| _tools := [("translator", Deferred sample_pretool)] |}
                  {| _tools := [("translator", Concrete (sample_tool "translation"))] |}
                  ltac:(repeat constructor; cbn; intuition discriminate)
                  eq_refl)).
Defined.

(** X15. [_load_tools_if_needed] returns exactly when the loader
    answers for every deferred reference of the registry; it raises
    otherwise. *)
Theorem load_tools_succeeds_iff_loader_answers :
  forall (E : Env) (self : Toolbox),
    NoDup (Dict.keys (_tools self)) ->
    (snd (_load_tools_if_needed self) = Ok tt
     <-> forall (k : string) (p : PreTool.t),
           In (k, Deferred p) (_tools self) ->
           exists t, load_tool (match PreTool.repo_id p with
                                | None => PreTool.task p
                                | Some repo => repo
                                end) = Ok t).
Proof. intros E self Hnd. exact (load_tools_succeeds_iff self Hnd). Qed.

Lemma load_tools_succeeds_iff_loader_answers_witness :
  snd (@_load_tools_if_needed
         sample_env
         {| _tools := [("translator", Deferred sample_pretool);
                       ("search", Concrete first_search)] |})
  = Ok tt.
Proof.
  apply (proj2 (load_tools_succeeds_iff_loader_answers
                  sample_env
                  {| _tools := [("translator", Deferred sample_pretool);
                                ("search", Concrete first_search)] |}
                  ltac:(repeat constructor; cbn; intuition discriminate))).
  intros k p _. eexists. reflexivity.
Defined.

(** X16. Every entry [setup_default_tools] makes is a deferred
    reference built from one line of the table of base tasks: it stands
    under the name of the tool the class of the line instantiates,
    carries that tool's name, inputs, output type and description with
    the task of the line, and names no repository. The name of the tool
    of every line is a key of the result, and there are no more entries
    than lines. *)
Theorem setup_default_tools_entries :
  forall (E : Env),
    (forall (k : string) (e : entry),
        In (k, e) setup_default_tools ->
        exists task tool_class_name,
          In (task, tool_class_name) TASK_MAPPING
          /\ k = tool_name (tool_class tool_class_name)
          /\ e = Deferred
                   {| PreTool.name := tool_name (tool_class tool_class_name);
                      PreTool.inputs := tool_inputs (tool_class tool_class_name);
                      PreTool.output_type := tool_output_type (tool_class tool_class_name);
                      PreTool.task := task;
                      PreTool.description := tool_description (tool_class tool_class_name);
                      PreTool.repo_id := None |})
    /\ (forall (task tool_class_name : string),
           In (task, tool_class_name) TASK_MAPPING ->
           Dict.mem (tool_name (tool_class tool_class_name)) setup_default_tools = true)
    /\ NoDup (Dict.keys setup_default_tools)
    /\ List.length setup_default_tools <= List.length TASK_MAPPING.
Proof.
  intros E. split; [|split; [|split]].
  - apply setup_default_tools_In.
  - intros task cls Hin. destruct (setup_default_tools_get task cls Hin) as [e [Hg _]].
    unfold Dict.mem. rewrite Hg. reflexivity.
  - rewrite setup_default_tools_pairs. apply NoDup_keys_of_pairs.
  - rewrite setup_default_tools_pairs. unfold Dict.of_pairs.
    pose proof (length_fold_set (map default_pair TASK_MAPPING) []) as H.
    rewrite length_map in H. exact H.
Qed.

Lemma setup_default_tools_entries_witness :
  Dict.keys (@setup_default_tools sample_env)
  = ["document_qa"; "image_qa"; "transcriber"; "text_reader"; "translator";
     "python_interpreter"]
  /\ Dict.mem "translator" (@setup_default_tools sample_env) = true.
Proof.
  split; [reflexivity|].
  apply (proj1 (proj2 (setup_default_tools_entries sample_env))
               "translation" "TranslationTool").
  cbn. tauto.
Defined.

(** X17. When [add_base_tools] returns, the registry holds what it held
    and every default tool that passed the test of the loop, under its
    name, as a concrete tool: a default that was a deferred reference
    stands replaced by the tool the loader answers for its repository
    or, without one, its task; with the flag off no tool named
    [python_interpreter] is added. The defaults are those of the
    globals, which a first call takes from the imported
    [setup_default_tools] and every later call leaves as they are. *)
Theorem add_base_tools_adds_selected_defaults :
  forall (E : Env) (g g' : Globals) (self self' : Toolbox) (flag : bool),
    NoDup (Dict.keys (_tools self)) ->
    add_base_tools g self flag = (g', self', Ok tt) ->
    (forall k, In k (Dict.keys (_tools self')) ->
               In k (Dict.keys (_tools self))
               \/ (In k (map entry_name (Dict.values (HUGGINGFACE_DEFAULT_TOOLS g')))
                   /\ (k <> "python_interpreter" \/ flag = true)))
    /\ (forall e, In e (Dict.values (HUGGINGFACE_DEFAULT_TOOLS g')) ->
                  entry_name e <> "python_interpreter" \/ flag = true ->
                  match e with
                  | Concrete t =>
                      Dict.get (entry_name e) (_tools self') = Some (Concrete t)
                  | Deferred p =>
                      exists t, load_tool (task_or_repo_id p) = Ok t
                                /\ Dict.get (entry_name e) (_tools self')
                                   = Some (Concrete t)
                  end)
    /\ (Dict.mem "python_interpreter" (_tools self) = false -> flag = false ->
        Dict.mem "python_interpreter" (_tools self') = false)
    /\ _tools_are_initialized g' = true
    /\ (if _tools_are_initialized g then g' = g
        else imported_setup_default_tools = Ok (HUGGINGFACE_DEFAULT_TOOLS g')).
Proof.
  assert (Hsel : forall (flag : bool) (e : entry),
             entry_name e <> "python_interpreter" \/ flag = true ->
             selected_default flag e = true).
  { intros flag e [Hne| ->]; unfold selected_default; [|apply orb_true_r].
    apply String.eqb_neq in Hne. rewrite Hne. reflexivity. }
  intros E g g' self self' flag Hnd H.
  destruct (add_base_tools_keys g g' self self' flag Hnd H) as [Horigin [_ Hres]].
  destruct (add_base_tools_inv _ _ _ _ _ H) as [Hinit [_ Hfrom]].
  split; [|split; [|split; [|split]]].
  - intros k Hk. destruct (Horigin k Hk) as [Hin|[e [Hin [Hn Ha]]]]; [left; exact Hin|].
    right. split.
    + rewrite <- Hn. apply in_map. exact Hin.
    + unfold selected_default in Ha.
      apply orb_true_iff in Ha as [Ha| ->]; [|right; reflexivity].
      left. apply negb_true_iff, String.eqb_neq in Ha. congruence.
  - intros e Hin Hs. apply Hres; [exact Hin | apply Hsel; exact Hs].
  - intros Hno ->. destruct (Dict.mem "python_interpreter" (_tools self')) eqn:Hm;
      [|reflexivity].
    apply mem_in_keys in Hm. destruct (Horigin _ Hm) as [Hin|[e [Hin [Hn Ha]]]].
    + apply mem_in_keys in Hin. congruence.
    + unfold selected_default in Ha. rewrite Hn in Ha. discriminate Ha.
  - exact Hinit.
  - exact Hfrom.
Qed.

Lemma add_base_tools_adds_selected_defaults_witness :
  exists (g' : Globals) (self' : Toolbox),
    @add_base_tools sample_env initial_globals
                    {| _tools := [("search", Concrete first_search)] |} false
    = (g', self', Ok tt)
    /\ Dict.keys (_tools self')
       = ["search"; "document_qa"; "image_qa"; "transcriber"; "text_reader"; "translator"]
    /\ Dict.mem "python_interpreter" (_tools self') = false
    /\ @imported_setup_default_tools sample_env = Ok (HUGGINGFACE_DEFAULT_TOOLS g').
Proof.
  destruct (@add_base_tools sample_env initial_globals
                            {| _tools := [("search", Concrete first_search)] |} false)
    as [[g' self'] r] eqn:Hrun.
  assert (Hr : r = Ok tt).
  { apply (f_equal snd) in Hrun. cbn [snd] in Hrun. rewrite <- Hrun.
    vm_compute. reflexivity. }
  subst r. exists g', self'. split; [reflexivity|].
  destruct (add_base_tools_adds_selected_defaults
              sample_env initial_globals g'
              {| _tools := [("search", Concrete first_search)] |} self' false
              ltac:(repeat constructor; cbn; tauto) Hrun)
    as [_ [_ [Hno [_ Hfrom]]]].
  split; [|split].
  - apply (f_equal (fun x => Dict.keys (_tools (snd (fst x))))) in Hrun.
    cbn [fst snd] in Hrun. rewrite <- Hrun. vm_compute. reflexivity.
  - apply Hno; reflexivity.
  - exact Hfrom.
Defined.

(** X18. [add_base_tools] cannot be repeated on a registry: after a
    call that returned and added a tool, a second call with the same
    flag raises the duplicate-name [KeyError] of [add_tool] for a
    default tool, its text the [repr] of the message, and leaves the
    registry and the globals as they are. *)
Theorem add_base_tools_twice_raises :
  forall (E : Env) (g g' : Globals) (self self' : Toolbox) (flag : bool),
    NoDup (Dict.keys (_tools self)) ->
    add_base_tools g self flag = (g', self', Ok tt) ->
    (exists e, In e (Dict.values (HUGGINGFACE_DEFAULT_TOOLS g'))
               /\ (entry_name e <> "python_interpreter" \/ flag = true)) ->
    exists e,
      In e (Dict.values (HUGGINGFACE_DEFAULT_TOOLS g'))
      /\ add_base_tools g' self' flag
         = (g', self',
            Raise (KeyError_of
                     ("Error: tool '" ++ entry_name e
                        ++ "' already exists in the toolbox."))).
Proof.
  intros E g g' self self' flag Hnd H [e [Hin Hs]].
  apply (add_base_tools_again g g' self self' flag Hnd H).
  exists e. split; [exact Hin|]. unfold selected_default.
  destruct Hs as [Hne| ->]; [|apply orb_true_r].
  apply String.eqb_neq in Hne. rewrite Hne. reflexivity.
Qed.

Lemma add_base_tools_twice_raises_witness :
  exists (g' : Globals) (self' : Toolbox) (e : entry),
    @add_base_tools sample_env initial_globals {| _tools := [] |} false
    = (g', self', Ok tt)
    /\ @add_base_tools sample_env g' self' false
       = (g', self',
          Raise (KeyError_of
                   ("Error: tool '" ++ entry_name e ++ "' already exists in the toolbox.")))
    /\ snd (@add_base_tools sample_env g' self' false)
       = Raise (Exn KeyError
                    (dq ++ "Error: tool 'document_qa' already exists in the toolbox." ++ dq)).
Proof.
  destruct (@add_base_tools sample_env initial_globals {| _tools := [] |} false)
    as [[g' self'] r] eqn:Hrun.
  assert (Hr : r = Ok tt).
  { apply (f_equal snd) in Hrun. cbn [snd] in Hrun. rewrite <- Hrun.
    vm_compute. reflexivity. }
  subst r.
  assert (Hg : HUGGINGFACE_DEFAULT_TOOLS g' = @setup_default_tools sample_env).
  { apply (f_equal (fun x => HUGGINGFACE_DEFAULT_TOOLS (fst (fst x)))) in Hrun.
    cbn [fst] in Hrun. rewrite <- Hrun. vm_compute. reflexivity. }
  destruct (add_base_tools_twice_raises
              sample_env initial_globals g' {| _tools := [] |} self' false
              ltac:(constructor) Hrun) as [e [_ He]].
  - rewrite Hg. eexists. split; [left; reflexivity|]. left. cbn. discriminate.
  - exists g', self', e. split; [reflexivity|]. split; [exact He|].
    vm_compute in Hrun. injection Hrun as <- <-. reflexivity.
Defined.

(** X19. [format_prompt_with_tools] fills a placeholder where it
    stands and leaves the text around it as it is: the descriptions of
    the tools, joined by line feeds, for [<<tool_descriptions>>], and
    the quoted names of the tools, in the order of the registry and
    joined by commas, for [<<tool_names>>]; a template without
    placeholder is returned as it is. *)
Theorem format_prompt_with_tools_fills_placeholders :
  (forall (E : Env) (toolbox : Toolbox) (a b template : string),
      contains "<<tool_descriptions>>" a = false ->
      contains "<<tool_descriptions>>" b = false ->
      contains "<<tool_names>>" (a ++ show_tool_descriptions toolbox template ++ b)
      = false ->
      format_prompt_with_tools toolbox (a ++ "<<tool_descriptions>>" ++ b) template
      = a ++ show_tool_descriptions toolbox template ++ b)
  /\ (forall (E : Env) (toolbox : Toolbox) (a b template : string),
         contains "<<tool_descriptions>>" (a ++ "<<tool_names>>" ++ b) = false ->
         contains "<<tool_names>>" a = false ->
         contains "<<tool_names>>" b = false ->
         format_prompt_with_tools toolbox (a ++ "<<tool_names>>" ++ b) template
         = a ++ String.concat ", " (map (fun n => "'" ++ n ++ "'")
                                        (Dict.keys (_tools toolbox)))
             ++ b)
  /\ (forall (E : Env) (toolbox : Toolbox) (prompt_template template : string),
         contains "<<tool_descriptions>>" prompt_template = false ->
         contains "<<tool_names>>" prompt_template = false ->
         format_prompt_with_tools toolbox prompt_template template = prompt_template).
Proof.
  split; [|split].
  - intros E. apply format_prompt_descriptions.
  - intros E. apply format_prompt_names.
  - intros E. apply format_prompt_plain.
Qed.

Lemma format_prompt_with_tools_fills_placeholders_witness :
  @format_prompt_with_tools
    sample_env
    {| _tools := [("search", Concrete first_search); ("image_loader", Concrete path_tool)] |}
    ("Use one of: " ++ "<<tool_names>>" ++ ".") EmptyString
  = "Use one of: 'search', 'image_loader'."
  /\ @format_prompt_with_tools
       sample_env
       {| _tools := [("search", Concrete first_search)] |}
       ("Tools:" ++ nl ++ "<<tool_descriptions>>" ++ nl ++ "Begin.") EmptyString
     = "Tools:" ++ nl ++ "- search: Searches the web." ++ nl ++ "Begin.".
Proof.
  split.
  - refine (eq_trans
              (proj1 (proj2 format_prompt_with_tools_fills_placeholders)
                     sample_env
                     {| _tools := [("search", Concrete first_search);
                                   ("image_loader", Concrete path_tool)] |}
                     "Use one of: " "." EmptyString eq_refl eq_refl eq_refl) _).
    reflexivity.
  - refine (eq_trans
              (proj1 format_prompt_with_tools_fills_placeholders
                     sample_env
                     {| _tools := [("search", Concrete first_search)] |}
                     ("Tools:" ++ nl) (nl ++ "Begin.") EmptyString
                     eq_refl eq_refl eq_refl) _).
    reflexivity.
Defined.

(** X20. When the constructor of an agent returns, the registry of the
    agent holds the final-answer tool, under its name and in the last
    place, the system prompt is the template filled from that registry,
    the step log is empty and there is no task; a [Toolbox] given as
    [tools] is the registry of the agent, final-answer tool included. *)
Theorem Agent_init_registers_final_answer :
  forall (E : Env) (is_torch_available : bool) (FinalAnswerTool : Tool)
         (ReactJsonAgent : option string) (cls : string) (g g' : Globals)
         (tools : tools_arg) (engine : list message -> list string -> result string)
         (system_prompt_text : string) (description_template : option string)
         (iterations : nat) (add_base : bool) (caller : option Toolbox) (a : Agent),
    Agent_init is_torch_available FinalAnswerTool ReactJsonAgent cls g tools engine
               system_prompt_text description_template iterations add_base
    = (g', caller, Ok a) ->
    Dict.get (tool_name FinalAnswerTool) (_tools (toolbox a))
    = Some (Concrete FinalAnswerTool)
    /\ (exists ks, Dict.keys (_tools (toolbox a)) = (ks ++ [tool_name FinalAnswerTool])%list
                   /\ ~ In (tool_name FinalAnswerTool) ks)
    /\ system_prompt a
       = format_prompt_with_tools (toolbox a) system_prompt_text
                                  (tool_description_template a)
    /\ logs a = [] /\ task a = None
    /\ caller = match tools with
                | ToolboxObject _ => Some (toolbox a)
                | ToolList _ => None
                end.
Proof.
  intros E torch final react cls g g' tools engine sp tdt mi add_base caller a H.
  destruct (Agent_init_ok torch final react _ _ _ _ _ _ _ _ _ _ _ H)
    as [tb [Hnone [Hset [Hc [Hp [Hl [_ [Ht _]]]]]]]].
  split; [rewrite Hset; apply get_set_same|]. split.
  - exists (Dict.keys (_tools tb)). split.
    + rewrite Hset. apply keys_set_new, get_none_notin, Hnone.
    + apply get_none_notin, Hnone.
  - repeat split; assumption.
Qed.

Lemma Agent_init_registers_final_answer_witness :
  exists a : Agent,
    snd (@Agent_init sample_env true (sample_tool "final_answer") None "Agent"
                     initial_globals (ToolList [Concrete first_search])
                     failing_engine "Tools: <<tool_names>>" None 6 false)
    = Ok a
    /\ Dict.keys (_tools (toolbox a)) = ["search"; "final_answer"]
    /\ system_prompt a = "Tools: 'search', 'final_answer'"
    /\ Dict.get "final_answer" (_tools (toolbox a))
       = Some (Concrete (sample_tool "final_answer")).
Proof.
  destruct (@Agent_init sample_env true (sample_tool "final_answer") None "Agent"
                        initial_globals (ToolList [Concrete first_search])
                        failing_engine "Tools: <<tool_names>>" None 6 false)
    as [[g' caller] [a|e|b]] eqn:Hinit; [|vm_compute in Hinit; discriminate Hinit..].
  exists a. split; [reflexivity|].
  destruct (Agent_init_registers_final_answer _ _ _ _ _ _ _ _ _ _ _ _ _ _ _ Hinit)
    as [Hget _].
  vm_compute in Hinit. injection Hinit as _ _ <-.
  split; [reflexivity|]. split; [reflexivity|]. exact Hget.
Defined.

(** X21. A [Toolbox] serves one agent: once a constructor has returned
    for an agent built on a [Toolbox] object, every other construction
    on that object, without base tools, raises the duplicate-name
    [KeyError] of [add_tool] for the final-answer tool, its text the
    [repr] of the message, and leaves the object as it is. *)
Theorem Agent_init_shared_toolbox_raises :
  forall (E : Env) (is_torch_available : bool) (FinalAnswerTool : Tool)
         (ReactJsonAgent : option string) (cls : string) (g g' : Globals)
         (tb : Toolbox) (engine : list message -> list string -> result string)
         (system_prompt_text : string) (description_template : option string)
         (iterations : nat) (add_base : bool) (caller : option Toolbox) (a : Agent),
    Agent_init is_torch_available FinalAnswerTool ReactJsonAgent cls g (ToolboxObject tb)
               engine system_prompt_text description_template iterations add_base
    = (g', caller, Ok a) ->
    caller = Some (toolbox a)
    /\ forall (cls2 : string) (g2 : Globals)
              (engine2 : list message -> list string -> result string)
              (system_prompt_text2 : string) (description_template2 : option string)
              (iterations2 : nat),
        Agent_init is_torch_available FinalAnswerTool ReactJsonAgent cls2 g2
                   (ToolboxObject (toolbox a)) engine2 system_prompt_text2
                   description_template2 iterations2 false
        = (g2, Some (toolbox a),
           Raise (KeyError_of
                    ("Error: tool '" ++ tool_name FinalAnswerTool
                       ++ "' already exists in the toolbox."))).
Proof.
  intros E torch final react cls g g' tb engine sp tdt mi add_base caller a H.
  destruct (Agent_init_ok torch final react _ _ _ _ _ _ _ _ _ _ _ H)
    as [tb0 [_ [Hset [Hc _]]]].
  split; [exact Hc|].
  intros cls2 g2 engine2 sp2 tdt2 mi2.
  apply (Agent_init_shared_again torch final react cls2 g2 (toolbox a) engine2 sp2 tdt2 mi2
                                 (Concrete final)).
  rewrite Hset. apply get_set_same.
Qed.

Lemma Agent_init_shared_toolbox_raises_witness :
  exists (g' : Globals) (a : Agent),
    @Agent_init sample_env true (sample_tool "final_answer") None "Agent"
                initial_globals
                (ToolboxObject {| _tools := [("search", Concrete first_search)] |})
                failing_engine "Tools: <<tool_names>>" None 6 false
    = (g', Some (toolbox a), Ok a)
    /\ snd (@Agent_init sample_env true (sample_tool "final_answer") None "CodeAgent"
                        initial_globals (ToolboxObject (toolbox a))
                        failing_engine "Tools: <<tool_names>>" None 6 false)
       = Raise (Exn KeyError
                    (dq ++ "Error: tool 'final_answer' already exists in the toolbox." ++ dq)).
Proof.
  destruct (@Agent_init sample_env true (sample_tool "final_answer") None "Agent"
                        initial_globals
                        (ToolboxObject {| _tools := [("search", Concrete first_search)] |})
                        failing_engine "Tools: <<tool_names>>" None 6 false)
    as [[g' caller] [a|e|b]] eqn:Hinit; [|vm_compute in Hinit; discriminate Hinit..].
  destruct (Agent_init_shared_toolbox_raises _ _ _ _ _ _ _ _ _ _ _ _ _ _ _ Hinit)
    as [-> Hagain].
  exists g', a. split; [reflexivity|].
  rewrite Hagain. reflexivity.
Defined.

(** X23. The transcript only grows: a step record added at the end of
    the step log leaves every message of the transcript in place and
    adds, after them, at most five messages in full mode and four in
    summary mode, none of them a system message. *)
Theorem write_inner_memory_appends :
  forall (E : Env) (self self' : Agent) (log0 step : step_log) (steps : list step_log)
         (summary_mode : bool) (memory : list message),
    logs self = log0 :: steps ->
    logs self' = log0 :: (steps ++ [step])%list ->
    write_inner_memory_from_logs self summary_mode = Ok memory ->
    exists added : list message,
      write_inner_memory_from_logs self' summary_mode = Ok (memory ++ added)%list
      /\ List.length added <= (if summary_mode then 4 else 5)
      /\ Forall (fun m => role m <> SYSTEM) added.
Proof.
  intros E self self' log0 step steps sm memory Hl Hl' H.
  exists (memory_step sm (List.length steps) step []).
  split; [|split].
  - destruct (write_inner_memory_unfold self sm log0 steps memory Hl H)
      as [sp [t [Hsp [Ht ->]]]].
    unfold write_inner_memory_from_logs. rewrite Hl', Hsp, Ht. cbn [log_item bind].
    rewrite memory_loop_snoc, Nat.add_0_l.
    rewrite (memory_loop_app sm 0 steps). reflexivity.
  - apply memory_step_length.
  - apply memory_step_no_system.
Qed.

Lemma write_inner_memory_appends_witness :
  exists added : list message,
    @write_inner_memory_from_logs
      sample_env
      (set_logs (sample_agent failing_engine echo_evaluator [])
                (sample_logs
                   ++ [ failed_step ])%list)
      true
    = Ok ([ {| role := USER; content := "Task: Count the files." |};
            {| role := ASSISTANT; content := "[STEP 0 TOOL CALL]: ls" |};
            {| role := ASSISTANT; content := "[STEP 1 TOOL CALL]: wc" |};
            {| role := TOOL_RESPONSE;
               content := "[OUTPUT OF STEP 1] Observation:" ++ nl ++ "3" |} ]
            ++ added)%list
    /\ List.length added <= 4.
Proof.
  destruct (write_inner_memory_appends
              sample_env
              (set_logs (sample_agent failing_engine echo_evaluator []) sample_logs)
              (set_logs (sample_agent failing_engine echo_evaluator [])
                        (sample_logs
                           ++ [ failed_step ])%list)
              _ _ _ true _ eq_refl eq_refl eq_refl) as [added [Hw [Hlen _]]].
  exists added. split; [exact Hw | exact Hlen].
Defined.

(** X24. In both modes every step record that holds an error or an
    observation gives exactly one tool-response message, so the
    transcript holds as many of them as there are such records. An
    error goes before an observation: a record with an error gives the
    error message with the retry admonition, and an observation message
    comes only from a record without error. *)
Theorem write_inner_memory_tool_responses :
  forall (E : Env) (self : Agent) (log0 : step_log) (steps : list step_log)
         (summary_mode : bool) (memory : list message),
    logs self = log0 :: steps ->
    write_inner_memory_from_logs self summary_mode = Ok memory ->
    List.length (filter is_tool_response memory)
    = List.length (filter has_response steps)
    /\ (forall (i : nat) (step : step_log) (e : exn),
           nth_error steps i = Some step -> log_error step = Some e ->
           In {| role := TOOL_RESPONSE;
                 content := "[OUTPUT OF STEP " ++ str_nat i ++ "] Error: " ++ exn_str e
                              ++ nl
                              ++ "Now let's retry: take care not to repeat previous errors! If you have retried several times, try a completely different approach."
                              ++ nl |}
              memory)
    /\ (forall (i : nat) (step : step_log) (o : pyval),
           nth_error steps i = Some step ->
           log_error step = None -> log_observation step = Some o ->
           In {| role := TOOL_RESPONSE;
                 content := "[OUTPUT OF STEP " ++ str_nat i ++ "] Observation:" ++ nl
                              ++ py_str o |}
              memory)
    /\ (forall m : message,
           In m memory -> role m = TOOL_RESPONSE ->
           exists (i : nat) (step : step_log),
             nth_error steps i = Some step
             /\ match log_error step with
                | Some e =>
                    content m
                    = "[OUTPUT OF STEP " ++ str_nat i ++ "] Error: " ++ exn_str e
                        ++ retry_admonition
                | None =>
                    exists o, log_observation step = Some o
                              /\ content m
                                 = "[OUTPUT OF STEP " ++ str_nat i ++ "] Observation:" ++ nl
                                     ++ py_str o
                end).
Proof.
  intros E self log0 steps sm memory Hl H.
  destruct (write_inner_memory_unfold self sm log0 steps memory Hl H)
    as [sp [t [_ [_ ->]]]].
  split; [|split; [|split]].
  - rewrite filter_app, length_app, filter_response_loop. destruct sm; reflexivity.
  - intros i step e Hn He. apply in_or_app. right.
    apply (memory_loop_in sm steps 0 i step _ Hn). cbn [Nat.add].
    exact (error_step_message sm i step e He).
  - intros i step o Hn He Ho. apply in_or_app. right.
    apply (memory_loop_in sm steps 0 i step _ Hn). cbn [Nat.add].
    exact (observation_step_message sm i step o He Ho).
  - intros m Hin Hr. apply in_app_or in Hin as [Hin|Hin].
    + exfalso. destruct sm; cbn in Hin; intuition (subst; discriminate).
    + destruct (memory_loop_origin sm steps 0 m Hin) as [k [step [Hn Hk]]].
      cbn [Nat.add] in Hk. exists k, step. split; [exact Hn|].
      assert (Hf : In m (filter is_tool_response (memory_step sm k step []))).
      { apply filter_In. split; [exact Hk|]. unfold is_tool_response. rewrite Hr.
        reflexivity. }
      rewrite filter_response_cases in Hf.
      destruct (log_error step) as [e|].
      * destruct Hf as [<-|[]]. reflexivity.
      * destruct (log_observation step) as [o|]; [|contradiction].
        destruct Hf as [<-|[]]. exists o. split; reflexivity.
Qed.

Lemma write_inner_memory_tool_responses_witness :
  exists memory : list message,
    @write_inner_memory_from_logs
      sample_env
      (set_logs (sample_agent failing_engine echo_evaluator [])
                (sample_logs ++ [failed_step])%list)
      false
    = Ok memory
    /\ List.length (filter is_tool_response memory) = 2
    /\ In {| role := TOOL_RESPONSE;
             content := "[OUTPUT OF STEP 2] Error: bad" ++ nl
                          ++ "Now let's retry: take care not to repeat previous errors! If you have retried several times, try a completely different approach."
                          ++ nl |}
          memory.
Proof.
  destruct (@write_inner_memory_from_logs
              sample_env
              (set_logs (sample_agent failing_engine echo_evaluator [])
                        (sample_logs ++ [failed_step])%list)
              false) as [memory|e|b] eqn:Hw; [|vm_compute in Hw; discriminate Hw..].
  exists memory. split; [reflexivity|].
  destruct (write_inner_memory_tool_responses
              sample_env
              (set_logs (sample_agent failing_engine echo_evaluator [])
                        (sample_logs ++ [failed_step])%list)
              (hd empty_log sample_logs) (tl sample_logs ++ [failed_step])%list
              false memory eq_refl Hw) as [Hcount [Herr _]].
  split; [exact Hcount|].
  exact (Herr 2 failed_step (Exn ValueError "bad") eq_refl eq_refl).
Defined.

(** X25. [get_succinct_logs] keeps the number and the order of the
    records and, in each record, every key but [agent_memory], with its
    value and at its place. *)
Theorem get_succinct_logs_drops_agent_memory :
  forall (logs : list (Dict.dict pyval)),
    Forall (fun log => NoDup (Dict.keys log)) logs ->
    List.length (get_succinct_logs logs) = List.length logs
    /\ forall (i : nat) (log : Dict.dict pyval),
        nth_error logs i = Some log ->
        exists log',
          nth_error (get_succinct_logs logs) i = Some log'
          /\ (forall k, Dict.get k log'
                        = if String.eqb k "agent_memory" then None else Dict.get k log)
          /\ Dict.keys log'
             = filter (fun k => negb (String.eqb k "agent_memory")) (Dict.keys log).
Proof.
  intros logs Hnd. unfold get_succinct_logs. split; [apply length_map|].
  intros i log Hi.
  eexists. split; [apply map_nth_error; exact Hi|].
  assert (Hlog : NoDup (Dict.keys log)).
  { rewrite Forall_forall in Hnd. apply Hnd. eapply nth_error_In. exact Hi. }
  rewrite (succinct_log log Hlog). split.
  - intros k. apply get_filter_key.
  - apply keys_filter_key.
Qed.

Lemma get_succinct_logs_drops_agent_memory_witness :
  get_succinct_logs
    [ [("system_prompt", PStr "p"); ("task", PStr "t")];
      [("agent_memory", PList []); ("llm_output", PStr "o"); ("observation", PStr "3")] ]
  = [ [("system_prompt", PStr "p"); ("task", PStr "t")];
      [("llm_output", PStr "o"); ("observation", PStr "3")] ]
  /\ List.length
       (get_succinct_logs
          [ [("system_prompt", PStr "p"); ("task", PStr "t")];
            [("agent_memory", PList []); ("llm_output", PStr "o");
             ("observation", PStr "3")] ])
     = 2.
Proof.
  split; [reflexivity|].
  apply (proj1 (get_succinct_logs_drops_agent_memory
                  [ [("system_prompt", PStr "p"); ("task", PStr "t")];
                    [("agent_memory", PList []); ("llm_output", PStr "o");
                     ("observation", PStr "3")] ]
                  ltac:(repeat constructor; cbn; intuition discriminate))).
Defined.

(** X26. [extract_action] raises, an [AgentParsingError] that quotes the
    output, exactly when the split token does not occur in the output.
    With a token that cannot overlap a copy of itself, the action is
    all that follows the last token, and the rationale the piece that
    stands before it, back to the token before or to the start. *)
Theorem extract_action_splits_at_last_token :
  (forall (llm_output split_token : string),
      contains split_token llm_output = false ->
      extract_action llm_output split_token
      = Raise (Exn AgentParsingError
                 ("Error: No '" ++ split_token ++ "' token provided in your output." ++ nl
                    ++ "Your output:" ++ nl ++ llm_output ++ nl
                    ++ ". Be sure to include an action, prefaced with '"
                    ++ split_token ++ "'!")))
  /\ (forall (llm_output split_token : string),
         split_token <> EmptyString ->
         contains split_token llm_output = true ->
         exists rationale action,
           extract_action llm_output split_token = Ok (rationale, action))
  /\ (forall (split_token before action : string),
         unbordered split_token = true ->
         contains split_token action = false ->
         extract_action (before ++ split_token ++ action) split_token
         = Ok (last (split split_token before) EmptyString, action)).
Proof.
  split; [|split].
  - intros out tok. apply extract_action_absent.
  - intros out tok. apply extract_action_present.
  - intros tok x b. apply extract_action_pieces.
Qed.

Lemma extract_action_splits_at_last_token_witness :
  unbordered "Code:" = true
  /\ extract_action
       (lit "Thought: first.^Code:^draft^Thought: better.^" ++ "Code:" ++ lit "^final")
       "Code:"
     = Ok (lit "^draft^Thought: better.^", lit "^final").
Proof.
  split; [reflexivity|].
  rewrite (proj2 (proj2 extract_action_splits_at_last_token)
                 "Code:" (lit "Thought: first.^Code:^draft^Thought: better.^")
                 (lit "^final") eq_refl eq_refl).
  reflexivity.
Defined.

(** X27. Arguments that are no mapping are not dereferenced: with a
    string the tool is called with that very string as its one
    positional argument, even when the string names a variable of the
    state, and no object changes; with [None], a truth value, a number
    or a list, values that are no string and have no [items] method,
    the tool is not called and an [AgentExecutionError] reports the
    missing [items] under the name of the type of the value. *)
Theorem execute_tool_call_arguments_not_mapping :
  (forall (E : Env) (self : Agent) (tool_name s : string) (tool : entry) (h : heap),
      Dict.get tool_name (_tools (toolbox self)) = Some tool ->
      execute_tool_call self tool_name (ArgStr s) h
      = (h, match call_entry tool (Positional (PStr s)) with
            | Ok observation => Ok observation
            | Raise e =>
                Raise (Exn AgentExecutionError
                         (execution_error_msg
                            (exn_str e)
                            (get_tool_description_with_args
                               tool DEFAULT_TOOL_DESCRIPTION_TEMPLATE)))
            | RaiseBase b => RaiseBase b
            end))
  /\ (forall (E : Env) (self : Agent) (tool_name : string) (v : pyval)
             (no_items : has_no_items v = true) (tool : entry) (h : heap),
         Dict.get tool_name (_tools (toolbox self)) = Some tool ->
         execute_tool_call self tool_name (ArgOther v no_items) h
         = (h, Raise (Exn AgentExecutionError
                        ("Error in tool call execution: '" ++ py_type_name v
                           ++ "' object has no attribute 'items'" ++ nl
                           ++ "You should only use this tool with a correct input." ++ nl
                           ++ "As a reminder, this tool's description is the following:" ++ nl
                           ++ get_tool_description_with_args
                                tool DEFAULT_TOOL_DESCRIPTION_TEMPLATE)))).
Proof.
  split.
  - intros E. apply execute_tool_call_string.
  - intros E self tool_name v Hv tool h H.
    rewrite (execute_tool_call_other self tool_name v Hv tool h H).
    unfold execution_error_msg. rewrite !append_assoc. reflexivity.
Qed.

Lemma execute_tool_call_arguments_not_mapping_witness :
  @execute_tool_call sample_env running_agent "image_loader" (ArgStr "img") sample_heap
  = (sample_heap, Ok (PStr "img"))
  /\ @execute_tool_call sample_env running_agent "image_loader"
                        (ArgOther PNone eq_refl) sample_heap
     = (sample_heap,
        Raise (Exn AgentExecutionError
                 ("Error in tool call execution: 'NoneType' object has no attribute 'items'"
                    ++ nl ++ "You should only use this tool with a correct input." ++ nl
                    ++ "As a reminder, this tool's description is the following:" ++ nl
                    ++ "- image_loader: Loads an image.")))
  /\ @execute_tool_call sample_env running_agent "image_loader"
                        (ArgOther (PList [PStr "img"]) eq_refl) sample_heap
     = (sample_heap,
        Raise (Exn AgentExecutionError
                 ("Error in tool call execution: 'list' object has no attribute 'items'"
                    ++ nl ++ "You should only use this tool with a correct input." ++ nl
                    ++ "As a reminder, this tool's description is the following:" ++ nl
                    ++ "- image_loader: Loads an image."))).
Proof.
  split; [|split].
  - rewrite (proj1 execute_tool_call_arguments_not_mapping
                   sample_env running_agent "image_loader" "img" (Concrete path_tool)
                   sample_heap eq_refl).
    reflexivity.
  - rewrite (proj2 execute_tool_call_arguments_not_mapping
                   sample_env running_agent "image_loader" PNone eq_refl
                   (Concrete path_tool) sample_heap eq_refl).
    reflexivity.
  - rewrite (proj2 execute_tool_call_arguments_not_mapping
                   sample_env running_agent "image_loader" (PList [PStr "img"]) eq_refl
                   (Concrete path_tool) sample_heap eq_refl).
    reflexivity.
Defined.

(** X28. The prompt [CodeAgent.run] sends to the model engine is the
    full transcript of the step log it has just initialized: the system
    prompt, then the task. The summary transcript is that prompt
    without its first message. The state of the run is a new object
    that holds the keyword arguments, the objects that existed before
    are untouched, and with [return_generated_code] the output of the
    engine is returned as it is. *)
Theorem run_prompt_is_full_transcript :
  forall (E : Env) (self : Agent) (task_text : string) (kwargs : Dict.dict pyval)
         (h : heap) (self' : Agent) (h' : heap) (llm_output : string),
    run_llm self task_text kwargs h = (self', h', Ok llm_output) ->
    exists msgs : list message,
      prompt self' = Some msgs
      /\ llm_engine self msgs ["<end_action>"] = Ok llm_output
      /\ write_inner_memory_from_logs self' false = Ok msgs
      /\ write_inner_memory_from_logs self' true = Ok (tl msgs)
      /\ state self' = Some (List.length h)
      /\ h' = (h ++ [kwargs])%list
      /\ run self task_text true kwargs h = (self', (h ++ [kwargs])%list, Ok (PStr llm_output)).
Proof.
  intros E self task_text kwargs h self' h' out H.
  pose proof (run_llm_heap _ _ _ _ _ _ _ H) as Hh.
  destruct (run_llm_ok _ _ _ _ _ _ _ H) as [Hp [Ht [Hs [Hl [He _]]]]].
  eexists. split; [exact Hp|]. split; [exact He|].
  unfold write_inner_memory_from_logs. rewrite Hl. cbn [log_system_prompt log_task].
  cbn [log_item bind memory_loop tl].
  repeat split; try assumption.
  unfold run. rewrite H, Hh. reflexivity.
Qed.

Lemma run_prompt_is_full_transcript_witness :
  exists self' : Agent,
    @run sample_env (sample_agent (fun _ _ => Ok "Code: none") echo_evaluator [])
         "What is 2 + 2?" true [("x", PInt 2)] []
    = (self', [[("x", PInt 2)]], Ok (PStr "Code: none"))
    /\ @write_inner_memory_from_logs sample_env self' false
       = Ok [ {| role := SYSTEM; content := "Tools: . Imports: ['math']." |};
              {| role := USER;
                 content := "Task: What is 2 + 2?" ++ nl
                              ++ "You have been provided with these initial arguments: <value>." |} ].
Proof.
  destruct (@run_llm sample_env (sample_agent (fun _ _ => Ok "Code: none") echo_evaluator [])
                     "What is 2 + 2?" [("x", PInt 2)] []) as [[self' h'] r] eqn:Hrun.
  assert (Hr : r = Ok "Code: none").
  { apply (f_equal snd) in Hrun. cbn [snd] in Hrun. rewrite <- Hrun. reflexivity. }
  subst r. exists self'.
  destruct (run_prompt_is_full_transcript sample_env _ _ _ _ _ _ _ Hrun)
    as [msgs [Hp [_ [Hfull [_ [_ [_ Hret]]]]]]].
  split; [exact Hret|]. rewrite Hfull. f_equal.
  assert (Hs : Some msgs = prompt self') by (symmetry; exact Hp).
  apply (f_equal (fun x => prompt (fst (fst x)))) in Hrun. cbn [fst] in Hrun.
  rewrite <- Hrun in Hs. vm_compute in Hs. injection Hs as ->. reflexivity.
Defined.

(** X29. [CodeAgent.run] needs the placeholder of the imports: when
    the system prompt, once the tools are filled in, holds no
    [<<authorized_imports>>], the run raises an [AgentError] before the
    model engine is called, whatever the engine, the evaluator
    and the flag. *)
Theorem run_missing_imports_placeholder_raises :
  forall (E : Env) (self : Agent) (task_text : string) (return_generated_code : bool)
         (kwargs : Dict.dict pyval) (h : heap) (imports : list string),
    authorized_imports self = Some imports ->
    contains "<<authorized_imports>>"
             (format_prompt_with_tools (toolbox self) (system_prompt_template self)
                                       (tool_description_template self)) = false ->
    snd (run self task_text return_generated_code kwargs h)
    = Raise (Exn AgentError "Tag '<<authorized_imports>>' should be provided in the prompt.").
Proof.
  intros E self task_text b kwargs h imports Hi Hc.
  unfold run, run_llm. cbn zeta. unfold heap_alloc.
  set (t := match kwargs with [] => task_text | _ :: _ => _ end).
  destruct (initialize_for_run_missing_tag
              (set_state (set_task self (Some t)) (Some (List.length h))) imports Hi Hc)
    as [Hr _].
  destruct (initialize_for_run _) as [s r]. cbn [snd] in Hr. subst r. reflexivity.
Qed.

Lemma run_missing_imports_placeholder_raises_witness :
  snd (@run sample_env untagged_agent "What is 2 + 2?" false [] [])
  = Raise (Exn AgentError "Tag '<<authorized_imports>>' should be provided in the prompt.").
Proof.
  apply (run_missing_imports_placeholder_raises
           sample_env untagged_agent "What is 2 + 2?" false [] [] ["math"]
           eq_refl eq_refl).
Defined.

(** X30. The value of the evaluator is returned only when the
    evaluator has left a key [print_outputs] in the state of the run:
    without it [CodeAgent.run] drops the value and returns the error
    string of the failed lookup. *)
Theorem run_output_requires_print_outputs :
  forall (E : Env) (self : Agent) (task_text : string) (kwargs : Dict.dict pyval)
         (h : heap) (self' : Agent) (h' h'' : heap) (llm_output code : string)
         (imports : list string) (output : pyval),
    run_llm self task_text kwargs h = (self', h', Ok llm_output) ->
    parse_code_blob (code_action_of llm_output) = Ok code ->
    authorized_imports self' = Some imports ->
    python_evaluator self' code
                     (Dict.merge BASE_PYTHON_TOOLS (_tools (toolbox self'))) []
                     (List.length h) imports h'
    = (h'', Ok output) ->
    run self task_text false kwargs h
    = (self', h'',
       match heap_get h'' (List.length h) with
       | Some st =>
           match Dict.get "print_outputs" st with
           | Some _ => Ok output
           | None =>
               Ok (PStr "Error in execution: 'print_outputs'. Be sure to provide correct code.")
           end
       | None =>
           Ok (PStr "Error in execution: 'print_outputs'. Be sure to provide correct code.")
       end).
Proof.
  intros E self task_text kwargs h self' h' h'' out code imports output H Hp Hi Hev.
  destruct (run_llm_ok _ _ _ _ _ _ _ H) as [_ [_ [Hs _]]].
  rewrite (run_after_model_output self task_text kwargs h self' h' out H).
  unfold run_parse_execute. rewrite Hp.
  rewrite (run_execute_print_outputs self' code _ imports h' h'' output Hs Hi Hev).
  cbn [fst snd].
  destruct (heap_get h'' (List.length h)) as [st|]; [|reflexivity].
  destruct (Dict.get "print_outputs" st); reflexivity.
Qed.

Lemma run_output_requires_print_outputs_witness :
  snd (@run sample_env
            (sample_agent (fun _ _ => Ok (lit "Code:^```py^2 + 2^```"))
                          silent_evaluator [])
            "What is 2 + 2?" false [] [])
  = Ok (PStr "Error in execution: 'print_outputs'. Be sure to provide correct code.").
Proof.
  destruct (@run_llm sample_env
              (sample_agent (fun _ _ => Ok (lit "Code:^```py^2 + 2^```"))
                            silent_evaluator [])
              "What is 2 + 2?" [] []) as [[self' h'] r] eqn:Hrun.
  assert (Hr : r = Ok (lit "Code:^```py^2 + 2^```")).
  { apply (f_equal snd) in Hrun. cbn [snd] in Hrun. rewrite <- Hrun. reflexivity. }
  subst r.
  assert (Hself : self' = fst (fst (@run_llm sample_env
              (sample_agent (fun _ _ => Ok (lit "Code:^```py^2 + 2^```"))
                            silent_evaluator [])
              "What is 2 + 2?" [] []))) by (rewrite Hrun; reflexivity).
  assert (Hheap : h' = [[]]).
  { apply (f_equal (fun x => snd (fst x))) in Hrun. cbn [fst snd] in Hrun.
    rewrite <- Hrun. reflexivity. }
  rewrite (run_output_requires_print_outputs
             sample_env _ _ _ _ _ _ h' _ "2 + 2" ["math"] (PInt 4) Hrun eq_refl).
  - rewrite Hheap. reflexivity.
  - rewrite Hself. reflexivity.
  - rewrite Hself. reflexivity.
Defined.

